(** * Chain of Command: ledger, artifact store, canonicalizer and verifier

    A shallow embedding of the TypeScript sources of the repository
    (packages/crypto, packages/store, packages/protocol, packages/verifier,
    apps/api) together with the properties proved about them.

    Conventions of the embedding.
    - A JavaScript string is a Rocq [string] holding its UTF-8 bytes; files
      read with the "utf8" encoding are taken to hold well-formed UTF-8, so
      that [Buffer.byteLength(s, "utf8")] is [String.length s] and splitting
      on the line feed byte is splitting on "\n".
    - A JavaScript number is an IEEE-754 binary64 value, Rocq's primitive
      [float].
    - A value produced by [JSON.parse] is a [jsval]; an object keeps its
      properties in enumeration order.
    - Built-ins of the runtime whose definition is not part of the
      repository (number formatting, NFC normalisation, collation, JSON
      text parsing, SHA-256, Ed25519, the clock) are fields of type classes;
      every theorem holds for all their implementations unless it states a
      hypothesis about one. *)

From Stdlib Require Import String Ascii ZArith List Bool Lia.
From Stdlib Require Import Floats.PrimFloat Floats.SpecFloat Floats.FloatOps.
From Stdlib Require Import Numbers.Cyclic.Int63.Uint63.
From stdpp Require Import base option list gmap strings fin_maps.

Set Default Proof Using "Type".
Set Warnings "-register-all,-abstract-large-number".

(* ===================================================================== *)
(** * Exceptions and results *)
(* ===================================================================== *)

(** The exceptions the modelled code can raise. [JsError] is [new Error(msg)]
    thrown by the repository's own code, [TypeError] is the runtime's error for
    a property read on [null]/[undefined], iteration of a non-iterable or a call
    of a non-function, [ZodError] is zod's [parse] failure, [NodeError] an error
    of a Node.js library call. *)
Inductive exn : Type :=
| TypeError
| ZodError
| NodeError
| JsError (message : string).

Inductive result (A : Type) : Type :=
| Ok (a : A)
| Throw (e : exn).
Arguments Ok {A} a.
Arguments Throw {A} e.

#[global] Instance result_ret : MRet result := fun A a => Ok a.
#[global] Instance result_bind : MBind result := fun A B f m =>
  match m with Ok a => f a | Throw e => Throw e end.
#[global] Instance result_fmap : FMap result := fun A B f m =>
  match m with Ok a => Ok (f a) | Throw e => Throw e end.

Definition is_ok {A} (r : result A) : bool :=
  match r with Ok _ => true | Throw _ => false end.

(** [xs.map(f)] where [f] may throw: elements are visited in order and the
    first exception propagates. *)
Fixpoint mapM {A B} (f : A -> result B) (l : list A) : result (list B) :=
  match l with
  | [] => Ok []
  | x :: r =>
      match f x with
      | Throw e => Throw e
      | Ok y => match mapM f r with Throw e => Throw e | Ok ys => Ok (y :: ys) end
      end
  end.

(** Evaluate a list of already suspended results in order. *)
Fixpoint sequenceM {A} (l : list (result A)) : result (list A) :=
  match l with
  | [] => Ok []
  | x :: r =>
      match x with
      | Throw e => Throw e
      | Ok y => match sequenceM r with Throw e => Throw e | Ok ys => Ok (y :: ys) end
      end
  end.

(* ===================================================================== *)
(** * Strings *)
(* ===================================================================== *)

Module Str.

Definition code (c : ascii) : nat := nat_of_ascii c.

Definition lf : ascii := ascii_of_nat 10.
Definition nul : ascii := ascii_of_nat 0.

(** [parts.join(sep)] *)
Fixpoint join (sep : string) (parts : list string) : string :=
  match parts with
  | [] => ""
  | [p] => p
  | p :: rest => p +:+ sep +:+ join sep rest
  end.

(** [s.split(sep)] for a one-character separator: the pieces between the
    separators, the empty ones included; the empty string gives [[""]]. *)
Fixpoint split (sep : ascii) (s : string) : list string :=
  match s with
  | EmptyString => [""]
  | String c r =>
      if Ascii.eqb c sep then "" :: split sep r
      else match split sep r with
           | [] => [String c ""]
           | p :: ps => String c p :: ps
           end
  end.

Fixpoint take (n : nat) (s : string) : string :=
  match n, s with
  | S n', String c r => String c (take n' r)
  | _, _ => ""
  end.

Fixpoint drop (n : nat) (s : string) : string :=
  match n, s with
  | S n', String c r => drop n' r
  | _, _ => s
  end.

Fixpoint replicate (n : nat) (c : ascii) : string :=
  match n with 0 => "" | S n' => String c (replicate n' c) end.

(** [s.slice(i, j)] for [0 <= i <= j]. *)
Definition slice (i j : nat) (s : string) : string := take (j - i) (drop i s).

Fixpoint forallb (p : ascii -> bool) (s : string) : bool :=
  match s with
  | EmptyString => true
  | String c r => p c && forallb p r
  end.

(** The one-byte members of ECMAScript's WhiteSpace and LineTerminator:
    TAB, LF, VT, FF, CR, SP. *)
Definition ascii_space (c : ascii) : bool :=
  let n := code c in
  (n =? 9) || (n =? 10) || (n =? 11) || (n =? 12) || (n =? 13) || (n =? 32).

(** [!s.trim()]: [s] consists of white space only.  [trim] removes the code
    points of WhiteSpace and LineTerminator: the six single bytes above and,
    in UTF-8, U+00A0 (C2 A0), U+1680 (E1 9A 80), U+2000..U+200A
    (E2 80 80..8A), U+2028, U+2029 (E2 80 A8, A9), U+202F (E2 80 AF),
    U+205F (E2 81 9F), U+3000 (E3 80 80) and U+FEFF (EF BB BF). *)
Fixpoint blank (s : string) : bool :=
  match s with
  | EmptyString => true
  | String c r =>
      if ascii_space c then blank r
      else
        match r with
        | String c2 r2 =>
            if (code c =? 194) && (code c2 =? 160) then blank r2
            else
              match r2 with
              | String c3 r3 =>
                  let a := code c in
                  let b := code c2 in
                  let d := code c3 in
                  if ((a =? 225) && (b =? 154) && (d =? 128))
                     || ((a =? 226) && (b =? 128)
                         && (((128 <=? d) && (d <=? 138))
                             || (d =? 168) || (d =? 169) || (d =? 175)))
                     || ((a =? 226) && (b =? 129) && (d =? 159))
                     || ((a =? 227) && (b =? 128) && (d =? 128))
                     || ((a =? 239) && (b =? 187) && (d =? 191))
                  then blank r3
                  else false
              | EmptyString => false
              end
        | EmptyString => false
        end
  end.

(** [truncateSync(path, len)] on the bytes of a file: the first [len] bytes
    are kept and a shorter file is extended with NUL bytes. *)
Definition truncate (len : nat) (s : string) : string :=
  take len s +:+ replicate (len - String.length s) nul.

Definition hex_digit (n : nat) : ascii :=
  ascii_of_nat (if n <? 10 then 48 + n else 87 + n).

(** Lexicographic order of the bytes. *)
Fixpoint leb (a b : string) : bool :=
  match a, b with
  | EmptyString, _ => true
  | String _ _, EmptyString => false
  | String x a', String y b' =>
      if code x <? code y then true
      else if code y <? code x then false
      else leb a' b'
  end.

Definition ltb (a b : string) : bool := negb (leb b a).

Fixpoint of_nat_digits (fuel n : nat) (acc : string) : string :=
  match fuel with
  | 0 => acc
  | S fuel' =>
      let acc' := String (ascii_of_nat (48 + n mod 10)) acc in
      if n / 10 =? 0 then acc' else of_nat_digits fuel' (n / 10) acc'
  end.

(** Decimal digits of a natural number, as [String(n)] prints an index. *)
Definition of_nat (n : nat) : string := of_nat_digits (S n) n "".

End Str.

(* ===================================================================== *)
(** * JavaScript values *)
(* ===================================================================== *)

(** The values [JSON.parse] can return, and [undefined], which a property read
    of a missing key returns.  An object lists its own properties in
    enumeration order; its keys are distinct. *)
Inductive jsval : Type :=
| JUndef
| JNull
| JBool (b : bool)
| JNum (n : float)
| JStr (s : string)
| JArr (items : list jsval)
| JObj (props : list (string * jsval)).

Module Js.

Definition is_undefined (v : jsval) : bool :=
  match v with JUndef => true | _ => false end.

Definition is_nullish (v : jsval) : bool :=
  match v with JUndef | JNull => true | _ => false end.

(** ToBoolean. *)
Definition truthy (v : jsval) : bool :=
  match v with
  | JUndef | JNull => false
  | JBool b => b
  | JNum n => negb (PrimFloat.is_zero n || PrimFloat.is_nan n)
  | JStr s => negb (String.eqb s "")
  | JArr _ | JObj _ => true
  end.

(** [a === b].  Numbers compare as IEEE-754 values (NaN differs from itself,
    the two zeros are equal).  Two objects or arrays are equal only when they
    are one reference; the operands this program compares are read from
    different parsed lines, from the registry or are computed strings, so two
    object or array operands are taken to be different references. *)
Definition strict_eq (a b : jsval) : bool :=
  match a, b with
  | JUndef, JUndef => true
  | JNull, JNull => true
  | JBool x, JBool y => Bool.eqb x y
  | JNum x, JNum y => PrimFloat.eqb x y
  | JStr x, JStr y => String.eqb x y
  | _, _ => false
  end.

(** SameValueZero, the equality of [Set] and [Map] keys: as [===] except that
    NaN equals NaN. *)
Definition same_value_zero (a b : jsval) : bool :=
  match a, b with
  | JNum x, JNum y => PrimFloat.eqb x y || (PrimFloat.is_nan x && PrimFloat.is_nan y)
  | _, _ => strict_eq a b
  end.

Definition lookup_prop (k : string) (props : list (string * jsval)) : jsval :=
  match List.find (fun p => String.eqb (fst p) k) props with
  | Some p => snd p
  | None => JUndef
  end.

(** [v.k] (or [v[k]]) for a property name [k] that no prototype defines and
    that is not [length]: every name this program reads from a parsed value
    is of that kind.  Reading a property of [null] or [undefined] throws; a
    number, boolean, string or array has no such property. *)
Definition getp (v : jsval) (k : string) : result jsval :=
  match v with
  | JUndef | JNull => Throw TypeError
  | JObj props => Ok (lookup_prop k props)
  | _ => Ok JUndef
  end.

(** [v?.k] *)
Definition getp_opt (v : jsval) (k : string) : jsval :=
  match v with
  | JObj props => lookup_prop k props
  | _ => JUndef
  end.

Definition remove_prop (k : string) (props : list (string * jsval))
  : list (string * jsval) :=
  List.filter (fun p => negb (String.eqb (fst p) k)) props.

(** [obj[k] = v] on an object: an existing property keeps its place. *)
Fixpoint set_prop (k : string) (v : jsval) (props : list (string * jsval))
  : list (string * jsval) :=
  match props with
  | [] => [(k, v)]
  | (k', v') :: r =>
      if String.eqb k' k then (k, v) :: r else (k', v') :: set_prop k v r
  end.

Fixpoint index_props (i : nat) (items : list jsval) : list (string * jsval) :=
  match items with
  | [] => []
  | x :: r => (Str.of_nat i, x) :: index_props (S i) r
  end.

Fixpoint char_props (i : nat) (s : string) : list (string * jsval) :=
  match s with
  | EmptyString => []
  | String c r => (Str.of_nat i, JStr (String c "")) :: char_props (S i) r
  end.

(** The own enumerable properties that an object spread or rest pattern
    copies from [v]: those of an object, the indexed elements of an array,
    the characters of a string (one per byte here, exact for ASCII), none of
    a number or boolean.  Destructuring [null] or [undefined] throws. *)
Definition own_props (v : jsval) : result (list (string * jsval)) :=
  match v with
  | JUndef | JNull => Throw TypeError
  | JObj props => Ok props
  | JArr items => Ok (index_props 0 items)
  | JStr s => Ok (char_props 0 s)
  | JBool _ | JNum _ => Ok []
  end.

(** [const { k: _, ...rest } = v] *)
Definition rest_without (k : string) (v : jsval) : result jsval :=
  match own_props v with
  | Throw e => Throw e
  | Ok props => Ok (JObj (remove_prop k props))
  end.

End Js.

(* ===================================================================== *)
(** * Built-ins of the runtime *)
(* ===================================================================== *)

(** Functions of ECMAScript and Node.js that the repository calls and does not
    define. *)
Class JsRuntime : Type := {
  (** [Number::toString(x)], which is what [JSON.stringify(x)] prints for a
      finite [x] and what a template literal prints for any number *)
  Number_toString : float -> string;
  (** [x.toFixed(2)] *)
  Number_toFixed2 : float -> string;
  (** [s.normalize("NFC")] *)
  String_normalize_NFC : string -> string;
  (** [a.localeCompare(b)]: negative, zero or positive *)
  String_localeCompare : string -> string -> Z;
  (** [JSON.parse(text)]; [None] when it throws a SyntaxError *)
  JSON_parse : string -> option jsval;
  (** [JSON.stringify(value)] of a value built from parsed values *)
  JSON_stringify : jsval -> string;
  (** ToString of an object or array, as a template literal applies it *)
  Object_toString : jsval -> result string;
  (** [a >= b] when [a] is not a string and [b] is a string *)
  Abstract_ge_string : jsval -> string -> bool;
  (** [Buffer.from(s, "utf8").toString("base64url")] and
      [Buffer.from(s, "base64url").toString("utf8")] *)
  base64url_encode : string -> string;
  base64url_decode : string -> string;
  (** zod: [schema.safeParse(v).error.issues[0]?.message ?? "unknown"] for a
      value that [protocolEventSchema] rejects *)
  Zod_issue_message : jsval -> string;
}.

(** The clock of one run: [nowIso_at n] is what the call of [nowIso()] returns
    that follows [n] earlier calls, [elapsed_at k] is the difference of the two
    readings of [performance.now()] around the check of index [k], and
    [duration] the one around all checks. *)
Class Clock : Type := {
  nowIso_at : nat -> string;
  elapsed_at : nat -> float;
  duration : float;
}.

(** [node:crypto]. *)
Class CryptoLib : Type := {
  (** [createHash("sha256").update(bytes).digest("hex")] *)
  sha256Hex : string -> string;
  (** [sign(null, bytes, createPrivateKey(pem)).toString("base64")] *)
  ed25519_sign : string -> string -> result string;
  (** [verify(null, bytes, createPublicKey(pem), Buffer.from(sig, "base64"))];
      [createPublicKey] throws on a malformed key and [Buffer.from] on a
      value that is no string *)
  ed25519_verify : string -> string -> jsval -> result bool;
}.

(* ===================================================================== *)
(** * packages/crypto/src/canonicalize.ts *)
(* ===================================================================== *)

Module Canon.
Section WithRuntime.
Context {RT : JsRuntime}.

(** [JSON.stringify(s)] of a string: the quotation mark and the reverse
    solidus are escaped, the control characters below U+0020 are written as
    [\b \t \n \f \r] or [\u00xx], every other byte is copied. *)
Definition quote_char (c : ascii) : string :=
  let n := Str.code c in
  if n =? 34 then String (ascii_of_nat 92) (String (ascii_of_nat 34) "")
  else if n =? 92 then "\\"
  else if n =? 8 then "\b"
  else if n =? 9 then "\t"
  else if n =? 10 then "\n"
  else if n =? 12 then "\f"
  else if n =? 13 then "\r"
  else if n <? 32 then
    "\u00" +:+ String (Str.hex_digit (n / 16)) (String (Str.hex_digit (n mod 16)) "")
  else String c "".

Fixpoint quote_body (s : string) : string :=
  match s with
  | EmptyString => ""
  | String c r => quote_char c +:+ quote_body r
  end.

Definition QuoteJSONString (s : string) : string :=
  String (ascii_of_nat 34) (quote_body s) +:+ String (ascii_of_nat 34) "".

Definition is_neg_zero (n : float) : bool :=
  PrimFloat.is_zero n && PrimFloat.get_sign n.

Definition canonicalNumber (value : float) : result string :=
  if negb (PrimFloat.is_finite value) then
    Throw (JsError "Non-finite numbers are not valid in canonical JSON")
  else if is_neg_zero value then Ok "0"
  else Ok (Number_toString value).

Definition canonicalString (value : string) : string :=
  QuoteJSONString (String_normalize_NFC value).

(** [entries.sort(([left], [right]) => left.localeCompare(right))].
    [Array.prototype.sort] is stable; for a comparator that is a total
    preorder every stable sort returns the list computed here. *)
Fixpoint insert_entry {V} (e : string * V) (sorted : list (string * V))
  : list (string * V) :=
  match sorted with
  | [] => [e]
  | e' :: rest =>
      if (String_localeCompare (fst e) (fst e') <=? 0)%Z then e :: e' :: rest
      else e' :: insert_entry e rest
  end.

Definition sort_entries {V} (entries : list (string * V)) : list (string * V) :=
  List.fold_right insert_entry [] entries.

Definition render_entry (e : string * result string) : result string :=
  match snd e with
  | Throw err => Throw err
  | Ok text => Ok (canonicalString (fst e) +:+ ":" +:+ text)
  end.

(** [canonicalize], with [canonicalArray] and [canonicalObject] inlined as
    the nested recursions.  In [canonicalObject] the entries whose value is
    [undefined] are dropped, the others are sorted by key, and only then are
    the values rendered, left to right: the first exception in the sorted
    order propagates. *)
Fixpoint canonicalize (value : jsval) : result string :=
  match value with
  | JNull => Ok "null"
  | JBool b => Ok (if b then "true" else "false")
  | JNum n => canonicalNumber n
  | JStr s => Ok (canonicalString s)
  | JArr items =>
      let fix each (l : list jsval) : result (list string) :=
        match l with
        | [] => Ok []
        | x :: r =>
            match canonicalize x with
            | Throw e => Throw e
            | Ok y => match each r with Throw e => Throw e | Ok ys => Ok (y :: ys) end
            end
        end in
      match each items with
      | Throw e => Throw e
      | Ok parts => Ok ("[" +:+ Str.join "," parts +:+ "]")
      end
  | JObj props =>
      let fix defined (l : list (string * jsval)) : list (string * result string) :=
        match l with
        | [] => []
        | (k, v) :: r =>
            match v with
            | JUndef => defined r
            | _ => (k, canonicalize v) :: defined r
            end
        end in
      match sequenceM (List.map render_entry (sort_entries (defined props))) with
      | Throw e => Throw e
      | Ok parts => Ok ("{" +:+ Str.join "," parts +:+ "}")
      end
  | JUndef => Throw (JsError "Unsupported value type for canonicalization: undefined")
  end.

(** The entries of an object that [canonicalObject] keeps. *)
Definition defined_entries (props : list (string * jsval)) : list (string * jsval) :=
  List.filter (fun p => negb (Js.is_undefined (snd p))) props.

Definition canonicalObject (props : list (string * jsval)) : result string :=
  canonicalize (JObj props).

(** [canonicalizeToBytes]: the UTF-8 bytes of the canonical text. *)
Definition canonicalizeToBytes (value : jsval) : result string :=
  canonicalize value.

End WithRuntime.
End Canon.

(* ===================================================================== *)
(** * packages/contracts: constants, enumerations and zod schemas *)
(* ===================================================================== *)

Module Contracts.

Definition SCHEMA_VERSION : string := "1.0.0".
Definition GENESIS_PREV_HASH : string := Str.replicate 64 (ascii_of_nat 48).
Definition HASH_ALGORITHM : string := "sha256".
Definition SIGNATURE_ALGORITHM : string := "ed25519".

(** ** Regular expressions *)

Definition in_range (lo hi : nat) (c : ascii) : bool :=
  (lo <=? Str.code c) && (Str.code c <=? hi).
Definition is_char (n : nat) (c : ascii) : bool := Str.code c =? n.
Definition digit : ascii -> bool := in_range 48 57.
Definition lower : ascii -> bool := in_range 97 122.

(** A pattern that is a sequence of single-character classes, anchored at
    both ends. *)
Fixpoint match_classes (classes : list (ascii -> bool)) (s : string) : bool :=
  match classes, s with
  | [], EmptyString => true
  | p :: ps, String c r => p c && match_classes ps r
  | _, _ => false
  end.

(** [[0-9A-HJKMNP-TV-Z]] *)
Definition ulid_char (c : ascii) : bool :=
  digit c || in_range 65 72 c || is_char 74 c || is_char 75 c || is_char 77 c
  || is_char 78 c || in_range 80 84 c || in_range 86 90 c.

(** [/^[0-9A-HJKMNP-TV-Z]{26}$/] *)
Definition ULID_REGEX (s : string) : bool :=
  match_classes (List.repeat ulid_char 26) s.

(** [/^[a-f0-9]{64}$/] *)
Definition HEX_64_REGEX (s : string) : bool :=
  match_classes (List.repeat (fun c => in_range 97 102 c || digit c) 64) s.

(** [/^\d{4}-\d{2}-\d{2}T\d{2}:\d{2}:\d{2}\.\d{3}Z$/] *)
Definition ISO_UTC_MS_REGEX (s : string) : bool :=
  match_classes
    [digit; digit; digit; digit; is_char 45; digit; digit; is_char 45; digit; digit;
     is_char 84; digit; digit; is_char 58; digit; digit; is_char 58; digit; digit;
     is_char 46; digit; digit; digit; is_char 90] s.

(** [/^[a-z0-9._-]+$/] *)
Definition IDENT_REGEX (s : string) : bool :=
  negb (String.eqb s "")
  && Str.forallb (fun c => lower c || digit c || is_char 46 c || is_char 95 c
                           || is_char 45 c) s.

(** [/^claim_[0-9A-HJKMNP-TV-Z]{26}$/] *)
Definition CLAIM_REGEX (s : string) : bool :=
  String.eqb (Str.take 6 s) "claim_" && ULID_REGEX (Str.drop 6 s).

(** ** Enumerations *)

Definition roles : list string := ["planner"; "executor"; "critic"; "auditor"].

Definition eventTypes : list string :=
  ["session_initialized"; "proposal_created"; "proposal_reviewed";
   "tool_intent_signed"; "tool_execution_started"; "tool_execution_completed";
   "tool_execution_failed"; "artifact_recorded"; "claim_issued";
   "claim_challenged"; "final_statement_signed"; "verification_run_started";
   "verification_run_completed"].

Definition requiredSignedEventTypes : list string :=
  ["proposal_created"; "tool_intent_signed"; "claim_issued"; "claim_challenged";
   "final_statement_signed"; "verification_run_completed"].

Definition policyProfiles : list string := ["strict"; "default"; "lenient"].

Definition mem (s : string) (l : list string) : bool :=
  List.existsb (String.eqb s) l.

(** [set.has(v)] for a [Set] of strings and an arbitrary value. *)
Definition has (l : list string) (v : jsval) : bool :=
  match v with JStr s => mem s l | _ => false end.

Definition rolePolicy (role : string) : option (list string) :=
  if String.eqb role "planner" then
    Some ["session_initialized"; "proposal_created"]
  else if String.eqb role "executor" then
    Some ["tool_intent_signed"; "tool_execution_started"; "tool_execution_completed";
          "tool_execution_failed"; "artifact_recorded"; "claim_issued";
          "final_statement_signed"]
  else if String.eqb role "critic" then
    Some ["proposal_reviewed"; "claim_challenged"]
  else if String.eqb role "auditor" then
    Some ["verification_run_started"; "verification_run_completed"]
  else None.

(** The property names that every object literal inherits from
    [Object.prototype]: [rolePolicy[name]] is then a function or an object
    that has no [has] method. *)
Definition Object_prototype_names : list string :=
  ["constructor"; "__defineGetter__"; "__defineSetter__"; "hasOwnProperty";
   "__lookupGetter__"; "__lookupSetter__"; "isPrototypeOf";
   "propertyIsEnumerable"; "toString"; "valueOf"; "__proto__"; "toLocaleString"].

Inductive FailureCode : Type :=
| SIG_INVALID | SIG_MISSING | CHAIN_BREAK | HASH_MISMATCH | ARTIFACT_MISSING
| ARTIFACT_HASH_MISMATCH | CLAIM_UNPROVEN | ROLE_POLICY_VIOLATION | SCHEMA_INVALID.

Inductive Severity : Type := critical | high | medium | low.

Inductive CheckId : Type :=
| CHK_SCHEMA_CONFORMANCE | CHK_EVENT_HASH_INTEGRITY | CHK_CHAIN_CONTINUITY
| CHK_SIGNATURE_VALIDITY | CHK_KEY_STATUS | CHK_ARTIFACT_EXISTENCE
| CHK_ARTIFACT_HASH_MATCH | CHK_CLAIM_EVIDENCE_SUFFICIENCY
| CHK_ROLE_POLICY_CONFORMANCE | CHK_FINALIZATION_INTEGRITY.

Definition checkCatalog : list CheckId :=
  [CHK_SCHEMA_CONFORMANCE; CHK_EVENT_HASH_INTEGRITY; CHK_CHAIN_CONTINUITY;
   CHK_SIGNATURE_VALIDITY; CHK_KEY_STATUS; CHK_ARTIFACT_EXISTENCE;
   CHK_ARTIFACT_HASH_MATCH; CHK_CLAIM_EVIDENCE_SUFFICIENCY;
   CHK_ROLE_POLICY_CONFORMANCE; CHK_FINALIZATION_INTEGRITY].

#[global] Instance FailureCode_eq_dec : EqDecision FailureCode.
Proof. solve_decision. Defined.
#[global] Instance Severity_eq_dec : EqDecision Severity.
Proof. solve_decision. Defined.
#[global] Instance CheckId_eq_dec : EqDecision CheckId.
Proof. solve_decision. Defined.

Inductive PolicyProfile : Type := profile_strict | profile_default | profile_lenient.
#[global] Instance PolicyProfile_eq_dec : EqDecision PolicyProfile.
Proof. solve_decision. Defined.

(** [policyProfileSchema.parse] *)
Definition policyProfileSchema_parse (s : string) : result PolicyProfile :=
  if String.eqb s "strict" then Ok profile_strict
  else if String.eqb s "default" then Ok profile_default
  else if String.eqb s "lenient" then Ok profile_lenient
  else Throw ZodError.

Definition policyProfile_name (p : PolicyProfile) : string :=
  match p with
  | profile_strict => "strict"
  | profile_default => "default"
  | profile_lenient => "lenient"
  end.

(** ** zod schemas over parsed values

    Each function is the success of [schema.safeParse(v)].  [z.object] accepts
    an object that is neither [null] nor an array and, with [passthrough],
    ignores unknown keys; a key whose schema is [optional] or [unknown] may be
    missing. *)

Definition z_string (p : string -> bool) (v : jsval) : bool :=
  match v with JStr s => p s | _ => false end.

Definition min1 (s : string) : bool := negb (String.eqb s "").

Definition z_optional (p : jsval -> bool) (v : jsval) : bool :=
  match v with JUndef => true | _ => p v end.

Definition z_array (p : jsval -> bool) (v : jsval) : bool :=
  match v with JArr items => List.forallb p items | _ => false end.

(** [Number.isInteger]: a finite number with no fractional part.  Below 2^52
    adding and subtracting 2^52 rounds to the nearest integer; from 2^52 on
    every finite double is an integer. *)
Definition two52 : float := 4503599627370496%float.
Definition Number_isInteger (n : float) : bool :=
  PrimFloat.is_finite n
  && (PrimFloat.leb two52 (PrimFloat.abs n)
      || PrimFloat.eqb (PrimFloat.sub (PrimFloat.add (PrimFloat.abs n) two52) two52)
                       (PrimFloat.abs n)).

(** [z.number().int().nonnegative()] *)
Definition z_nonneg_int (v : jsval) : bool :=
  match v with
  | JNum n => Number_isInteger n && PrimFloat.leb 0%float n
  | _ => false
  end.

(** [z.number().nonnegative()]; [z.number()] rejects NaN. *)
Definition z_nonneg_number (n : float) : bool := PrimFloat.leb 0%float n.

Definition field (v : jsval) (k : string) : jsval := Js.getp_opt v k.

Definition is_object (v : jsval) : bool :=
  match v with JObj _ => true | _ => false end.

Definition actorSchema (v : jsval) : bool :=
  is_object v
  && z_string IDENT_REGEX (field v "agent_id")
  && z_string (fun s => mem s roles) (field v "role")
  && z_string IDENT_REGEX (field v "key_id").

Definition signatureSchema (v : jsval) : bool :=
  is_object v
  && z_string (String.eqb SIGNATURE_ALGORITHM) (field v "algorithm")
  && z_string min1 (field v "signature_b64")
  && z_string HEX_64_REGEX (field v "signed_bytes_hash").

Definition redactionStatuses : list string :=
  ["none"; "redacted"; "redacted-with-pointer"].

Definition artifactDescriptorSchema (v : jsval) : bool :=
  is_object v
  && z_string HEX_64_REGEX (field v "artifact_hash")
  && z_string (String.eqb HASH_ALGORITHM) (field v "hash_algorithm")
  && z_string min1 (field v "media_type")
  && z_string min1 (field v "encoding")
  && z_nonneg_int (field v "byte_size")
  && z_string ISO_UTC_MS_REGEX (field v "created_at")
  && z_string ULID_REGEX (field v "producer_event_id")
  && z_string min1 (field v "storage_uri")
  && z_string (fun s => mem s redactionStatuses) (field v "redaction_status")
  && z_optional (z_string ULID_REGEX) (field v "trace_id")
  && z_optional (z_string ISO_UTC_MS_REGEX) (field v "integrity_verified_at").

Definition eventTypeSchema (v : jsval) : bool :=
  z_string (fun s => mem s eventTypes) v.

Definition protocolEventSchema (v : jsval) : bool :=
  is_object v
  && z_string min1 (field v "schema_version")
  && z_string ULID_REGEX (field v "trace_id")
  && z_string ULID_REGEX (field v "event_id")
  && eventTypeSchema (field v "event_type")
  && z_string ISO_UTC_MS_REGEX (field v "created_at")
  && actorSchema (field v "actor")
  && z_string HEX_64_REGEX (field v "payload_hash")
  && z_string HEX_64_REGEX (field v "prev_event_hash")
  && z_string HEX_64_REGEX (field v "event_hash")
  && signatureSchema (field v "signature")
  && z_string min1 (field v "payload_type")
  && z_array (z_string CLAIM_REGEX) (field v "claims")
  && z_array artifactDescriptorSchema (field v "artifacts").

End Contracts.

(* ===================================================================== *)
(** * Typed records of packages/contracts *)
(* ===================================================================== *)

Module Types.
Import Contracts.

(** A count or a size as a JavaScript number; exact below 2^53. *)
Definition Number_of_nat (n : nat) : float :=
  PrimFloat.of_uint63 (Uint63.of_Z (Z.of_nat n)).

Record Actor := {
  agent_id : string;
  role : string;
  key_id : string;
}.

Record SignatureEnvelope := {
  algorithm : string;
  signature_b64 : string;
  signed_bytes_hash : string;
}.

Record ArtifactDescriptor := {
  artifact_hash : string;
  hash_algorithm : string;
  media_type : string;
  encoding : string;
  byte_size : nat;
  ad_created_at : string;
  producer_event_id : string;
  storage_uri : string;
  redaction_status : string;
  ad_trace_id : option string;
  integrity_verified_at : option string;
}.

Record ArtifactReference := {
  ref_trace_id : string;
  ref_producer_event_id : string;
  ref_created_at : string;
}.

(** [ArtifactSidecar]: the descriptor and the optional list of references. *)
Record ArtifactSidecar := {
  descriptor : ArtifactDescriptor;
  references : option (list ArtifactReference);
}.

Record ProtocolEvent := {
  schema_version : string;
  trace_id : string;
  event_id : string;
  event_type : string;
  created_at : string;
  actor : Actor;
  payload_hash : string;
  prev_event_hash : string;
  payload_type : string;
  payload : jsval;
  claims : list string;
  artifacts : list ArtifactDescriptor;
  signature : SignatureEnvelope;
  event_hash : string;
}.

Record AgentIdentity := {
  id_agent_id : string;
  display_name : string;
  role_capabilities : list string;
  id_key_id : string;
  public_key : string;
  key_algorithm : string;
  id_status : string;
  id_created_at : string;
  updated_at : string;
  revoked_at : option string;
  revoked_reason : option string;
}.

Record KeyRegistry := {
  reg_schema_version : string;
  generated_at : string;
  identities : list AgentIdentity;
}.

Record TraceSession := {
  ts_schema_version : string;
  ts_trace_id : string;
  task_id : string;
  started_at : string;
  ended_at : option string;
  ts_status : string;
  participants : list Actor;
  head_event_hash : string;
  event_count : nat;
  artifact_count : nat;
  ts_policy_profile : string;
  tool_versions : option (list (string * string));
  config_fingerprint : option string;
}.

Record VerificationFailure := {
  failure_code : FailureCode;
  vf_severity : Severity;
  vf_event_id : option jsval;
  vf_artifact_hash : option jsval;
  vf_message : string;
  suggested_action : string;
  vf_detected_at : string;
  description : string;
  verification_step : CheckId;
  recommended_remediation : string;
}.

Record VerificationWarning := {
  warning_code : string;
  vw_severity : Severity;
  vw_message : string;
  vw_event_id : option jsval;
  vw_detected_at : string;
}.

Inductive CheckStatus : Type := check_pass | check_warning | check_fail.
Inductive VerificationStatus : Type :=
| verdict_pass | verdict_pass_with_warnings | verdict_fail.

#[global] Instance CheckStatus_eq_dec : EqDecision CheckStatus.
Proof. solve_decision. Defined.
#[global] Instance VerificationStatus_eq_dec : EqDecision VerificationStatus.
Proof. solve_decision. Defined.

Record VerificationCheck := {
  check_id : CheckId;
  name : CheckId;
  status : CheckStatus;
  scope : string;
  evidence : list string;
  elapsed_ms : float;
}.

Record Metrics := {
  m_event_count : nat;
  artifact_reference_count : nat;
  verification_duration_ms : float;
}.

Record VerificationReport := {
  vr_schema_version : string;
  report_id : string;
  vr_trace_id : string;
  verified_at : string;
  verification_status : VerificationStatus;
  summary : string;
  checks : list VerificationCheck;
  failures : list VerificationFailure;
  warnings : list VerificationWarning;
  metrics : Metrics;
  policy_profile : PolicyProfile;
}.

(** ** The objects the typed records denote *)

Definition opt_prop (k : string) (o : option string) : list (string * jsval) :=
  match o with Some s => [(k, JStr s)] | None => [] end.

Definition Actor_json (a : Actor) : jsval :=
  JObj [("agent_id", JStr (agent_id a)); ("role", JStr (role a));
        ("key_id", JStr (key_id a))].

Definition SignatureEnvelope_json (s : SignatureEnvelope) : jsval :=
  JObj [("algorithm", JStr (algorithm s)); ("signature_b64", JStr (signature_b64 s));
        ("signed_bytes_hash", JStr (signed_bytes_hash s))].

(** The descriptor literal of [writeArtifact], in its key order. *)
Definition ArtifactDescriptor_json (d : ArtifactDescriptor) : jsval :=
  JObj ([("artifact_hash", JStr (artifact_hash d));
         ("hash_algorithm", JStr (hash_algorithm d));
         ("media_type", JStr (media_type d));
         ("encoding", JStr (encoding d));
         ("byte_size", JNum (Number_of_nat (byte_size d)));
         ("created_at", JStr (ad_created_at d));
         ("producer_event_id", JStr (producer_event_id d));
         ("storage_uri", JStr (storage_uri d));
         ("redaction_status", JStr (redaction_status d))]
        ++ opt_prop "trace_id" (ad_trace_id d)
        ++ opt_prop "integrity_verified_at" (integrity_verified_at d)).

(** The properties of the [unsigned] literal of [buildSignedEvent], in its
    key order. *)
Definition unsigned_props (e : ProtocolEvent) : list (string * jsval) :=
  [("schema_version", JStr (schema_version e));
   ("trace_id", JStr (trace_id e));
   ("event_id", JStr (event_id e));
   ("event_type", JStr (event_type e));
   ("created_at", JStr (created_at e));
   ("actor", Actor_json (actor e));
   ("payload_hash", JStr (payload_hash e));
   ("prev_event_hash", JStr (prev_event_hash e));
   ("payload_type", JStr (payload_type e));
   ("payload", payload e);
   ("claims", JArr (List.map JStr (claims e)));
   ("artifacts", JArr (List.map ArtifactDescriptor_json (artifacts e)))].

(** [{ ...unsigned, signature }] *)
Definition withSignature_json (e : ProtocolEvent) : jsval :=
  JObj (unsigned_props e ++ [("signature", SignatureEnvelope_json (signature e))]).

(** [{ ...withSignature, event_hash }]: the event object. *)
Definition ProtocolEvent_json (e : ProtocolEvent) : jsval :=
  JObj (unsigned_props e
        ++ [("signature", SignatureEnvelope_json (signature e));
            ("event_hash", JStr (event_hash e))]).

End Types.

(* ===================================================================== *)
(** * The files under COC_HOME *)
(* ===================================================================== *)

Module Files.
Import Types.

(** The directory [traces/<trace_id>/]. *)
Record TraceDir := {
  meta : option TraceSession;              (* trace.meta.json *)
  events_jsonl : option string;            (* events.jsonl, its bytes *)
  append_lock : bool;                      (* .append.lock exists *)
  reports_json : gmap string VerificationReport;   (* reports/<id>.json *)
  reports_txt : gmap string string;                (* reports/<id>.txt *)
  latest : option VerificationReport;      (* verification.latest.json *)
}.

(** The files under one COC_HOME.  Trace directories are keyed by trace id
    and artifact files by hash: [traceDirectory] and [shardPath] map
    different names without a path separator to different paths.  The
    metadata, registry, sidecar and report files hold the typed value that
    [JSON.parse] returns on their text. *)
Record World := {
  registry : option KeyRegistry;           (* keys/registry.json *)
  key_files : gmap string string;          (* keys/<name>.pem *)
  blobs : gmap string string;              (* <hash>.blob *)
  sidecars : gmap string ArtifactSidecar;  (* <hash>.meta.json *)
  traces : gmap string TraceDir;
}.

Definition empty_dir : TraceDir :=
  {| meta := None; events_jsonl := None; append_lock := false;
     reports_json := ∅; reports_txt := ∅; latest := None |}.

Definition empty_world : World :=
  {| registry := None; key_files := ∅; blobs := ∅; sidecars := ∅; traces := ∅ |}.

Definition dir_of (w : World) (traceId : string) : TraceDir :=
  match traces w !! traceId with Some d => d | None => empty_dir end.

Definition set_dir (w : World) (traceId : string) (d : TraceDir) : World :=
  {| registry := registry w; key_files := key_files w; blobs := blobs w;
     sidecars := sidecars w; traces := <[traceId := d]> (traces w) |}.

Definition set_registry (w : World) (r : option KeyRegistry) : World :=
  {| registry := r; key_files := key_files w; blobs := blobs w;
     sidecars := sidecars w; traces := traces w |}.

Definition set_meta (d : TraceDir) (m : option TraceSession) : TraceDir :=
  {| meta := m; events_jsonl := events_jsonl d; append_lock := append_lock d;
     reports_json := reports_json d; reports_txt := reports_txt d;
     latest := latest d |}.

Definition set_events (d : TraceDir) (e : option string) : TraceDir :=
  {| meta := meta d; events_jsonl := e; append_lock := append_lock d;
     reports_json := reports_json d; reports_txt := reports_txt d;
     latest := latest d |}.

Definition set_lock (d : TraceDir) (l : bool) : TraceDir :=
  {| meta := meta d; events_jsonl := events_jsonl d; append_lock := l;
     reports_json := reports_json d; reports_txt := reports_txt d;
     latest := latest d |}.

End Files.

(* ===================================================================== *)
(** * packages/crypto: hashing, the key registry, signing *)
(* ===================================================================== *)

Module Crypto.
Section WithRuntime.
Context {RT : JsRuntime} {CL : CryptoLib}.
Import Types Files.

(** ** hash.ts *)

Definition hashCanonical (value : jsval) : result string :=
  bytes ← Canon.canonicalizeToBytes value; Ok (sha256Hex bytes).

(** ** keys.ts *)

(** [loadRegistry]: a missing registry file is created with an empty list of
    identities; [now] is the value of [nowIso()] in that case. *)
Definition loadRegistry (w : World) (now : string) : KeyRegistry * World :=
  match registry w with
  | None =>
      let seed := {| reg_schema_version := Contracts.SCHEMA_VERSION;
                     generated_at := now; identities := [] |} in
      (seed, set_registry w (Some seed))
  | Some r => (r, w)
  end.

Definition saveRegistry (w : World) (r : KeyRegistry) : World :=
  set_registry w (Some r).

Definition listIdentities (w : World) (now : string) : list AgentIdentity * World :=
  let '(r, w') := loadRegistry w now in (identities r, w').

Definition resolveIdentityByKeyId (w : World) (now : string) (keyId : jsval)
  : option AgentIdentity * World :=
  let '(r, w') := loadRegistry w now in
  (List.find (fun entry => Js.strict_eq (JStr (id_key_id entry)) keyId)
             (identities r), w').

Definition resolvePublicKeyByKeyId (w : World) (now : string) (keyId : jsval)
  : option string * World :=
  let '(found, w') := resolveIdentityByKeyId w now keyId in
  (public_key <$> found, w').

(** ** signing.ts *)

Definition signedFields : list string :=
  ["schema_version"; "trace_id"; "event_id"; "event_type"; "created_at"; "actor";
   "payload_hash"; "payload_type"; "claims"; "artifacts"; "prev_event_hash"].

Definition extractSignedPayload (event : jsval) : result jsval :=
  props ← mapM (fun field => v ← Js.getp event field; Ok (field, v)) signedFields;
  Ok (JObj props).

Definition canonicalSignedBytes (event : jsval) : result string :=
  signed ← extractSignedPayload event; Canon.canonicalizeToBytes signed.

Definition computeEventHash (event : jsval) : result string :=
  eventWithoutHash ← Js.rest_without "event_hash" event;
  bytes ← Canon.canonicalizeToBytes eventWithoutHash;
  Ok (sha256Hex bytes).

Definition signBytes (privateKeyPem : string) (bytes : string)
  : result SignatureEnvelope :=
  sig ← ed25519_sign privateKeyPem bytes;
  Ok {| algorithm := Contracts.SIGNATURE_ALGORITHM;
        signature_b64 := sig;
        signed_bytes_hash := sha256Hex bytes |}.

Definition verifyBytes (publicKeyPem : string) (bytes : string)
    (signatureEnvelope : jsval) : result bool :=
  alg ← Js.getp signatureEnvelope "algorithm";
  if negb (Js.strict_eq alg (JStr Contracts.SIGNATURE_ALGORITHM)) then Ok false
  else
    h ← Js.getp signatureEnvelope "signed_bytes_hash";
    if negb (Js.strict_eq h (JStr (sha256Hex bytes))) then Ok false
    else
      sig ← Js.getp signatureEnvelope "signature_b64";
      ed25519_verify publicKeyPem bytes sig.

End WithRuntime.
End Crypto.

(* ===================================================================== *)
(** * packages/protocol/src/event-factory.ts *)
(* ===================================================================== *)

Module EventFactory.
Section WithRuntime.
Context {RT : JsRuntime} {CL : CryptoLib}.
Import Types.

Record BuildEventInput := {
  in_trace_id : string;
  in_event_type : string;
  in_actor : Actor;
  in_payload_type : string;
  in_payload : jsval;
  in_claims : option (list string);
  in_artifacts : option (list ArtifactDescriptor);
  in_prev_event_hash : string;
  private_key_pem : string;
  in_created_at : option string;
  in_event_id : option string;
}.

(** [buildSignedEvent]; [freshId] and [now] are the values that
    [newEventId()] and [nowIso()] return when the input gives none. *)
Definition buildSignedEvent (input : BuildEventInput) (freshId now : string)
  : result ProtocolEvent :=
  let eventId := default freshId (in_event_id input) in
  let createdAt := default now (in_created_at input) in
  let claims := default [] (in_claims input) in
  let artifacts := default [] (in_artifacts input) in
  payloadHash ← Crypto.hashCanonical (in_payload input);
  let unsigned (sig : SignatureEnvelope) (h : string) : ProtocolEvent :=
    {| schema_version := Contracts.SCHEMA_VERSION;
       trace_id := in_trace_id input;
       event_id := eventId;
       event_type := in_event_type input;
       created_at := createdAt;
       actor := in_actor input;
       payload_hash := payloadHash;
       prev_event_hash := in_prev_event_hash input;
       payload_type := in_payload_type input;
       payload := in_payload input;
       claims := claims;
       artifacts := artifacts;
       signature := sig;
       event_hash := h |} in
  let blank := {| algorithm := ""; signature_b64 := ""; signed_bytes_hash := "" |} in
  signedBytes ← Crypto.canonicalSignedBytes (JObj (unsigned_props (unsigned blank "")));
  signature ← Crypto.signBytes (private_key_pem input) signedBytes;
  eventHash ← Crypto.computeEventHash (withSignature_json (unsigned signature ""));
  Ok (unsigned signature eventHash).

End WithRuntime.
End EventFactory.

(* ===================================================================== *)
(** * packages/store/src/trace-store.ts *)
(* ===================================================================== *)

Module TraceStore.
Import Types Files.

Record InitializeTraceInput := {
  in_task_id : string;
  in_participants : list Actor;
  in_policy_profile : string;
  in_trace_id : option string;
  in_config_fingerprint : option string;
  in_tool_versions : option (list (string * string));
}.

(** [createTrace]; [freshId] and [now] are the values of [newTraceId()] and
    [nowIso()].  The directory is created when missing, the metadata file is
    overwritten, and an existing events file is kept. *)
Definition createTrace (w : World) (input : InitializeTraceInput)
    (freshId now : string) : TraceSession * World :=
  let traceId := default freshId (in_trace_id input) in
  let d := dir_of w traceId in
  let session :=
    {| ts_schema_version := Contracts.SCHEMA_VERSION;
       ts_trace_id := traceId;
       task_id := in_task_id input;
       started_at := now;
       ended_at := None;
       ts_status := "running";
       participants := in_participants input;
       head_event_hash := Contracts.GENESIS_PREV_HASH;
       event_count := 0;
       artifact_count := 0;
       ts_policy_profile := in_policy_profile input;
       tool_versions := in_tool_versions input;
       config_fingerprint := in_config_fingerprint input |} in
  let d1 := set_meta d (Some session) in
  let d2 := match events_jsonl d1 with
            | None => set_events d1 (Some "")
            | Some _ => d1
            end in
  (session, set_dir w traceId d2).

Definition loadTrace (w : World) (traceId : string) : result TraceSession :=
  match meta (dir_of w traceId) with
  | None => Throw (JsError ("Trace not found: " +:+ traceId))
  | Some session => Ok session
  end.

(** [saveTrace] writes the metadata file of the directory that the session
    names; [writeFileSync] fails when that directory does not exist. *)
Definition saveTrace (w : World) (trace : TraceSession) : result unit * World :=
  match traces w !! ts_trace_id trace with
  | None => (Throw NodeError, w)
  | Some d => (Ok tt, set_dir w (ts_trace_id trace) (set_meta d (Some trace)))
  end.

Definition with_status (t : TraceSession) (status : string) (endedAt : string)
  : TraceSession :=
  {| ts_schema_version := ts_schema_version t; ts_trace_id := ts_trace_id t;
     task_id := task_id t; started_at := started_at t; ended_at := Some endedAt;
     ts_status := status; participants := participants t;
     head_event_hash := head_event_hash t; event_count := event_count t;
     artifact_count := artifact_count t; ts_policy_profile := ts_policy_profile t;
     tool_versions := tool_versions t; config_fingerprint := config_fingerprint t |}.

Definition updateTraceStatus (w : World) (traceId status endedAt : string)
  : result TraceSession * World :=
  match loadTrace w traceId with
  | Throw e => (Throw e, w)
  | Ok trace =>
      let trace' := with_status trace status endedAt in
      match saveTrace w trace' with
      | (Throw e, w') => (Throw e, w')
      | (Ok _, w') => (Ok trace', w')
      end
  end.

End TraceStore.

(* ===================================================================== *)
(** * packages/store/src/ledger.ts *)
(* ===================================================================== *)

Module Ledger.
Section WithRuntime.
Context {RT : JsRuntime}.
Import Types Files.

(** [withTraceLock].  The lock file is created with the flag "wx": without
    the trace directory [openSync] fails; when the file exists the loop polls
    until five seconds have passed and then gives up, which in a sequential
    run, where nobody removes the file, is what always happens.  The lock is
    removed when the operation returns or throws. *)
Definition withTraceLock {T} (w : World) (traceId : string)
    (operation : World -> result T * World) : result T * World :=
  match traces w !! traceId with
  | None => (Throw NodeError, w)
  | Some d =>
      if append_lock d then
        (Throw (JsError ("Timed out acquiring trace lock for " +:+ traceId)), w)
      else
        let '(r, w') := operation (set_dir w traceId (set_lock d true)) in
        (r, match traces w' !! traceId with
            | Some d' => if append_lock d' then set_dir w' traceId (set_lock d' false)
                         else w'
            | None => w'
            end)
  end.

(** The loop of [readEvents] over the lines: the events parsed so far, the
    bytes counted as valid, and whether a malformed line stopped the loop. *)
Fixpoint scan (lines : list string) (parsed : list jsval) (validByteLength : nat)
  : list jsval * nat * bool :=
  match lines with
  | [] => (parsed, validByteLength, false)
  | line :: rest =>
      if Str.blank line then
        scan rest parsed (validByteLength + (String.length line + 1))
      else
        match JSON_parse line with
        | Some event =>
            scan rest (parsed ++ [event]) (validByteLength + (String.length line + 1))
        | None => (parsed, validByteLength, true)
        end
  end.

Definition readEvents (w : World) (traceId : string) (recoverMalformedTail : bool)
  : list jsval * World :=
  let d := dir_of w traceId in
  match events_jsonl d with
  | None => ([], w)
  | Some raw =>
      if Str.blank raw then ([], w)
      else
        let '(parsed, validByteLength, malformedFound) :=
          scan (Str.split Str.lf raw) [] 0 in
        if malformedFound && recoverMalformedTail then
          (parsed,
           set_dir w traceId
             (set_events d (Some (Str.truncate (Nat.max 0 (validByteLength - 1)) raw))))
        else (parsed, w)
  end.

(** [events.some((existing) => existing.event_id === eventId)] over parsed
    lines: reading the property of a [null] line throws. *)
Fixpoint hasDuplicateEventId (events : list jsval) (eventId : string) : result bool :=
  match events with
  | [] => Ok false
  | existing :: rest =>
      match Js.getp existing "event_id" with
      | Throw e => Throw e
      | Ok v => if Js.strict_eq v (JStr eventId) then Ok true
                else hasDuplicateEventId rest eventId
      end
  end.

Definition appended (session : TraceSession) (event : ProtocolEvent) : TraceSession :=
  {| ts_schema_version := ts_schema_version session;
     ts_trace_id := ts_trace_id session;
     task_id := task_id session; started_at := started_at session;
     ended_at := ended_at session; ts_status := ts_status session;
     participants := participants session;
     head_event_hash := event_hash event;
     event_count := event_count session + 1;
     artifact_count := artifact_count session + List.length (artifacts event);
     ts_policy_profile := ts_policy_profile session;
     tool_versions := tool_versions session;
     config_fingerprint := config_fingerprint session |}.

(** [appendFileSync(path, text)]: the file is created when missing. *)
Definition appendFile (w : World) (traceId : string) (text : string) : World :=
  let d := dir_of w traceId in
  set_dir w traceId
    (set_events d (Some (default "" (events_jsonl d) +:+ text))).

(** The body that [appendEvent] runs under the lock. *)
Definition appendEvent_locked (traceId : string) (event : ProtocolEvent) (w : World)
  : result ProtocolEvent * World :=
  match TraceStore.loadTrace w traceId with
  | Throw e => (Throw e, w)
  | Ok session =>
      if negb (String.eqb (trace_id event) traceId) then
        (Throw (JsError ("Trace mismatch. expected=" +:+ traceId +:+ " actual="
                         +:+ trace_id event)), w)
      else if negb (String.eqb (prev_event_hash event) (head_event_hash session)) then
        (Throw (JsError ("Chain head mismatch for " +:+ traceId
                         +:+ ". expected prev_event_hash=" +:+ head_event_hash session)), w)
      else
        let '(events, w1) := readEvents w traceId true in
        match hasDuplicateEventId events (event_id event) with
        | Throw e => (Throw e, w1)
        | Ok true =>
            (Throw (JsError ("Duplicate event_id in trace: " +:+ event_id event)), w1)
        | Ok false =>
            let line := JSON_stringify (ProtocolEvent_json event)
                        +:+ String Str.lf "" in
            let w2 := appendFile w1 traceId line in
            match TraceStore.saveTrace w2 (appended session event) with
            | (Throw e, w3) => (Throw e, w3)
            | (Ok _, w3) => (Ok event, w3)
            end
        end
  end.

Definition appendEvent (w : World) (traceId : string) (event : ProtocolEvent)
  : result ProtocolEvent * World :=
  withTraceLock w traceId (appendEvent_locked traceId event).

End WithRuntime.
End Ledger.

(* ===================================================================== *)
(** * ArtifactStore (packages/reporting/src/index.ts, second part) *)
(* ===================================================================== *)

Module ArtifactStore.
Section WithRuntime.
Context {CL : CryptoLib}.
Import Types Files.

Record WriteArtifactInput := {
  in_trace_id : string;
  in_producer_event_id : string;
  bytes : string;
  in_media_type : string;
  in_encoding : string;
  in_redaction_status : option string;
}.

(** [relative(cocHome, blobPath)] with forward slashes. *)
Definition storageUri (hash : string) : string :=
  "artifacts/sha256/" +:+ Str.slice 0 2 hash +:+ "/" +:+ Str.slice 2 4 hash
  +:+ "/" +:+ hash +:+ ".blob".

(** [shardPath(hash)] succeeds on a string only: [hash.slice] is missing on
    a number, boolean or object and [join] refuses the slice of an array. *)
Definition shardKey (hash : jsval) : result string :=
  match hash with JStr s => Ok s | _ => Throw TypeError end.

Definition linked (input : WriteArtifactInput) (entry : ArtifactReference) : bool :=
  String.eqb (ref_trace_id entry) (in_trace_id input)
  && String.eqb (ref_producer_event_id entry) (in_producer_event_id input).

Definition set_blob (w : World) (hash : string) (content : string) : World :=
  {| registry := registry w; key_files := key_files w;
     blobs := <[hash := content]> (blobs w);
     sidecars := sidecars w; traces := traces w |}.

Definition set_sidecar (w : World) (hash : string) (s : ArtifactSidecar) : World :=
  {| registry := registry w; key_files := key_files w; blobs := blobs w;
     sidecars := <[hash := s]> (sidecars w); traces := traces w |}.

(** [writeArtifact]; [now] is the value of [nowIso()]. *)
Definition writeArtifact (w : World) (input : WriteArtifactInput) (now : string)
  : ArtifactDescriptor * World :=
  let artifactHash := sha256Hex (bytes input) in
  let w1 := match blobs w !! artifactHash with
            | None => set_blob w artifactHash (bytes input)
            | Some _ => w
            end in
  let descriptor :=
    {| artifact_hash := artifactHash;
       hash_algorithm := Contracts.HASH_ALGORITHM;
       media_type := in_media_type input;
       encoding := in_encoding input;
       byte_size := String.length (bytes input);
       ad_created_at := now;
       producer_event_id := in_producer_event_id input;
       storage_uri := storageUri artifactHash;
       redaction_status := default "none" (in_redaction_status input);
       ad_trace_id := Some (in_trace_id input);
       integrity_verified_at := Some now |} in
  let reference :=
    {| ref_trace_id := in_trace_id input;
       ref_producer_event_id := in_producer_event_id input;
       ref_created_at := now |} in
  match sidecars w1 !! artifactHash with
  | None =>
      (descriptor,
       set_sidecar w1 artifactHash
         {| Types.descriptor := descriptor; references := Some [reference] |})
  | Some current =>
      let references := default [] (references current) in
      let alreadyLinked := List.existsb (linked input) references in
      let w2 :=
        if alreadyLinked then w1
        else set_sidecar w1 artifactHash
               {| Types.descriptor := Types.descriptor current;
                  references := Some (references ++ [reference]) |} in
      ({| artifact_hash := artifactHash;
          hash_algorithm := Contracts.HASH_ALGORITHM;
          media_type := media_type (Types.descriptor current);
          encoding := encoding (Types.descriptor current);
          byte_size := byte_size (Types.descriptor current);
          ad_created_at := ad_created_at (Types.descriptor current);
          producer_event_id := in_producer_event_id input;
          storage_uri := storageUri artifactHash;
          redaction_status := default "none" (in_redaction_status input);
          ad_trace_id := Some (in_trace_id input);
          integrity_verified_at := Some now |}, w2)
  end.

Definition readArtifact (w : World) (artifactHash : jsval) : result (option string) :=
  key ← shardKey artifactHash; Ok (blobs w !! key).

Definition readDescriptor (w : World) (artifactHash : jsval)
  : result (option ArtifactDescriptor) :=
  key ← shardKey artifactHash; Ok (Types.descriptor <$> sidecars w !! key).

Definition hasArtifact (w : World) (artifactHash : jsval) : result bool :=
  key ← shardKey artifactHash; Ok (bool_decide (is_Some (blobs w !! key))).

End WithRuntime.
End ArtifactStore.

(* ===================================================================== *)
(** * renderHumanReport (packages/reporting/src/index.ts, first part) *)
(* ===================================================================== *)

Module Reporting.
Section WithRuntime.
Context {RT : JsRuntime}.
Import Contracts Types.

(** [`${v}`]: ToString of a value in a template literal. *)
Definition template (v : jsval) : result string :=
  match v with
  | JStr s => Ok s
  | JUndef => Ok "undefined"
  | JNull => Ok "null"
  | JBool b => Ok (if b then "true" else "false")
  | JNum n => Ok (Number_toString n)
  | JArr _ | JObj _ => Object_toString v
  end.

Definition severityRank (s : Severity) : nat :=
  match s with critical => 0 | high => 1 | medium => 2 | low => 3 end.

Definition severity_name (s : Severity) : string :=
  match s with
  | critical => "critical" | high => "high" | medium => "medium" | low => "low"
  end.

Definition severity_upper (s : Severity) : string :=
  match s with
  | critical => "CRITICAL" | high => "HIGH" | medium => "MEDIUM" | low => "LOW"
  end.

Definition failureCode_name (c : FailureCode) : string :=
  match c with
  | SIG_INVALID => "SIG_INVALID" | SIG_MISSING => "SIG_MISSING"
  | CHAIN_BREAK => "CHAIN_BREAK" | HASH_MISMATCH => "HASH_MISMATCH"
  | ARTIFACT_MISSING => "ARTIFACT_MISSING"
  | ARTIFACT_HASH_MISMATCH => "ARTIFACT_HASH_MISMATCH"
  | CLAIM_UNPROVEN => "CLAIM_UNPROVEN"
  | ROLE_POLICY_VIOLATION => "ROLE_POLICY_VIOLATION"
  | SCHEMA_INVALID => "SCHEMA_INVALID"
  end.

Definition checkId_name (c : CheckId) : string :=
  match c with
  | CHK_SCHEMA_CONFORMANCE => "CHK_SCHEMA_CONFORMANCE"
  | CHK_EVENT_HASH_INTEGRITY => "CHK_EVENT_HASH_INTEGRITY"
  | CHK_CHAIN_CONTINUITY => "CHK_CHAIN_CONTINUITY"
  | CHK_SIGNATURE_VALIDITY => "CHK_SIGNATURE_VALIDITY"
  | CHK_KEY_STATUS => "CHK_KEY_STATUS"
  | CHK_ARTIFACT_EXISTENCE => "CHK_ARTIFACT_EXISTENCE"
  | CHK_ARTIFACT_HASH_MATCH => "CHK_ARTIFACT_HASH_MATCH"
  | CHK_CLAIM_EVIDENCE_SUFFICIENCY => "CHK_CLAIM_EVIDENCE_SUFFICIENCY"
  | CHK_ROLE_POLICY_CONFORMANCE => "CHK_ROLE_POLICY_CONFORMANCE"
  | CHK_FINALIZATION_INTEGRITY => "CHK_FINALIZATION_INTEGRITY"
  end.

Definition checkStatus_name (s : CheckStatus) : string :=
  match s with
  | check_pass => "pass" | check_warning => "warning" | check_fail => "fail"
  end.

Definition verdict_name (s : VerificationStatus) : string :=
  match s with
  | verdict_pass => "pass"
  | verdict_pass_with_warnings => "pass-with-warnings"
  | verdict_fail => "fail"
  end.

(** [[...failures].sort((l, r) => severityRank[l.severity] -
    severityRank[r.severity])]: a stable sort by rank. *)
Fixpoint insert_failure (f : VerificationFailure) (sorted : list VerificationFailure)
  : list VerificationFailure :=
  match sorted with
  | [] => [f]
  | g :: rest =>
      if severityRank (vf_severity f) <=? severityRank (vf_severity g)
      then f :: g :: rest
      else g :: insert_failure f rest
  end.

Definition sortedFailures (fs : list VerificationFailure) : list VerificationFailure :=
  List.fold_right insert_failure [] fs.

(** [Array.from(new Set(xs))]: the first occurrence of each string, in
    order. *)
Fixpoint dedupe (seen : list string) (xs : list string) : list string :=
  match xs with
  | [] => []
  | x :: r => if mem x seen then dedupe seen r else x :: dedupe (x :: seen) r
  end.

Definition optional_line (label : string) (v : option jsval) : result (list string) :=
  match v with
  | Some x => if Js.truthy x then t ← template x; Ok [label +:+ t] else Ok []
  | None => Ok []
  end.

Definition failure_lines (f : VerificationFailure) : result (list string) :=
  e ← optional_line "  event_id: " (vf_event_id f);
  a ← optional_line "  artifact_hash: " (vf_artifact_hash f);
  Ok (["- [" +:+ severity_upper (vf_severity f) +:+ "] "
       +:+ failureCode_name (failure_code f) +:+ " at step "
       +:+ checkId_name (verification_step f);
       "  message: " +:+ vf_message f]
      ++ e ++ a
      ++ ["  remediation: " +:+ recommended_remediation f]).

Definition warning_line (w : VerificationWarning) : string :=
  "- [" +:+ severity_name (vw_severity w) +:+ "] " +:+ warning_code w +:+ ": "
  +:+ vw_message w.

Definition check_line (c : VerificationCheck) : string :=
  "- " +:+ checkId_name (check_id c) +:+ ": " +:+ checkStatus_name (status c)
  +:+ " (" +:+ Number_toFixed2 (elapsed_ms c) +:+ " ms)".

Definition renderHumanReport (report : VerificationReport) : result string :=
  findings ← mapM failure_lines (sortedFailures (failures report));
  Ok (Str.join (String Str.lf "")
    (["Cryptographic Trace Verification Report";
      "======================================";
      "Trace ID: " +:+ vr_trace_id report;
      "Report ID: " +:+ report_id report;
      "Schema Version: " +:+ vr_schema_version report;
      "Verified At: " +:+ verified_at report;
      "Policy Profile: " +:+ policyProfile_name (policy_profile report);
      "Verdict: " +:+ verdict_name (verification_status report);
      "";
      "Summary";
      "-------";
      summary report;
      "";
      "Findings";
      "--------"]
     ++ (match failures report with
         | [] => ["No failures detected."]
         | _ => List.concat findings
         end)
     ++ [""; "Warnings"; "--------"]
     ++ (match warnings report with
         | [] => ["No warnings."]
         | ws => List.map warning_line ws
         end)
     ++ [""; "Checks"; "------"]
     ++ List.map check_line (checks report)
     ++ [""; "Recommended Next Actions"; "------------------------"]
     ++ (match failures report with
         | [] => ["No remediation required."]
         | fs => List.map (fun a => "- " +:+ a) (dedupe [] (List.map suggested_action fs))
         end))).

End WithRuntime.
End Reporting.

(* ===================================================================== *)
(** * packages/verifier/src/verifier.ts *)
(* ===================================================================== *)

Module Verifier.
Section WithRuntime.
Context {RT : JsRuntime} {CL : CryptoLib} {CK : Clock}.
Import Contracts Types Files.

Record VerifyInput := {
  in_trace_id : string;
  in_policy_profile : option string;
  write_reports : option bool;
  in_report_id : option string;
  allow_incomplete_finalization : bool;
}.

(** The mutable variables of [verifyTrace] and the files it can change.  A
    [Set] is the list of its members in insertion order. *)
Record State := {
  world : World;
  ticks : nat;                               (* calls of nowIso() so far *)
  st_checks : list VerificationCheck;
  st_failures : list VerificationFailure;
  st_warnings : list VerificationWarning;
  schemaValidEvents : list jsval;
  signatureValidEvents : list jsval;
  existingArtifacts : list jsval;
  artifactHashValid : list jsval;
}.

(** A run of a part of [verifyTrace]: it ends normally or with an exception,
    and in both cases the files keep what was written. *)
Inductive run : Type :=
| Done (st : State)
| Raised (e : exn) (w : World).

Notation "'attempt' x ← r 'in' st ; k" :=
  (match r with Ok x => k | Throw err => Raised err (world st) end)
  (at level 10, x name, r at level 100, st at level 0, k at level 200,
   only parsing).

Definition set_has (s : list jsval) (v : jsval) : bool :=
  List.existsb (Js.same_value_zero v) s.

Definition set_add (s : list jsval) (v : jsval) : list jsval :=
  if set_has s v then s else s ++ [v].

Definition with_world (st : State) (w : World) (t : nat) : State :=
  {| world := w; ticks := t; st_checks := st_checks st;
     st_failures := st_failures st; st_warnings := st_warnings st;
     schemaValidEvents := schemaValidEvents st;
     signatureValidEvents := signatureValidEvents st;
     existingArtifacts := existingArtifacts st;
     artifactHashValid := artifactHashValid st |}.

Definition push_failure (st : State) (f : VerificationFailure) : State :=
  {| world := world st; ticks := S (ticks st); st_checks := st_checks st;
     st_failures := st_failures st ++ [f]; st_warnings := st_warnings st;
     schemaValidEvents := schemaValidEvents st;
     signatureValidEvents := signatureValidEvents st;
     existingArtifacts := existingArtifacts st;
     artifactHashValid := artifactHashValid st |}.

Definition push_warning (st : State) (x : VerificationWarning) : State :=
  {| world := world st; ticks := S (ticks st); st_checks := st_checks st;
     st_failures := st_failures st; st_warnings := st_warnings st ++ [x];
     schemaValidEvents := schemaValidEvents st;
     signatureValidEvents := signatureValidEvents st;
     existingArtifacts := existingArtifacts st;
     artifactHashValid := artifactHashValid st |}.

Definition push_check (st : State) (c : VerificationCheck) : State :=
  {| world := world st; ticks := ticks st; st_checks := st_checks st ++ [c];
     st_failures := st_failures st; st_warnings := st_warnings st;
     schemaValidEvents := schemaValidEvents st;
     signatureValidEvents := signatureValidEvents st;
     existingArtifacts := existingArtifacts st;
     artifactHashValid := artifactHashValid st |}.

Definition add_schemaValid (st : State) (v : jsval) : State :=
  {| world := world st; ticks := ticks st; st_checks := st_checks st;
     st_failures := st_failures st; st_warnings := st_warnings st;
     schemaValidEvents := set_add (schemaValidEvents st) v;
     signatureValidEvents := signatureValidEvents st;
     existingArtifacts := existingArtifacts st;
     artifactHashValid := artifactHashValid st |}.

Definition add_signatureValid (st : State) (v : jsval) : State :=
  {| world := world st; ticks := ticks st; st_checks := st_checks st;
     st_failures := st_failures st; st_warnings := st_warnings st;
     schemaValidEvents := schemaValidEvents st;
     signatureValidEvents := set_add (signatureValidEvents st) v;
     existingArtifacts := existingArtifacts st;
     artifactHashValid := artifactHashValid st |}.

Definition add_existingArtifact (st : State) (v : jsval) : State :=
  {| world := world st; ticks := ticks st; st_checks := st_checks st;
     st_failures := st_failures st; st_warnings := st_warnings st;
     schemaValidEvents := schemaValidEvents st;
     signatureValidEvents := signatureValidEvents st;
     existingArtifacts := set_add (existingArtifacts st) v;
     artifactHashValid := artifactHashValid st |}.

Definition add_artifactHashValid (st : State) (v : jsval) : State :=
  {| world := world st; ticks := ticks st; st_checks := st_checks st;
     st_failures := st_failures st; st_warnings := st_warnings st;
     schemaValidEvents := schemaValidEvents st;
     signatureValidEvents := signatureValidEvents st;
     existingArtifacts := existingArtifacts st;
     artifactHashValid := set_add (artifactHashValid st) v |}.

Definition present (v : jsval) : option jsval :=
  if Js.truthy v then Some v else None.

(** [failure({...})]: the optional references are kept when truthy and the
    time of detection is read from the clock. *)
Definition failure (st : State) (code : FailureCode) (severity : Severity)
    (check : CheckId) (eventId artifactHash : jsval) (message action : string)
  : VerificationFailure :=
  {| failure_code := code;
     vf_severity := severity;
     vf_event_id := present eventId;
     vf_artifact_hash := present artifactHash;
     vf_message := message;
     suggested_action := action;
     vf_detected_at := nowIso_at (ticks st);
     description := message;
     verification_step := check;
     recommended_remediation := action |}.

Definition warning (st : State) (code : string) (severity : Severity)
    (message : string) (eventId : jsval) : VerificationWarning :=
  {| warning_code := code;
     vw_severity := severity;
     vw_message := message;
     vw_event_id := present eventId;
     vw_detected_at := nowIso_at (ticks st) |}.

Definition fail_with (st : State) (code : FailureCode) (severity : Severity)
    (check : CheckId) (eventId artifactHash : jsval) (message action : string)
  : State :=
  push_failure st (failure st code severity check eventId artifactHash message action).

(** [failures.some((entry) => entry.verification_step === id)] *)
Definition has_step (fs : list VerificationFailure) (id : CheckId) : bool :=
  List.existsb (fun entry => bool_decide (verification_step entry = id)) fs.

Definition has_warning (ws : list VerificationWarning) (code : string) : bool :=
  List.existsb (fun entry => String.eqb (warning_code entry) code) ws.

Definition fail_or_pass (id : CheckId) (st : State) : CheckStatus :=
  if has_step (st_failures st) id then check_fail else check_pass.

(** [startCheck]: run the operation, then record the check with the status
    the operation returns. *)
Definition startCheck (id : CheckId) (scope : string) (operation : State -> run)
    (status_of : State -> CheckStatus) (st : State) : run :=
  match operation st with
  | Raised e w => Raised e w
  | Done st' =>
      Done (push_check st'
              {| check_id := id; name := id; status := status_of st';
                 scope := scope; evidence := [];
                 elapsed_ms := elapsed_at (List.length (st_checks st')) |})
  end.

(** [for (const x of xs) body] *)
Fixpoint forEach {A} (body : A -> State -> run) (xs : list A) (st : State) : run :=
  match xs with
  | [] => Done st
  | x :: rest =>
      match body x st with
      | Raised e w => Raised e w
      | Done st' => forEach body rest st'
      end
  end.

Definition events_scope (events : list jsval) : string :=
  "events:" +:+ Str.of_nat (List.length events).

(** ** CHK_SCHEMA_CONFORMANCE *)

Fixpoint schema_loop (traceId : string) (events : list jsval)
    (seenEventIds : list jsval) (st : State) : run :=
  match events with
  | [] => Done st
  | event :: rest =>
      if negb (protocolEventSchema event) then
        attempt id ← Js.getp event "event_id" in st;
        schema_loop traceId rest seenEventIds
          (fail_with st SCHEMA_INVALID medium CHK_SCHEMA_CONFORMANCE id JUndef
             ("Event failed schema validation: " +:+ Zod_issue_message event)
             "Inspect event payload and regenerate trace.")
      else
        attempt id ← Js.getp event "event_id" in st;
        if set_has seenEventIds id then
          schema_loop traceId rest seenEventIds
            (fail_with st SCHEMA_INVALID medium CHK_SCHEMA_CONFORMANCE id JUndef
               "Duplicate event_id detected (anti-replay guard)."
               "Remove replayed event and rerun protocol.")
        else
          let st1 := add_schemaValid st id in
          attempt tid ← Js.getp event "trace_id" in st1;
          attempt st2 ←
            (if negb (Js.strict_eq tid (JStr traceId)) then
               actual ← Reporting.template tid;
               Ok (fail_with st1 SCHEMA_INVALID medium CHK_SCHEMA_CONFORMANCE id JUndef
                     ("Event trace_id mismatch. expected=" +:+ traceId
                      +:+ " actual=" +:+ actual)
                     "Remove replayed event from other traces.")
             else Ok st1) in st1;
          attempt ty ← Js.getp event "event_type" in st2;
          attempt st3 ←
            (if negb (eventTypeSchema ty) then
               shown ← Reporting.template ty;
               Ok (fail_with st2 SCHEMA_INVALID medium CHK_SCHEMA_CONFORMANCE id JUndef
                     ("Unknown event type: " +:+ shown)
                     "Upgrade reader or reject unsupported event schema.")
             else Ok st2) in st2;
          schema_loop traceId rest (set_add seenEventIds id) st3
  end.

Definition CHK_SCHEMA (traceId : string) (events : list jsval) : State -> run :=
  startCheck CHK_SCHEMA_CONFORMANCE (events_scope events)
    (schema_loop traceId events [])
    (fail_or_pass CHK_SCHEMA_CONFORMANCE).

(** ** CHK_EVENT_HASH_INTEGRITY *)

Definition hash_body (event : jsval) (st : State) : run :=
  attempt withoutHash ← Js.rest_without "event_hash" event in st;
  attempt recomputed ← Crypto.computeEventHash withoutHash in st;
  attempt stored ← Js.getp event "event_hash" in st;
  if negb (Js.strict_eq (JStr recomputed) stored) then
    attempt id ← Js.getp event "event_id" in st;
    attempt expected ← Reporting.template stored in st;
    Done (fail_with st HASH_MISMATCH critical CHK_EVENT_HASH_INTEGRITY id JUndef
            ("Event hash mismatch. expected=" +:+ expected +:+ " actual=" +:+ recomputed)
            "Restore immutable ledger from trusted backup.")
  else Done st.

Definition CHK_HASH (events : list jsval) : State -> run :=
  startCheck CHK_EVENT_HASH_INTEGRITY (events_scope events)
    (forEach hash_body events)
    (fail_or_pass CHK_EVENT_HASH_INTEGRITY).

(** ** CHK_CHAIN_CONTINUITY *)

(** [previous] is [events[index - 1]], absent at index 0. *)
Fixpoint chain_loop (index : nat) (previous : option jsval) (events : list jsval)
    (st : State) : run :=
  match events with
  | [] => Done st
  | event :: rest =>
      let expectedPrev :=
        match previous with
        | None => JStr GENESIS_PREV_HASH
        | Some p => Js.getp_opt p "event_hash"
        end in
      attempt actual ← Js.getp event "prev_event_hash" in st;
      if negb (Js.strict_eq actual expectedPrev) then
        attempt id ← Js.getp event "event_id" in st;
        attempt expected ← Reporting.template expectedPrev in st;
        attempt shown ← Reporting.template actual in st;
        Done (fail_with st CHAIN_BREAK critical CHK_CHAIN_CONTINUITY id JUndef
                ("prev_event_hash mismatch at index " +:+ Str.of_nat index
                 +:+ ". expected=" +:+ expected +:+ " actual=" +:+ shown)
                "Identify first broken line and restore from last trusted checkpoint.")
      else chain_loop (S index) (Some event) rest st
  end.

Definition CHK_CHAIN (events : list jsval) : State -> run :=
  startCheck CHK_CHAIN_CONTINUITY (events_scope events)
    (chain_loop 0 None events)
    (fail_or_pass CHK_CHAIN_CONTINUITY).

(** ** Registry lookups from the checks *)

(** A lookup loads the registry; a missing registry file is created, which
    reads the clock once. *)
Definition st_resolveIdentity (st : State) (keyId : jsval)
  : option AgentIdentity * State :=
  let '(found, w) :=
    Crypto.resolveIdentityByKeyId (world st) (nowIso_at (ticks st)) keyId in
  (found,
   with_world st w (match registry (world st) with
                    | None => S (ticks st)
                    | Some _ => ticks st
                    end)).

Definition st_resolvePublicKey (st : State) (keyId : jsval)
  : option string * State :=
  let '(found, st') := st_resolveIdentity st keyId in
  (public_key <$> found, st').

(** ** CHK_SIGNATURE_VALIDITY *)

Definition signature_body (event : jsval) (st : State) : run :=
  attempt ty ← Js.getp event "event_type" in st;
  if negb (has requiredSignedEventTypes ty) then Done st
  else
    attempt sig ← Js.getp event "signature" in st;
    if negb (Js.truthy sig) then
      attempt id ← Js.getp event "event_id" in st;
      Done (fail_with st SIG_MISSING critical CHK_SIGNATURE_VALIDITY id JUndef
              "Required signature is missing."
              "Reject event and rerun protocol step with signing enabled.")
    else
      attempt actor ← Js.getp event "actor" in st;
      attempt keyId ← Js.getp actor "key_id" in st;
      let '(publicKey, st1) := st_resolvePublicKey st keyId in
      match publicKey with
      | Some pem =>
          if String.eqb pem "" then
            attempt id ← Js.getp event "event_id" in st1;
            attempt shown ← Reporting.template keyId in st1;
            Done (fail_with st1 SIG_INVALID critical CHK_SIGNATURE_VALIDITY id JUndef
                    ("Public key not found for key_id=" +:+ shown +:+ ".")
                    "Restore key registry and rerun verification.")
          else
            attempt bytes ← Crypto.canonicalSignedBytes event in st1;
            attempt valid ← Crypto.verifyBytes pem bytes sig in st1;
            attempt id ← Js.getp event "event_id" in st1;
            if negb valid then
              Done (fail_with st1 SIG_INVALID critical CHK_SIGNATURE_VALIDITY id JUndef
                      "Signature validation failed for signed event."
                      "Treat trace as tampered and rotate impacted keys.")
            else Done (add_signatureValid st1 id)
      | None =>
          attempt id ← Js.getp event "event_id" in st1;
          attempt shown ← Reporting.template keyId in st1;
          Done (fail_with st1 SIG_INVALID critical CHK_SIGNATURE_VALIDITY id JUndef
                  ("Public key not found for key_id=" +:+ shown +:+ ".")
                  "Restore key registry and rerun verification.")
      end.

Definition CHK_SIGNATURE (events : list jsval) : State -> run :=
  startCheck CHK_SIGNATURE_VALIDITY (events_scope events)
    (forEach signature_body events)
    (fail_or_pass CHK_SIGNATURE_VALIDITY).

(** ** CHK_KEY_STATUS *)

(** [event.created_at >= revokedAt] *)
Definition created_at_ge (createdAt : jsval) (revokedAt : string) : bool :=
  match createdAt with
  | JStr c => Str.leb revokedAt c
  | _ => Abstract_ge_string createdAt revokedAt
  end.

Definition key_status_body (event : jsval) (st : State) : run :=
  attempt actor ← Js.getp event "actor" in st;
  attempt keyId ← Js.getp actor "key_id" in st;
  let '(found, st1) := st_resolveIdentity st keyId in
  match found with
  | None =>
      attempt id ← Js.getp event "event_id" in st1;
      attempt shown ← Reporting.template keyId in st1;
      Done (fail_with st1 SCHEMA_INVALID medium CHK_KEY_STATUS id JUndef
              ("Actor key_id not found in registry: " +:+ shown)
              "Reconcile key registry with trace participants.")
  | Some registered =>
      attempt agentId ← Js.getp actor "agent_id" in st1;
      if negb (Js.strict_eq (JStr (id_agent_id registered)) agentId) then
        attempt id ← Js.getp event "event_id" in st1;
        Done (fail_with st1 SCHEMA_INVALID medium CHK_KEY_STATUS id JUndef
                "Actor agent_id does not match key registry identity."
                "Reject mismatched event and reissue with correct key.")
      else
        match revoked_at registered with
        | Some revokedAt =>
            if String.eqb (id_status registered) "revoked"
               && negb (String.eqb revokedAt "")
            then
              attempt createdAt ← Js.getp event "created_at" in st1;
              if created_at_ge createdAt revokedAt then
                attempt id ← Js.getp event "event_id" in st1;
                Done (fail_with st1 SCHEMA_INVALID medium CHK_KEY_STATUS id JUndef
                        "Event signed with revoked key after revocation timestamp."
                        "Invalidate event and rotate key material.")
              else Done st1
            else Done st1
        | None => Done st1
        end
  end.

Definition CHK_KEY (events : list jsval) : State -> run :=
  startCheck CHK_KEY_STATUS (events_scope events)
    (forEach key_status_body events)
    (fail_or_pass CHK_KEY_STATUS).

(** ** CHK_ARTIFACT_EXISTENCE *)

Fixpoint chars (s : string) : list jsval :=
  match s with
  | EmptyString => []
  | String c r => JStr (String c "") :: chars r
  end.

(** The values that [for (const x of v)] visits: the elements of an array or
    the characters of a string (one per byte here, exact for ASCII); any
    other value is not iterable. *)
Definition iterate (v : jsval) : result (list jsval) :=
  match v with
  | JArr items => Ok items
  | JStr s => Ok (chars s)
  | _ => Throw TypeError
  end.

Definition artifact_body (event descriptor : jsval) (st : State) : run :=
  attempt hash ← Js.getp descriptor "artifact_hash" in st;
  attempt exists_ ← ArtifactStore.hasArtifact (world st) hash in st;
  if negb exists_ then
    attempt id ← Js.getp event "event_id" in st;
    Done (fail_with st ARTIFACT_MISSING high CHK_ARTIFACT_EXISTENCE id hash
            "Referenced artifact blob missing from content-addressed store."
            "Restore artifact blob from backup or regenerate trace.")
  else Done (add_existingArtifact st hash).

Definition existence_body (event : jsval) (st : State) : run :=
  attempt arts ← Js.getp event "artifacts" in st;
  attempt items ← iterate arts in st;
  forEach (artifact_body event) items st.

Definition CHK_EXISTENCE (events : list jsval) : State -> run :=
  startCheck CHK_ARTIFACT_EXISTENCE (events_scope events)
    (forEach existence_body events)
    (fail_or_pass CHK_ARTIFACT_EXISTENCE).

(** ** CHK_ARTIFACT_HASH_MATCH *)

Definition hash_match_body (artifactHash : jsval) (st : State) : run :=
  attempt content ← ArtifactStore.readArtifact (world st) artifactHash in st;
  match content with
  | None => Done st
  | Some bytes =>
      let recomputed := sha256Hex bytes in
      if negb (Js.strict_eq (JStr recomputed) artifactHash) then
        attempt shown ← Reporting.template artifactHash in st;
        Done (fail_with st ARTIFACT_HASH_MISMATCH high CHK_ARTIFACT_HASH_MATCH
                JUndef artifactHash
                ("Artifact bytes do not match descriptor hash. expected=" +:+ shown
                 +:+ " actual=" +:+ recomputed)
                "Replace corrupted blob with immutable source copy.")
      else Done (add_artifactHashValid st artifactHash)
  end.

Definition CHK_HASH_MATCH (st : State) : run :=
  startCheck CHK_ARTIFACT_HASH_MATCH
    ("artifacts:" +:+ Str.of_nat (List.length (existingArtifacts st)))
    (fun st' => forEach hash_match_body (existingArtifacts st') st')
    (fail_or_pass CHK_ARTIFACT_HASH_MATCH) st.

(** ** CHK_CLAIM_EVIDENCE_SUFFICIENCY *)

(** [events.filter((event) => event.event_type === ty).length] *)
Fixpoint count_type (ty : string) (events : list jsval) : result nat :=
  match events with
  | [] => Ok 0
  | event :: rest =>
      match Js.getp event "event_type" with
      | Throw e => Throw e
      | Ok t =>
          match count_type ty rest with
          | Throw e => Throw e
          | Ok n => Ok (if Js.strict_eq t (JStr ty) then S n else n)
          end
      end
  end.

(** A [Map]: the keys in insertion order with their current values. *)
Fixpoint map_set (m : list (jsval * jsval)) (k v : jsval) : list (jsval * jsval) :=
  match m with
  | [] => [(k, v)]
  | (k', v') :: r =>
      if Js.same_value_zero k' k then (k', v) :: r else (k', v') :: map_set r k v
  end.

Definition map_get (m : list (jsval * jsval)) (k : jsval) : option jsval :=
  snd <$> List.find (fun p => Js.same_value_zero (fst p) k) m.

Fixpoint challenged_loop (events : list jsval) (challengedClaims : list (jsval * jsval))
  : result (list (jsval * jsval)) :=
  match events with
  | [] => Ok challengedClaims
  | event :: rest =>
      ty ← Js.getp event "event_type";
      if Js.strict_eq ty (JStr "claim_challenged") then
        payload ← Js.getp event "payload";
        challengedClaimId ← Js.getp payload "challenged_claim_id";
        if Js.truthy challengedClaimId then
          challenged_loop rest (map_set challengedClaims challengedClaimId event)
        else challenged_loop rest challengedClaims
      else challenged_loop rest challengedClaims
  end.

(** [v[0]] *)
Definition index0 (v : jsval) : result jsval :=
  match v with
  | JUndef | JNull => Throw TypeError
  | JArr items => Ok (List.hd JUndef items)
  | JStr s => Ok (List.hd JUndef (chars s))
  | JObj props => Ok (Js.lookup_prop "0" props)
  | _ => Ok JUndef
  end.

(** [event.artifacts.map((item) => item.artifact_hash)] *)
Definition artifact_hashes (arts : jsval) : result jsval :=
  match arts with
  | JArr items => hashes ← mapM (fun item => Js.getp item "artifact_hash") items;
                  Ok (JArr hashes)
  | _ => Throw TypeError
  end.

(** [v.length === 0] for a value that is neither [null] nor [undefined]. *)
Definition length_is_zero (v : jsval) : bool :=
  match v with
  | JArr items => bool_decide (List.length items = 0)
  | JStr s => String.eqb s ""
  | JObj props => Js.strict_eq (Js.lookup_prop "length" props) (JNum 0%float)
  | _ => false
  end.

(** [v.every((h) => valid.has(h))]: only an array has the method. *)
Definition every_valid (valid : list jsval) (v : jsval) : result bool :=
  match v with
  | JArr items => Ok (List.forallb (set_has valid) items)
  | _ => Throw TypeError
  end.

Definition claim_body (policyProfile : PolicyProfile)
    (challengedClaims : list (jsval * jsval)) (event : jsval) (st : State) : run :=
  attempt ty ← Js.getp event "event_type" in st;
  if negb (Js.strict_eq ty (JStr "claim_issued")) then Done st
  else
    attempt payload ← Js.getp event "payload" in st;
    attempt payloadClaimId ← Js.getp payload "claim_id" in st;
    attempt claimId ←
      (if Js.is_nullish payloadClaimId then
         cs ← Js.getp event "claims"; index0 cs
       else Ok payloadClaimId) in st;
    attempt payloadEvidence ← Js.getp payload "evidence_artifacts" in st;
    attempt evidenceArtifacts ←
      (if Js.is_nullish payloadEvidence then
         arts ← Js.getp event "artifacts"; artifact_hashes arts
       else Ok payloadEvidence) in st;
    attempt id ← Js.getp event "event_id" in st;
    if negb (Js.truthy claimId) || length_is_zero evidenceArtifacts then
      Done (fail_with st CLAIM_UNPROVEN high CHK_CLAIM_EVIDENCE_SUFFICIENCY id JUndef
              "Claim has no evidence artifact references."
              "Attach artifact evidence before issuing claim.")
    else
      attempt evidenceOk ← every_valid (artifactHashValid st) evidenceArtifacts in st;
      let st1 :=
        if negb evidenceOk || negb (set_has (signatureValidEvents st) id) then
          fail_with st CLAIM_UNPROVEN high CHK_CLAIM_EVIDENCE_SUFFICIENCY id JUndef
            "Claim evidence set is incomplete or invalid."
            "Reissue claim after restoring artifact and signature integrity."
        else st in
      match map_get challengedClaims claimId with
      | None => Done st1
      | Some challengeEvent =>
          attempt resolved ← Js.getp payload "resolved" in st1;
          if Js.truthy challengeEvent && negb (Js.strict_eq resolved (JBool true)) then
            attempt challengeId ← Js.getp challengeEvent "event_id" in st1;
            attempt shown ← Reporting.template claimId in st1;
            match policyProfile with
            | profile_strict =>
                Done (fail_with st1 CLAIM_UNPROVEN high CHK_CLAIM_EVIDENCE_SUFFICIENCY
                        challengeId JUndef
                        ("Claim " +:+ shown
                         +:+ " is disputed and unresolved under strict policy.")
                        "Resolve or retract disputed claim.")
            | _ =>
                Done (push_warning st1
                        (warning st1 "CLAIM_DISPUTED" medium
                           ("Claim " +:+ shown +:+ " remains disputed.") challengeId))
            end
          else Done st1
      end.

Definition claims_status (st : State) : CheckStatus :=
  if has_step (st_failures st) CHK_CLAIM_EVIDENCE_SUFFICIENCY then check_fail
  else if has_warning (st_warnings st) "CLAIM_DISPUTED" then check_warning
  else check_pass.

Definition CHK_CLAIMS (policyProfile : PolicyProfile) (events : list jsval)
    (st : State) : run :=
  attempt n ← count_type "claim_issued" events in st;
  startCheck CHK_CLAIM_EVIDENCE_SUFFICIENCY ("claims:" +:+ Str.of_nat n)
    (fun st' =>
       attempt challengedClaims ← challenged_loop events [] in st';
       forEach (claim_body policyProfile challengedClaims) events st')
    claims_status st.

(** ** CHK_ROLE_POLICY_CONFORMANCE *)

(** [rolePolicy[role]?.has(eventType)]: the role is converted to a property
    key; an own key gives its set, a name inherited from [Object.prototype]
    gives a value without a [has] method, any other key gives [undefined]. *)
Definition role_allows (role eventType : jsval) : result bool :=
  key ← Reporting.template role;
  match rolePolicy key with
  | Some allowed => Ok (has allowed eventType)
  | None => if mem key Object_prototype_names then Throw TypeError else Ok false
  end.

Definition role_body (event : jsval) (st : State) : run :=
  attempt actor ← Js.getp event "actor" in st;
  attempt role ← Js.getp actor "role" in st;
  attempt ty ← Js.getp event "event_type" in st;
  attempt allowed ← role_allows role ty in st;
  if negb allowed then
    attempt id ← Js.getp event "event_id" in st;
    attempt shownRole ← Reporting.template role in st;
    attempt shownType ← Reporting.template ty in st;
    Done (fail_with st ROLE_POLICY_VIOLATION medium CHK_ROLE_POLICY_CONFORMANCE id JUndef
            ("Role " +:+ shownRole +:+ " emitted disallowed event " +:+ shownType +:+ ".")
            "Correct role assignment and rerun workflow.")
  else Done st.

Definition CHK_ROLE (events : list jsval) : State -> run :=
  startCheck CHK_ROLE_POLICY_CONFORMANCE (events_scope events)
    (forEach role_body events)
    (fail_or_pass CHK_ROLE_POLICY_CONFORMANCE).

(** ** CHK_FINALIZATION_INTEGRITY *)

(** [events.findIndex((event) => event.event_type === ty)]; [None] is -1. *)
Fixpoint findIndex_type (ty : string) (index : nat) (events : list jsval)
  : result (option nat) :=
  match events with
  | [] => Ok None
  | event :: rest =>
      match Js.getp event "event_type" with
      | Throw e => Throw e
      | Ok t => if Js.strict_eq t (JStr ty) then Ok (Some index)
                else findIndex_type ty (S index) rest
      end
  end.

Definition finalization_body (allowIncomplete : bool) (events : list jsval)
    (st : State) : run :=
  attempt finalStatementIndex ← findIndex_type "final_statement_signed" 0 events in st;
  attempt verificationCompletedIndex ←
    findIndex_type "verification_run_completed" 0 events in st;
  attempt verificationStartedIndex ←
    findIndex_type "verification_run_started" 0 events in st;
  let st1 :=
    match finalStatementIndex with
    | None =>
        fail_with st SCHEMA_INVALID medium CHK_FINALIZATION_INTEGRITY JUndef JUndef
          "Missing final_statement_signed event."
          "Emit final statement before verification."
    | Some _ => st
    end in
  let st2 :=
    match verificationStartedIndex with
    | None =>
        fail_with st1 SCHEMA_INVALID medium CHK_FINALIZATION_INTEGRITY JUndef JUndef
          "Missing verification_run_started event."
          "Record verification run start event."
    | Some _ => st1
    end in
  let st3 :=
    match verificationCompletedIndex with
    | None =>
        if allowIncomplete then
          push_warning st2
            (warning st2 "FINALIZATION_INCOMPLETE" low
               "verification_run_completed not present in current snapshot." JUndef)
        else
          fail_with st2 SCHEMA_INVALID medium CHK_FINALIZATION_INTEGRITY JUndef JUndef
            "Missing verification_run_completed event."
            "Record verification completion event."
    | Some _ => st2
    end in
  match finalStatementIndex, verificationCompletedIndex with
  | Some f, Some c =>
      if c <? f then
        Done (fail_with st3 ROLE_POLICY_VIOLATION medium CHK_FINALIZATION_INTEGRITY
                (Js.getp_opt (List.nth f events JUndef) "event_id") JUndef
                "final_statement_signed occurs after verification completion."
                "Move final statement before verification completion.")
      else Done st3
  | _, _ => Done st3
  end.

Definition finalization_status (st : State) : CheckStatus :=
  if has_step (st_failures st) CHK_FINALIZATION_INTEGRITY then check_fail
  else if has_warning (st_warnings st) "FINALIZATION_INCOMPLETE" then check_warning
  else check_pass.

Definition CHK_FINALIZATION (allowIncomplete : bool) (events : list jsval)
  : State -> run :=
  startCheck CHK_FINALIZATION_INTEGRITY (events_scope events)
    (finalization_body allowIncomplete events)
    finalization_status.

(** ** The pipeline *)

Definition initial_state (w : World) : State :=
  {| world := w; ticks := 0; st_checks := []; st_failures := [];
     st_warnings := []; schemaValidEvents := []; signatureValidEvents := [];
     existingArtifacts := []; artifactHashValid := [] |}.

Definition andThen (r : run) (k : State -> run) : run :=
  match r with Done st => k st | Raised e w => Raised e w end.

(** The ten checks in the order of [verifyTrace]. *)
Definition runChecks (traceId : string) (policyProfile : PolicyProfile)
    (allowIncomplete : bool) (events : list jsval) (st : State) : run :=
  andThen (CHK_SCHEMA traceId events st) (fun st =>
  andThen (CHK_HASH events st) (fun st =>
  andThen (CHK_CHAIN events st) (fun st =>
  andThen (CHK_SIGNATURE events st) (fun st =>
  andThen (CHK_KEY events st) (fun st =>
  andThen (CHK_EXISTENCE events st) (fun st =>
  andThen (CHK_HASH_MATCH st) (fun st =>
  andThen (CHK_CLAIMS policyProfile events st) (fun st =>
  andThen (CHK_ROLE events st) (fun st =>
  CHK_FINALIZATION allowIncomplete events st))))))))).

Definition verificationStatus (st : State) : VerificationStatus :=
  match st_failures st, st_warnings st with
  | _ :: _, _ => verdict_fail
  | [], _ :: _ => verdict_pass_with_warnings
  | [], [] => verdict_pass
  end.

Definition summary_of (s : VerificationStatus) : string :=
  match s with
  | verdict_pass => "All required checks passed."
  | verdict_pass_with_warnings => "Integrity checks passed with warnings."
  | verdict_fail => "Verification failed with one or more integrity failures."
  end.

(** [events.reduce((sum, event) => sum + event.artifacts.length, 0)].  After
    CHK_ARTIFACT_EXISTENCE every [artifacts] is an array or the empty
    string, so each length is a count. *)
Fixpoint artifact_reference_total (events : list jsval) : result nat :=
  match events with
  | [] => Ok 0
  | event :: rest =>
      arts ← Js.getp event "artifacts";
      n ← artifact_reference_total rest;
      Ok (match arts with JArr items => List.length items + n | _ => n end)
  end.

(** [verificationReportSchema.parse] succeeds. *)
Definition optional_ref (p : string -> bool) (v : option jsval) : bool :=
  match v with
  | None => true
  | Some (JStr s) => p s
  | Some _ => false
  end.

Definition verificationCheckSchema (c : VerificationCheck) : bool :=
  min1 (scope c) && z_nonneg_number (elapsed_ms c).

Definition verificationFailureSchema (f : VerificationFailure) : bool :=
  optional_ref ULID_REGEX (vf_event_id f)
  && optional_ref HEX_64_REGEX (vf_artifact_hash f)
  && min1 (vf_message f) && min1 (suggested_action f)
  && ISO_UTC_MS_REGEX (vf_detected_at f)
  && min1 (description f) && min1 (recommended_remediation f).

Definition verificationWarningSchema (x : VerificationWarning) : bool :=
  min1 (warning_code x)
  && optional_ref ULID_REGEX (vw_event_id x)
  && min1 (vw_message x)
  && ISO_UTC_MS_REGEX (vw_detected_at x).

Definition verificationReportSchema (r : VerificationReport) : bool :=
  min1 (vr_schema_version r)
  && ULID_REGEX (report_id r)
  && ULID_REGEX (vr_trace_id r)
  && ISO_UTC_MS_REGEX (verified_at r)
  && min1 (summary r)
  && List.forallb verificationCheckSchema (checks r)
  && List.forallb verificationFailureSchema (failures r)
  && List.forallb verificationWarningSchema (warnings r)
  && negb (PrimFloat.is_nan (verification_duration_ms (metrics r))).

Record VerifyOutput := {
  report : VerificationReport;
  report_json_path : option string;
  report_text_path : option string;
}.

Definition build_report (trace : TraceSession) (policyProfile : PolicyProfile)
    (reportId : string) (events : list jsval) (references : nat) (st : State)
  : VerificationReport :=
  {| vr_schema_version := ts_schema_version trace;
     report_id := reportId;
     vr_trace_id := ts_trace_id trace;
     verified_at := nowIso_at (ticks st);
     verification_status := verificationStatus st;
     summary := summary_of (verificationStatus st);
     checks := st_checks st;
     failures := st_failures st;
     warnings := st_warnings st;
     metrics := {| m_event_count := List.length events;
                   artifact_reference_count := references;
                   verification_duration_ms := duration |};
     policy_profile := policyProfile |}.

(** The three [writeFileSync] calls of [verifyTrace]; the text is rendered
    after the structured report has been written. *)
Definition write_report_files (w : World) (traceId : string)
    (r : VerificationReport) : result unit * World :=
  let d := dir_of w traceId in
  let d1 :=
    {| meta := meta d; events_jsonl := events_jsonl d; append_lock := append_lock d;
       reports_json := <[report_id r := r]> (reports_json d);
       reports_txt := reports_txt d; latest := latest d |} in
  match Reporting.renderHumanReport r with
  | Throw e => (Throw e, set_dir w traceId d1)
  | Ok text =>
      (Ok tt,
       set_dir w traceId
         {| meta := meta d; events_jsonl := events_jsonl d;
            append_lock := append_lock d;
            reports_json := reports_json d1;
            reports_txt := <[report_id r := text]> (reports_txt d);
            latest := Some r |})
  end.

Definition reports_path (traceId reportId ext : string) : string :=
  "traces/" +:+ traceId +:+ "/reports/" +:+ reportId +:+ ext.

(** [verifyTrace]; [freshReportId] is the value of [newReportId()]. *)
Definition verifyTrace (w : World) (input : VerifyInput) (freshReportId : string)
  : result VerifyOutput * World :=
  match TraceStore.loadTrace w (in_trace_id input) with
  | Throw e => (Throw e, w)
  | Ok trace =>
      match policyProfileSchema_parse
              (default (ts_policy_profile trace) (in_policy_profile input)) with
      | Throw e => (Throw e, w)
      | Ok policyProfile =>
          let '(events, w1) := Ledger.readEvents w (in_trace_id input) true in
          match runChecks (in_trace_id input) policyProfile
                  (allow_incomplete_finalization input) events (initial_state w1) with
          | Raised e w2 => (Throw e, w2)
          | Done st =>
              let reportId := default freshReportId (in_report_id input) in
              match artifact_reference_total events with
              | Throw e => (Throw e, world st)
              | Ok references =>
                  let r := build_report trace policyProfile reportId events references st in
                  if negb (verificationReportSchema r) then (Throw ZodError, world st)
                  else if default true (write_reports input) then
                    match write_report_files (world st) (in_trace_id input) r with
                    | (Throw e, w3) => (Throw e, w3)
                    | (Ok _, w3) =>
                        (Ok {| report := r;
                               report_json_path :=
                                 Some (reports_path (in_trace_id input) reportId ".json");
                               report_text_path :=
                                 Some (reports_path (in_trace_id input) reportId ".txt") |},
                         w3)
                    end
                  else
                    (Ok {| report := r; report_json_path := None;
                           report_text_path := None |}, world st)
              end
          end
      end
  end.

End WithRuntime.
End Verifier.

(* ===================================================================== *)
(** * apps/api: the read endpoints over the ledger *)
(* ===================================================================== *)

Module Api.
Section WithRuntime.
Context {RT : JsRuntime} {CL : CryptoLib} {CK : Clock}.
Import Types Files.

(** [Number.parseInt(s, 10)]: leading white space (the one-byte kinds) is
    skipped, an optional sign and the longest run of decimal digits are read;
    [None] is NaN.  The value is exact; JavaScript rounds it to a double
    beyond 2^53. *)
Fixpoint skip_space (s : string) : string :=
  match s with
  | String c r => if Str.ascii_space c then skip_space r else s
  | EmptyString => s
  end.

Fixpoint digits (s : string) (acc : option Z) : option Z :=
  match s with
  | String c r =>
      if Contracts.digit c then
        digits r (Some (default 0%Z acc * 10 + Z.of_nat (Str.code c - 48))%Z)
      else acc
  | EmptyString => acc
  end.

Definition parseInt10 (s : string) : option Z :=
  match skip_space s with
  | String c r =>
      if Str.code c =? 45 then Z.opp <$> digits r None
      else if Str.code c =? 43 then digits r None
      else digits (String c r) None
  | EmptyString => None
  end.

Definition Z_to_string (z : Z) : string :=
  if (z <? 0)%Z then "-" +:+ Str.of_nat (Z.to_nat (- z)) else Str.of_nat (Z.to_nat z).

Definition encodeCursor (offset : Z) : string :=
  base64url_encode (Z_to_string offset).

Definition decodeCursor (cursor : option string) : Z :=
  match cursor with
  | None => 0%Z
  | Some c =>
      if String.eqb c "" then 0%Z
      else match parseInt10 (base64url_decode c) with
           | None => 0%Z
           | Some value => Z.max 0 value
           end
  end.

(** [xs.slice(start, end)]: a negative bound counts from the end. *)
Definition slice {A} (start stop : Z) (xs : list A) : list A :=
  let len := Z.of_nat (List.length xs) in
  let from := if (start <? 0)%Z then Z.max (len + start) 0 else Z.min start len in
  let to := if (stop <? 0)%Z then Z.max (len + stop) 0 else Z.min stop len in
  List.firstn (Z.to_nat (Z.max (to - from) 0)) (List.skipn (Z.to_nat from) xs).

Record EventsQuery := {
  cursor : option string;
  limit : option string;
  type : option string;
  q_role : option string;
}.

Definition given (o : option string) : option string :=
  match o with
  | Some s => if String.eqb s "" then None else Some s
  | None => None
  end.

(** [events.filter((event) => event.event_type === typeFilter)] *)
Fixpoint filter_type (typeFilter : string) (events : list jsval) : result (list jsval) :=
  match events with
  | [] => Ok []
  | event :: rest =>
      t ← Js.getp event "event_type";
      kept ← filter_type typeFilter rest;
      Ok (if Js.strict_eq t (JStr typeFilter) then event :: kept else kept)
  end.

(** [events.filter((event) => event.actor.role === roleFilter)] *)
Fixpoint filter_role (roleFilter : string) (events : list jsval) : result (list jsval) :=
  match events with
  | [] => Ok []
  | event :: rest =>
      a ← Js.getp event "actor";
      r ← Js.getp a "role";
      kept ← filter_role roleFilter rest;
      Ok (if Js.strict_eq r (JStr roleFilter) then event :: kept else kept)
  end.

(** [{ cursor, ...event }] *)
Definition with_cursor (c : string) (event : jsval) : jsval :=
  let props := match event with
               | JObj ps => ps
               | JArr items => Js.index_props 0 items
               | JStr s => Js.char_props 0 s
               | _ => []
               end in
  JObj (List.fold_left (fun acc p => Js.set_prop (fst p) (snd p) acc) props
                       [("cursor", JStr c)]).

Fixpoint number_items (offset : Z) (index : Z) (events : list jsval) : list jsval :=
  match events with
  | [] => []
  | event :: rest =>
      with_cursor (encodeCursor (offset + index + 1)) event
      :: number_items offset (index + 1) rest
  end.

Record EventsPage := {
  items : list jsval;
  next_cursor : option string;
}.

(** GET /api/traces/:trace_id/events *)
Definition getEvents (w : World) (traceId : string) (query : EventsQuery)
  : result EventsPage * World :=
  let offset := decodeCursor (cursor query) in
  let requested := match parseInt10 (default "100" (limit query)) with
                   | Some n => if (n =? 0)%Z then 100%Z else n
                   | None => 100%Z
                   end in
  let limit := Z.min requested 1000 in
  let '(events, w') := Ledger.readEvents w traceId true in
  let filtered :=
    byType ← match given (type query) with
             | Some t => filter_type t events
             | None => Ok events
             end;
    match given (q_role query) with
    | Some r => filter_role r byType
    | None => Ok byType
    end in
  match filtered with
  | Throw e => (Throw e, w')
  | Ok events =>
      let items := number_items offset 0 (slice offset (offset + limit) events) in
      let nextOffset := (offset + Z.of_nat (List.length items))%Z in
      (Ok {| items := items;
             next_cursor := if (nextOffset <? Z.of_nat (List.length events))%Z
                            then Some (encodeCursor nextOffset) else None |}, w')
  end.

(** [events.find((entry) => entry.event_id === eventId)] *)
Fixpoint find_event (eventId : string) (events : list jsval) : result (option jsval) :=
  match events with
  | [] => Ok None
  | entry :: rest =>
      match Js.getp entry "event_id" with
      | Throw e => Throw e
      | Ok v => if Js.strict_eq v (JStr eventId) then Ok (Some entry)
                else find_event eventId rest
      end
  end.

Inductive Reply (A : Type) : Type :=
| Status200 (body : A)
| Status400 (error : string)
| Status404 (error : string).
Arguments Status200 {A} body.
Arguments Status400 {A} error.
Arguments Status404 {A} error.

(** GET /api/traces/:trace_id/events/:event_id *)
Definition getEvent (w : World) (traceId eventId : string)
  : result (Reply jsval) * World :=
  let '(events, w') := Ledger.readEvents w traceId true in
  match find_event eventId events with
  | Throw e => (Throw e, w')
  | Ok None => (Ok (Status404 "event_not_found"), w')
  | Ok (Some event) => (Ok (Status200 event), w')
  end.

(** GET /api/traces/:trace_id *)
Definition getTrace (w : World) (traceId : string) : result TraceSession :=
  TraceStore.loadTrace w traceId.

(** GET /api/artifacts/:artifact_hash/metadata *)
Definition getArtifactMetadata (w : World) (artifactHash : string)
  : Reply ArtifactDescriptor :=
  if negb (Contracts.HEX_64_REGEX artifactHash) then Status400 "invalid_artifact_hash"
  else match Types.descriptor <$> sidecars w !! artifactHash with
       | None => Status404 "artifact_not_found"
       | Some d => Status200 d
       end.

(** GET /api/traces/:trace_id/reports/latest *)
Definition getLatestReport (w : World) (traceId : string) : Reply VerificationReport :=
  match latest (dir_of w traceId) with
  | None => Status404 "report_not_found"
  | Some r => Status200 r
  end.

(** GET /api/traces/:trace_id/reports/:report_id *)
Definition getReport (w : World) (traceId reportId : string)
  : Reply VerificationReport :=
  match reports_json (dir_of w traceId) !! reportId with
  | None => Status404 "report_not_found"
  | Some r => Status200 r
  end.

(** POST /api/traces/:trace_id/verify *)
Definition postVerify (w : World) (traceId freshReportId : string)
  : result VerificationReport * World :=
  let '(out, w') :=
    Verifier.verifyTrace w
      {| Verifier.in_trace_id := traceId; Verifier.in_policy_profile := None;
         Verifier.write_reports := None; Verifier.in_report_id := None;
         Verifier.allow_incomplete_finalization := false |} freshReportId in
  (Verifier.report <$> out, w').

End WithRuntime.
End Api.

(* ===================================================================== *)
(** * A reference implementation of the runtime *)
(* ===================================================================== *)

(** SHA-256 (FIPS 180-4) over the bytes of a string, with 32-bit words as
    binary naturals reduced modulo 2^32. *)
Module Sha256.
Local Open Scope N_scope.

Definition w32 (x : N) : N := N.land x 4294967295.
Definition add32 (x y : N) : N := w32 (x + y).
Definition rotr (n x : N) : N :=
  w32 (N.lor (N.shiftr x n) (N.shiftl x (32 - n))).
Definition shr (n x : N) : N := N.shiftr x n.

Definition Ch (x y z : N) : N :=
  N.lxor (N.land x y) (N.land (N.lxor x 4294967295) z).
Definition Maj (x y z : N) : N :=
  N.lxor (N.lxor (N.land x y) (N.land x z)) (N.land y z).
Definition Sigma0 (x : N) : N := N.lxor (N.lxor (rotr 2 x) (rotr 13 x)) (rotr 22 x).
Definition Sigma1 (x : N) : N := N.lxor (N.lxor (rotr 6 x) (rotr 11 x)) (rotr 25 x).
Definition sigma0 (x : N) : N := N.lxor (N.lxor (rotr 7 x) (rotr 18 x)) (shr 3 x).
Definition sigma1 (x : N) : N := N.lxor (N.lxor (rotr 17 x) (rotr 19 x)) (shr 10 x).

Definition K : list N :=
  [
   1116352408; 1899447441; 3049323471; 3921009573; 961987163; 1508970993;
   2453635748; 2870763221; 3624381080; 310598401; 607225278; 1426881987;
   1925078388; 2162078206; 2614888103; 3248222580; 3835390401; 4022224774;
   264347078; 604807628; 770255983; 1249150122; 1555081692; 1996064986;
   2554220882; 2821834349; 2952996808; 3210313671; 3336571891; 3584528711;
   113926993; 338241895; 666307205; 773529912; 1294757372; 1396182291;
   1695183700; 1986661051; 2177026350; 2456956037; 2730485921; 2820302411;
   3259730800; 3345764771; 3516065817; 3600352804; 4094571909; 275423344;
   430227734; 506948616; 659060556; 883997877; 958139571; 1322822218;
   1537002063; 1747873779; 1955562222; 2024104815; 2227730452; 2361852424;
   2428436474; 2756734187; 3204031479; 3329325298
  ].

Definition H0 : list N :=
  [
   1779033703; 3144134277; 1013904242; 2773480762;
   1359893119; 2600822924; 528734635; 1541459225
  ].

Fixpoint bytes_of (s : string) : list N :=
  match s with
  | EmptyString => []
  | String c r => N_of_ascii c :: bytes_of r
  end.

(** The message followed by the bit 1, zero bits up to 56 modulo 64 bytes,
    and the length in bits as a 64-bit big-endian number. *)
Definition be_bytes (width : nat) (x : N) : list N :=
  List.map (fun i => N.land (N.shiftr x (8 * N.of_nat i)) 255)
           (List.rev (List.seq 0 width)).

Definition pad (msg : list N) : list N :=
  let len := List.length msg in
  let zeros := Nat.modulo (64 + 55 - Nat.modulo len 64)%nat 64 in
  msg ++ [128] ++ List.repeat 0 zeros ++ be_bytes 8 (8 * N.of_nat len).

Fixpoint words (fuel : nat) (bs : list N) : list N :=
  match fuel, bs with
  | S f, a :: b :: c :: d :: r =>
      (N.shiftl a 24 + N.shiftl b 16 + N.shiftl c 8 + d) :: words f r
  | _, _ => []
  end.

Fixpoint blocks (fuel : nat) (ws : list N) : list (list N) :=
  match fuel, ws with
  | _, [] => []
  | 0%nat, _ => []
  | S f, _ => List.firstn 16 ws :: blocks f (List.skipn 16 ws)
  end.

Definition nth_word (i : nat) (ws : list N) : N := List.nth i ws 0.

(** The message schedule, most recent word first. *)
Fixpoint extend (n : nat) (rev_ws : list N) : list N :=
  match n with
  | 0%nat => rev_ws
  | S n' =>
      let w := add32 (add32 (sigma1 (nth_word 1 rev_ws)) (nth_word 6 rev_ws))
                     (add32 (sigma0 (nth_word 14 rev_ws)) (nth_word 15 rev_ws)) in
      extend n' (w :: rev_ws)
  end.

Definition schedule (block : list N) : list N :=
  List.rev (extend 48 (List.rev block)).

Definition round (st : list N) (kw : N * N) : list N :=
  match st with
  | [a; b; c; d; e; f; g; h] =>
      let t1 := add32 (add32 (add32 h (Sigma1 e)) (add32 (Ch e f g) (fst kw))) (snd kw) in
      let t2 := add32 (Sigma0 a) (Maj a b c) in
      [add32 t1 t2; a; b; c; add32 d t1; e; f; g]
  | _ => st
  end.

Definition compress (h : list N) (block : list N) : list N :=
  let final := List.fold_left round (List.combine K (schedule block)) h in
  List.map (fun p => add32 (fst p) (snd p)) (List.combine h final).

Definition digest (s : string) : list N :=
  let padded := pad (bytes_of s) in
  let ws := words (List.length padded) padded in
  List.fold_left compress (blocks (List.length ws) ws) H0.

Definition hex_of_word (x : N) : string :=
  List.fold_right
    (fun i acc => String (Str.hex_digit (N.to_nat (N.land (N.shiftr x (4 * N.of_nat i)) 15))) acc)
    "" (List.rev (List.seq 0 8)).

Definition hex (s : string) : string :=
  List.fold_right (fun w acc => hex_of_word w +:+ acc) "" (digest s).

(** The test vectors of FIPS 180-4 for the empty message and for "abc". *)
Example digest_empty :
  hex "" = "e3b0c44298fc1c149afbf4c8996fb92427ae41e4649b934ca495991b7852b855".
Proof. vm_compute. reflexivity. Qed.

Example digest_abc :
  hex "abc" = "ba7816bf8f01cfea414140de5dae2223b00361a396177a9cb410ff61f20015ad".
Proof. vm_compute. reflexivity. Qed.

End Sha256.

(** An executable runtime, used to evaluate the embedding on concrete inputs.
    [JSON.parse] and [JSON.stringify] follow ECMA-404 and ECMA-262 on values
    whose numbers have at most fifteen significant digits; hashing is SHA-256;
    collation follows the root collation of the Unicode Collation Algorithm on
    ASCII letters and digits; NFC is the identity, as it is on ASCII.  The
    signature scheme is a stand-in with the interface of Ed25519, not that
    algorithm. *)
Module Ref.
Import Types.

(** ** Numbers *)

Local Open Scope Z_scope.

(** [a / b] rounded to the nearest integer, a tie to the even one. *)
Definition round_div (a b : Z) : Z :=
  let q := a / b in
  let r := a mod b in
  if 2 * r <? b then q
  else if b <? 2 * r then q + 1
  else if Z.even q then q else q + 1.

Definition scaled (num den shift : Z) : Z :=
  if 0 <=? shift then round_div (num * 2 ^ shift) den
  else round_div num (den * 2 ^ (- shift)).

(** The double nearest to the rational [num / den], for [num >= 0] and
    [den > 0]: the quotient is scaled to 53 bits, or to the spacing 2^-1074
    of the subnormal numbers, and rounded once. *)
Definition nearest_double (num den : Z) : float :=
  if num =? 0 then 0%float
  else
    let e0 := Z.log2 num - Z.log2 den in
    let below := if 0 <=? e0 then num <? den * 2 ^ e0 else num * 2 ^ (- e0) <? den in
    let e := if below then e0 - 1 else e0 in
    let shift := Z.min (52 - e) 1074 in
    let q := scaled num den shift in
    let '(q, shift) := if q =? 2 ^ 53 then (2 ^ 52, shift - 1) else (q, shift) in
    if q =? 0 then 0%float
    else if 972 <=? - shift then PrimFloat.infinity
    else FloatOps.SF2Prim (SpecFloat.S754_finite false (Z.to_pos q) (- shift)).

(** The value of a finite double other than zero as [num / den]. *)
Definition exact (f : float) : option (Z * Z) :=
  match FloatOps.Prim2SF f with
  | SpecFloat.S754_finite _ m e =>
      Some (if 0 <=? e then (Z.pos m * 2 ^ e, 1) else (Z.pos m, 2 ^ (- e)))
  | _ => None
  end.

Fixpoint Z_digits_from (fuel : nat) (z : Z) (acc : string) : string :=
  match fuel with
  | O => acc
  | S fuel' =>
      let acc' := String (ascii_of_N (48 + Z.to_N (z mod 10))) acc in
      if z / 10 =? 0 then acc' else Z_digits_from fuel' (z / 10) acc'
  end.

(** The decimal digits of a natural number. *)
Definition Z_digits (z : Z) : string :=
  Z_digits_from (S (Z.to_nat (Z.log2 z))) z "".

Definition pow10_ratio (num den p : Z) : Z * Z :=
  if 0 <=? p then (num * 10 ^ p, den) else (num, den * 10 ^ (- p)).

(** The [n] with [10^(n-1) <= num/den < 10^n]. *)
Fixpoint decimal_exponent_below (fuel : nat) (num den : Z) (j : Z) : Z :=
  match fuel with
  | O => 1 - j
  | S fuel' =>
      if den <=? num * 10 ^ j then 1 - j
      else decimal_exponent_below fuel' num den (j + 1)
  end.

Definition decimal_exponent (num den : Z) : Z :=
  if den <=? num then Z.of_nat (String.length (Z_digits (num / den)))
  else decimal_exponent_below 400 num den 1.

(** The fewest significant digits whose decimal reads back as [f], with the
    decimal exponent: step 5 of Number::toString. *)
Fixpoint shortest (fuel : nat) (k : Z) (f : float) (num den n : Z) : string * Z :=
  let '(a, b) := pow10_ratio num den (k - n) in
  let c := round_div a b in
  let '(c, n') := if c =? 10 ^ k then (10 ^ (k - 1), n + 1) else (c, n) in
  let '(x, y) := pow10_ratio c 1 (n' - k) in
  match fuel with
  | O => (Z_digits c, n')
  | S fuel' =>
      if PrimFloat.eqb (nearest_double x y) f then (Z_digits c, n')
      else shortest fuel' (k + 1) f num den n
  end.

Definition zeros (n : Z) : string := Str.replicate (Z.to_nat n) "0"%char.

Definition format_digits (s : string) (n : Z) : string :=
  let k := Z.of_nat (String.length s) in
  if (k <=? n) && (n <=? 21) then s +:+ zeros (n - k)
  else if (0 <? n) && (n <=? 21) then
    Str.take (Z.to_nat n) s +:+ "." +:+ Str.drop (Z.to_nat n) s
  else if (-6 <? n) && (n <=? 0) then "0." +:+ zeros (- n) +:+ s
  else
    let e := n - 1 in
    let tail := (if e <? 0 then "e-" else "e+") +:+ Z_digits (Z.abs e) in
    if k =? 1 then s +:+ tail
    else Str.take 1 s +:+ "." +:+ Str.drop 1 s +:+ tail.

(** Number::toString of ECMA-262. *)
Definition toString_number (f : float) : string :=
  if PrimFloat.is_nan f then "NaN"
  else if PrimFloat.is_zero f then "0"
  else if PrimFloat.is_infinity f then
    (if PrimFloat.get_sign f then "-Infinity" else "Infinity")
  else
    match exact (PrimFloat.abs f) with
    | Some (num, den) =>
        let '(s, n) :=
          shortest 17 1 (PrimFloat.abs f) num den (decimal_exponent num den) in
        (if PrimFloat.get_sign f then "-" else "") +:+ format_digits s n
    | None => "NaN"
    end.

(** [x.toFixed(2)]: the integer nearest to [100 x], the larger of two, with
    two fractional digits; from 10^21 on it is ToString. *)
Definition toFixed2 (f : float) : string :=
  if PrimFloat.is_nan f then "NaN"
  else
    match exact (PrimFloat.abs f) with
    | Some (num, den) =>
        if 10 ^ 21 * den <=? num then toString_number f
        else
          let n := (2 * 100 * num + den) / (2 * den) in
          let body := Z_digits (n / 100) +:+ "."
                      +:+ (if n mod 100 <? 10 then "0" else "") +:+ Z_digits (n mod 100) in
          (if PrimFloat.ltb f 0%float then "-" else "") +:+ body
    | None => if PrimFloat.is_zero f then "0.00" else toString_number f
    end.

Local Close Scope Z_scope.

(** ** Collation *)

Definition is_upper (c : ascii) : bool := Contracts.in_range 65 90 c.
Definition is_letter (c : ascii) : bool := is_upper c || Contracts.lower c.

(** Primary weight: punctuation, then digits, then letters without case. *)
Definition primary (c : ascii) : nat :=
  let n := Str.code c in
  if is_upper c then 1000 + n + 32
  else if Contracts.lower c then 1000 + n
  else if Contracts.digit c then 500 + n
  else n.

Fixpoint compare_by (w : ascii -> nat) (a b : string) : Z :=
  match a, b with
  | EmptyString, EmptyString => 0
  | EmptyString, String _ _ => -1
  | String _ _, EmptyString => 1
  | String x a', String y b' =>
      if w x <? w y then -1
      else if w y <? w x then 1
      else compare_by w a' b'
  end.

(** Strings that differ in a letter or digit are ordered by the first such
    difference; strings equal up to case are ordered by the first difference
    of case, the lower case first. *)
Definition localeCompare (a b : string) : Z :=
  match compare_by primary a b with
  | 0%Z => compare_by (fun c => if is_upper c then 1 else 0) a b
  | z => z
  end.

(** ** JSON text *)

Definition json_space (c : ascii) : bool :=
  let n := Str.code c in (n =? 32) || (n =? 9) || (n =? 10) || (n =? 13).

Fixpoint skip_ws (s : string) : string :=
  match s with
  | String c r => if json_space c then skip_ws r else s
  | EmptyString => s
  end.

Definition hex_value (c : ascii) : option nat :=
  let n := Str.code c in
  if Contracts.digit c then Some (n - 48)
  else if Contracts.in_range 97 102 c then Some (n - 87)
  else if Contracts.in_range 65 70 c then Some (n - 55)
  else None.

Definition hex4 (s : string) : option (nat * string) :=
  match s with
  | String a (String b (String c (String d r))) =>
      x ← hex_value a; y ← hex_value b; z ← hex_value c; w ← hex_value d;
      Some (((x * 16 + y) * 16 + z) * 16 + w, r)
  | _ => None
  end.

Definition byte (n : nat) : ascii := ascii_of_nat n.

(** The UTF-8 bytes of a code point; a lone surrogate becomes U+FFFD. *)
Definition utf8 (cp : nat) : string :=
  if cp <? 128 then String (byte cp) ""
  else if cp <? 2048 then
    String (byte (192 + cp / 64)) (String (byte (128 + cp mod 64)) "")
  else if (55296 <=? cp) && (cp <=? 57343) then
    String (byte 239) (String (byte 191) (String (byte 189) ""))
  else if cp <? 65536 then
    String (byte (224 + cp / 4096))
      (String (byte (128 + (cp / 64) mod 64)) (String (byte (128 + cp mod 64)) ""))
  else
    String (byte (240 + cp / 262144))
      (String (byte (128 + (cp / 4096) mod 64))
         (String (byte (128 + (cp / 64) mod 64)) (String (byte (128 + cp mod 64)) ""))).

(** The characters of a string literal after its opening quotation mark. *)
Fixpoint parse_chars (fuel : nat) (s : string) (acc : string) : option (string * string) :=
  match fuel with
  | 0 => None
  | S fuel' =>
      match s with
      | EmptyString => None
      | String c r =>
          let n := Str.code c in
          if n =? 34 then Some (acc, r)
          else if n <? 32 then None
          else if n =? 92 then
            match r with
            | String e r' =>
                let m := Str.code e in
                let simple (b : nat) := parse_chars fuel' r' (acc +:+ String (byte b) "") in
                if m =? 34 then simple 34
                else if m =? 92 then simple 92
                else if m =? 47 then simple 47
                else if m =? 98 then simple 8
                else if m =? 102 then simple 12
                else if m =? 110 then simple 10
                else if m =? 114 then simple 13
                else if m =? 116 then simple 9
                else if m =? 117 then
                  match hex4 r' with
                  | Some (hi, r'') =>
                      if (55296 <=? hi) && (hi <=? 56319) then
                        match r'' with
                        | String b1 (String b2 r3) =>
                            if (Str.code b1 =? 92) && (Str.code b2 =? 117) then
                              match hex4 r3 with
                              | Some (lo, r4) =>
                                  if (56320 <=? lo) && (lo <=? 57343) then
                                    parse_chars fuel' r4
                                      (acc +:+ utf8 (65536 + (hi - 55296) * 1024
                                                     + (lo - 56320)))
                                  else parse_chars fuel' r'' (acc +:+ utf8 hi)
                              | None => None
                              end
                            else parse_chars fuel' r'' (acc +:+ utf8 hi)
                        | _ => parse_chars fuel' r'' (acc +:+ utf8 hi)
                        end
                      else parse_chars fuel' r'' (acc +:+ utf8 hi)
                  | None => None
                  end
                else None
            | EmptyString => None
            end
          else parse_chars fuel' r (acc +:+ String c "")
      end
  end.

Fixpoint take_digits (s : string) (acc : string) : string * string :=
  match s with
  | String c r => if Contracts.digit c then take_digits r (acc +:+ String c "") else (acc, s)
  | EmptyString => (acc, s)
  end.

Fixpoint digits_value (s : string) (acc : Z) : Z :=
  match s with
  | String c r => digits_value r (acc * 10 + Z.of_nat (Str.code c - 48))%Z
  | EmptyString => acc
  end.

(** [mantissa * 10^exponent] as a double, rounded to nearest. *)
Definition scale10 (mantissa : Z) (exponent : Z) : float :=
  let '(num, den) := pow10_ratio mantissa 1 exponent in nearest_double num den.

Definition parse_number (s : string) : option (float * string) :=
  let '(negative, s1) :=
    match s with
    | String c r => if Str.code c =? 45 then (true, r) else (false, s)
    | EmptyString => (false, s)
    end in
  let '(int, s2) := take_digits s1 "" in
  if String.eqb int "" then None
  else if (1 <? String.length int) && String.prefix "0" int then None
  else
    let frac_part :=
      match s2 with
      | String c r =>
          if Str.code c =? 46 then
            let '(frac, s3) := take_digits r "" in
            if String.eqb frac "" then None else Some (frac, s3)
          else Some ("", s2)
      | EmptyString => Some ("", s2)
      end in
    match frac_part with
    | None => None
    | Some (frac, s3) =>
        let exp_part :=
          match s3 with
          | String c r =>
              if (Str.code c =? 101) || (Str.code c =? 69) then
                let '(minus, r1) :=
                  match r with
                  | String d r' =>
                      if Str.code d =? 45 then (true, r')
                      else if Str.code d =? 43 then (false, r') else (false, r)
                  | EmptyString => (false, r)
                  end in
                let '(ds, s4) := take_digits r1 "" in
                if String.eqb ds "" then None
                else Some ((if minus then - digits_value ds 0 else digits_value ds 0)%Z, s4)
              else Some (0%Z, s3)
          | EmptyString => Some (0%Z, s3)
          end in
        match exp_part with
        | None => None
        | Some (e, s4) =>
            let mantissa := digits_value (int +:+ frac) 0 in
            let magnitude := scale10 mantissa (e - Z.of_nat (String.length frac)) in
            Some (if negative then PrimFloat.opp magnitude else magnitude, s4)
        end
    end.

Definition expect (lit : string) (v : jsval) (s : string) : option (jsval * string) :=
  if String.prefix lit s then Some (v, Str.drop (String.length lit) s) else None.

(** The elements of an array after its opening bracket. *)
Fixpoint parse_elements (value : string -> option (jsval * string)) (fuel : nat)
    (s : string) (acc : list jsval) : option (jsval * string) :=
  match fuel with
  | 0 => None
  | S fuel' =>
      match value s with
      | None => None
      | Some (v, r) =>
          match skip_ws r with
          | String c r' =>
              if Str.code c =? 44 then parse_elements value fuel' r' (acc ++ [v])
              else if Str.code c =? 93 then Some (JArr (acc ++ [v]), r')
              else None
          | EmptyString => None
          end
      end
  end.

(** The members of an object after its opening brace; a repeated key keeps
    its first place and takes the last value. *)
Fixpoint parse_members (value : string -> option (jsval * string)) (fuel : nat)
    (s : string) (acc : list (string * jsval)) : option (jsval * string) :=
  match fuel with
  | 0 => None
  | S fuel' =>
      match skip_ws s with
      | String q r =>
          if Str.code q =? 34 then
            match parse_chars (S (String.length r)) r "" with
            | None => None
            | Some (k, r1) =>
                match skip_ws r1 with
                | String colon r2 =>
                    if Str.code colon =? 58 then
                      match value r2 with
                      | None => None
                      | Some (v, r3) =>
                          let acc' := Js.set_prop k v acc in
                          match skip_ws r3 with
                          | String c r4 =>
                              if Str.code c =? 44 then parse_members value fuel' r4 acc'
                              else if Str.code c =? 125 then Some (JObj acc', r4)
                              else None
                          | EmptyString => None
                          end
                      end
                    else None
                | EmptyString => None
                end
            end
          else None
      | EmptyString => None
      end
  end.

Fixpoint parse_value (fuel : nat) (s : string) : option (jsval * string) :=
  match fuel with
  | 0 => None
  | S fuel' =>
      match skip_ws s with
      | EmptyString => None
      | String c r =>
          let n := Str.code c in
          if n =? 123 then
            match skip_ws r with
            | String d r' =>
                if Str.code d =? 125 then Some (JObj [], r')
                else parse_members (parse_value fuel') (String.length r) r []
            | EmptyString => None
            end
          else if n =? 91 then
            match skip_ws r with
            | String d r' =>
                if Str.code d =? 93 then Some (JArr [], r')
                else parse_elements (parse_value fuel') (String.length r) r []
            | EmptyString => None
            end
          else if n =? 34 then
            match parse_chars (S (String.length r)) r "" with
            | Some (text, r') => Some (JStr text, r')
            | None => None
            end
          else if n =? 116 then expect "true" (JBool true) (String c r)
          else if n =? 102 then expect "false" (JBool false) (String c r)
          else if n =? 110 then expect "null" JNull (String c r)
          else match parse_number (String c r) with
               | Some (x, r') => Some (JNum x, r')
               | None => None
               end
      end
  end.

Definition parse (text : string) : option jsval :=
  match parse_value (S (String.length text)) text with
  | Some (v, r) => if String.eqb (skip_ws r) "" then Some v else None
  | None => None
  end.

(** ** JSON.stringify *)

(** [None] is [undefined]: such a property is omitted and such an array
    element is written [null]. *)
Fixpoint stringify (v : jsval) : option string :=
  match v with
  | JUndef => None
  | JNull => Some "null"
  | JBool b => Some (if b then "true" else "false")
  | JNum n => Some (if PrimFloat.is_finite n then toString_number n else "null")
  | JStr s => Some (Canon.QuoteJSONString s)
  | JArr items =>
      let fix each (l : list jsval) : list string :=
        match l with
        | [] => []
        | x :: r => default "null" (stringify x) :: each r
        end in
      Some ("[" +:+ Str.join "," (each items) +:+ "]")
  | JObj props =>
      let fix each (l : list (string * jsval)) : list string :=
        match l with
        | [] => []
        | (k, x) :: r =>
            match stringify x with
            | Some text => (Canon.QuoteJSONString k +:+ ":" +:+ text) :: each r
            | None => each r
            end
        end in
      Some ("{" +:+ Str.join "," (each props) +:+ "}")
  end.

Definition stringify_text (v : jsval) : string := default "undefined" (stringify v).

(** ** ToString of objects and arrays *)

(** An array joins the strings of its elements with commas, [null] and
    [undefined] giving the empty string; an object gives "[object Object]"
    unless an own property hides [toString] with a value that cannot be
    called. *)
Fixpoint object_toString (v : jsval) : result string :=
  match v with
  | JUndef | JNull => Ok ""
  | JBool b => Ok (if b then "true" else "false")
  | JNum n => Ok (toString_number n)
  | JStr s => Ok s
  | JArr items =>
      let fix each (l : list jsval) : result (list string) :=
        match l with
        | [] => Ok []
        | x :: r =>
            match object_toString x with
            | Throw e => Throw e
            | Ok y => match each r with Throw e => Throw e | Ok ys => Ok (y :: ys) end
            end
        end in
      match each items with
      | Throw e => Throw e
      | Ok parts => Ok (Str.join "," parts)
      end
  | JObj props =>
      if List.existsb (fun p => String.eqb (fst p) "toString") props
      then Throw TypeError
      else Ok "[object Object]"
  end.

(** ** base64url *)

Definition b64_char (n : N) : ascii :=
  ascii_of_N (if (n <? 26)%N then 65 + n
              else if (n <? 52)%N then 71 + n
              else if (n <? 62)%N then n - 4
              else if (n =? 62)%N then 45 else 95).

Definition b64_value (c : ascii) : option N :=
  let n := N_of_ascii c in
  if ((65 <=? n) && (n <=? 90))%N then Some (n - 65)%N
  else if ((97 <=? n) && (n <=? 122))%N then Some (n - 71)%N
  else if ((48 <=? n) && (n <=? 57))%N then Some (n + 4)%N
  else if ((n =? 45) || (n =? 43))%N then Some 62%N
  else if ((n =? 95) || (n =? 47))%N then Some 63%N
  else None.

Fixpoint b64url_encode (s : string) : string :=
  match s with
  | String a (String b (String c r)) =>
      let x := (N_of_ascii a * 65536 + N_of_ascii b * 256 + N_of_ascii c)%N in
      String (b64_char (x / 262144)) (String (b64_char ((x / 4096) mod 64))
        (String (b64_char ((x / 64) mod 64)) (String (b64_char (x mod 64))
           (b64url_encode r))))
  | String a (String b EmptyString) =>
      let x := (N_of_ascii a * 65536 + N_of_ascii b * 256)%N in
      String (b64_char (x / 262144)) (String (b64_char ((x / 4096) mod 64))
        (String (b64_char ((x / 64) mod 64)) ""))
  | String a EmptyString =>
      let x := (N_of_ascii a * 65536)%N in
      String (b64_char (x / 262144)) (String (b64_char ((x / 4096) mod 64)) "")
  | EmptyString => ""
  end.

(** Decoding stops at the first character outside the alphabet. *)
Fixpoint b64_values (s : string) : list N :=
  match s with
  | String c r => match b64_value c with Some v => v :: b64_values r | None => [] end
  | EmptyString => []
  end.

Fixpoint b64_bytes (fuel : nat) (vs : list N) : string :=
  match fuel with
  | 0 => ""
  | S fuel' =>
      match vs with
      | a :: b :: c :: d :: r =>
          let x := (a * 262144 + b * 4096 + c * 64 + d)%N in
          String (ascii_of_N (x / 65536)) (String (ascii_of_N ((x / 256) mod 256))
            (String (ascii_of_N (x mod 256)) (b64_bytes fuel' r)))
      | [a; b; c] =>
          let x := (a * 262144 + b * 4096 + c * 64)%N in
          String (ascii_of_N (x / 65536)) (String (ascii_of_N ((x / 256) mod 256)) "")
      | [a; b] =>
          String (ascii_of_N ((a * 262144 + b * 4096) / 65536)%N) ""
      | _ => ""
      end
  end.

Definition b64url_decode (s : string) : string :=
  let vs := b64_values s in b64_bytes (List.length vs) vs.

(** ** The instances *)

#[export] Instance runtime : JsRuntime := {|
  Number_toString := toString_number;
  Number_toFixed2 := toFixed2;
  String_normalize_NFC := fun s => s;
  String_localeCompare := localeCompare;
  JSON_parse := parse;
  JSON_stringify := stringify_text;
  Object_toString := object_toString;
  Abstract_ge_string := fun _ _ => false;
  base64url_encode := b64url_encode;
  base64url_decode := b64url_decode;
  Zod_issue_message := fun _ => "Required";
|}.

(** A key pair is made of one seed: the private key is "PRIVATE " followed by
    the seed and the public key "PUBLIC " followed by it.  A signature is the
    hash of the seed and the signed bytes. *)
Definition seed_of (label pem : string) : result string :=
  if String.prefix label pem then Ok (Str.drop (String.length label) pem)
  else Throw NodeError.

Definition sign (privateKeyPem bytes : string) : result string :=
  seed ← seed_of "PRIVATE " privateKeyPem;
  Ok (Sha256.hex (seed +:+ ":" +:+ bytes)).

Definition verify (publicKeyPem bytes : string) (sig : jsval) : result bool :=
  seed ← seed_of "PUBLIC " publicKeyPem;
  match sig with
  | JStr text => Ok (String.eqb text (Sha256.hex (seed +:+ ":" +:+ bytes)))
  | _ => Throw TypeError
  end.

#[export] Instance crypto : CryptoLib := {|
  sha256Hex := Sha256.hex;
  ed25519_sign := sign;
  ed25519_verify := verify;
|}.

(** A clock that advances one millisecond per reading. *)
Definition iso_ms (n : nat) : string :=
  let ms := Str.of_nat (Nat.modulo n 1000) in
  "2026-01-01T00:00:00." +:+ Str.replicate (3 - String.length ms) "0"%char
  +:+ ms +:+ "Z".

#[export] Instance clock : Clock := {|
  nowIso_at := iso_ms;
  elapsed_at := fun _ => 1%float;
  duration := 10%float;
|}.

End Ref.

(* ===================================================================== *)
(** * tests/core-primitives.test.ts: the helpers of the tamper scenarios *)
(* ===================================================================== *)

Module TestHelpers.
Section WithRuntime.
Context {RT : JsRuntime}.
Import Types Files.

(** [writeEvents]: the events file is rewritten with one line per event. *)
Definition writeEvents (w : World) (traceId : string) (events : list jsval) : World :=
  set_dir w traceId
    (set_events (dir_of w traceId)
       (Some (Str.join (String Str.lf "") (List.map JSON_stringify events)
              +:+ String Str.lf ""))).

(** [target.payload = payload] on the first event of the given type. *)
Fixpoint replace_payload (eventType : string) (payload : jsval) (events : list jsval)
  : list jsval :=
  match events with
  | [] => []
  | JObj props :: rest =>
      if Js.strict_eq (Js.lookup_prop "event_type" props) (JStr eventType)
      then JObj (Js.set_prop "payload" payload props) :: rest
      else JObj props :: replace_payload eventType payload rest
  | event :: rest => event :: replace_payload eventType payload rest
  end.

End WithRuntime.
End TestHelpers.

(* ===================================================================== *)
(** * A sample trace *)
(* ===================================================================== *)

(** A trace built with the functions of the embedding under the reference
    runtime: four registered agents, one artifact, and the events of a short
    run in the order of the protocol. *)
Module Sample.
Import Types Files Ref.

Definition at0 : string := "2026-01-01T00:00:00.000Z".

Definition agent (name key : string) : AgentIdentity :=
  {| id_agent_id := name; display_name := name; role_capabilities := [];
     id_key_id := key; public_key := "PUBLIC " +:+ name;
     key_algorithm := Contracts.SIGNATURE_ALGORITHM; id_status := "active";
     id_created_at := at0; updated_at := at0;
     revoked_at := None; revoked_reason := None |}.

Definition key_registry : KeyRegistry :=
  {| reg_schema_version := Contracts.SCHEMA_VERSION; generated_at := at0;
     identities := [agent "planner-agent" "key_p"; agent "executor-agent" "key_e";
                    agent "critic-agent" "key_c"; agent "auditor-agent" "key_a"] |}.

Definition traceId : string := "01JZ5G4JYV7RS6P7Q1R66RHCQW".
Definition ulid (suffix : string) : string := "01JZ5G4JYV7RS6P7Q1R66RHC" +:+ suffix.
Definition claimId : string := "claim_01JZ5G4JYV7RS6P7Q1R66RHCCC".

Definition created : TraceSession * World :=
  TraceStore.createTrace (set_registry empty_world (Some key_registry))
    {| TraceStore.in_task_id := "demo_task"; TraceStore.in_participants := [];
       TraceStore.in_policy_profile := "default";
       TraceStore.in_trace_id := Some traceId;
       TraceStore.in_config_fingerprint := None;
       TraceStore.in_tool_versions := None |} traceId at0.

Definition stored : ArtifactDescriptor * World :=
  ArtifactStore.writeArtifact (snd created)
    {| ArtifactStore.in_trace_id := traceId;
       ArtifactStore.in_producer_event_id := ulid "A1";
       ArtifactStore.bytes := "hello";
       ArtifactStore.in_media_type := "application/json";
       ArtifactStore.in_encoding := "utf-8";
       ArtifactStore.in_redaction_status := None |} "2026-01-01T00:00:00.500Z".

(** One step of the protocol: build a signed event on the current head and
    append it. *)
Definition emit (w : World) (role name key eventType : string) (payload : jsval)
    (claims : list string) (artifacts : list ArtifactDescriptor) (id : string) : World :=
  match TraceStore.loadTrace w traceId with
  | Throw _ => w
  | Ok session =>
      match EventFactory.buildSignedEvent
              {| EventFactory.in_trace_id := traceId;
                 EventFactory.in_event_type := eventType;
                 EventFactory.in_actor := {| agent_id := name; role := role; key_id := key |};
                 EventFactory.in_payload_type := "sample";
                 EventFactory.in_payload := payload;
                 EventFactory.in_claims := Some claims;
                 EventFactory.in_artifacts := Some artifacts;
                 EventFactory.in_prev_event_hash := head_event_hash session;
                 EventFactory.private_key_pem := "PRIVATE " +:+ name;
                 EventFactory.in_created_at := None;
                 EventFactory.in_event_id := Some id |} id "2026-01-01T00:00:01.000Z" with
      | Throw _ => w
      | Ok event => snd (Ledger.appendEvent w traceId event)
      end
  end.

Definition claim_payload : jsval :=
  JObj [("claim_id", JStr claimId);
        ("claim_text", JStr "Tool output is traceable.");
        ("evidence_artifacts", JArr [JStr (artifact_hash (fst stored))])].

Definition protocol_run (challenged : bool) : World :=
  let w := snd stored in
  let w := emit w "planner" "planner-agent" "key_p" "session_initialized"
             (JObj [("task_id", JStr "demo_task")]) [] [] (ulid "E1") in
  let w := emit w "planner" "planner-agent" "key_p" "proposal_created"
             (JObj [("objective", JStr "Generate accountable execution proof.")])
             [] [] (ulid "E2") in
  let w := emit w "executor" "executor-agent" "key_e" "claim_issued"
             claim_payload [claimId] [fst stored] (ulid "E3") in
  let w := emit w "executor" "executor-agent" "key_e" "final_statement_signed"
             (JObj [("final_verdict_text", JStr "done")]) [claimId] [fst stored]
             (ulid "E4") in
  let w := if challenged then
             emit w "critic" "critic-agent" "key_c" "claim_challenged"
               (JObj [("challenged_claim_id", JStr claimId);
                      ("reason", JStr "Insufficient corroborating artifacts.")])
               [claimId] [] (ulid "E5")
           else w in
  let w := emit w "auditor" "auditor-agent" "key_a" "verification_run_started"
             (JObj [("policy_profile", JStr "default")]) [] [] (ulid "E6") in
  emit w "auditor" "auditor-agent" "key_a" "verification_run_completed"
    (JObj [("verification_status", JStr "pass")]) [] [] (ulid "E7").

(** The two traces, evaluated once. *)
Definition good_trace : World := Eval vm_compute in protocol_run false.
Definition challenged_trace : World := Eval vm_compute in protocol_run true.

Definition verify_input (profile : option string) : Verifier.VerifyInput :=
  {| Verifier.in_trace_id := traceId; Verifier.in_policy_profile := profile;
     Verifier.write_reports := Some false; Verifier.in_report_id := None;
     Verifier.allow_incomplete_finalization := false |}.

Definition verify (w : World) (profile : option string)
  : result Verifier.VerifyOutput * World :=
  Verifier.verifyTrace w (verify_input profile) (ulid "R1").

Definition failure_codes (r : result Verifier.VerifyOutput) : result (list Contracts.FailureCode) :=
  (fun out => List.map failure_code (failures (Verifier.report out))) <$> r.

Definition warning_codes (r : result Verifier.VerifyOutput) : result (list string) :=
  (fun out => List.map warning_code (warnings (Verifier.report out))) <$> r.

Definition verdict (r : result Verifier.VerifyOutput) : result VerificationStatus :=
  (fun out => verification_status (Verifier.report out)) <$> r.

(** Scenario S2: the payload of the [proposal_created] event is replaced and
    the events file is rewritten. *)
Definition tampered_trace : World :=
  Eval vm_compute in
    TestHelpers.writeEvents good_trace traceId
      (TestHelpers.replace_payload "proposal_created" (JObj [("tampered", JBool true)])
         (fst (Ledger.readEvents good_trace traceId false))).

(** A trace whose events file holds the single line of an empty object, and
    one whose only event carries an identifier that is no ULID. *)
Definition with_events (text : string) : World :=
  set_dir (snd created) traceId
    (set_events (dir_of (snd created) traceId) (Some text)).

End Sample.

(* ===================================================================== *)
(** * Properties of the canonicalizer *)
(* ===================================================================== *)

Module CanonFacts.
Import Canon.

(** C5 (the code departs from the claim).  [canonicalObject] sorts the keys
    with [localeCompare], the collation of the runtime, and not by code point.
    For the object with the keys "B" and "a", in which "B" is the smaller key
    in code-point order, the canonical text puts "a" first. *)
Theorem canonicalObject_sorts_by_collation_not_code_point :
  Str.ltb "B" "a" = true
  /\ canonicalObject (RT := Ref.runtime) [("B", JNum 1%float); ("a", JNum 2%float)]
     = Ok ("{" +:+ QuoteJSONString "a" +:+ ":2," +:+ QuoteJSONString "B" +:+ ":1}").
Proof. split; vm_compute; reflexivity. Qed.

End CanonFacts.

(* ===================================================================== *)
(** * Scenarios of the verifier on the sample trace *)
(* ===================================================================== *)

Module Scenarios.
Import Contracts Types Files Ref Sample.

(** The sample trace verifies without failures or warnings (scenario S1). *)
Lemma good_trace_passes :
  verdict (fst (verify good_trace None)) = Ok verdict_pass
  /\ failure_codes (fst (verify good_trace None)) = Ok []
  /\ warning_codes (fst (verify good_trace None)) = Ok [].
Proof. split; [|split]; vm_compute; reflexivity. Qed.

(** C1 (the code departs from the claim).  After the payload of the
    [proposal_created] event of the sample trace is replaced by
    [{"tampered": true}], the verifier reports one failure, HASH_MISMATCH, and
    no SIG_INVALID: the payload is not among the signed fields. *)
Theorem payload_mutation_reports_no_SIG_INVALID :
  failure_codes (fst (verify tampered_trace None)) = Ok [HASH_MISMATCH].
Proof. vm_compute. reflexivity. Qed.

(** The first event of the sample trace, with an identifier that is no ULID. *)
Definition forged_id_trace : World :=
  Eval vm_compute in
    TestHelpers.writeEvents good_trace traceId
      (match fst (Ledger.readEvents good_trace traceId false) with
       | JObj props :: rest => JObj (Js.set_prop "event_id" (JStr "forged") props) :: rest
       | events => events
       end).

(** C8 (the code departs from the claim).  With the metadata file present,
    [verifyTrace] raises for an events file whose only line is the empty
    object: CHK_KEY_STATUS reads [event.actor.key_id] of an event that failed
    schema validation.  It also raises when a schema-invalid event carries an
    identifier that is no ULID: the failure entry that quotes the identifier is
    rejected by [verificationReportSchema.parse]. *)
Theorem verifyTrace_raises_on_schema_invalid_events :
  fst (verify (with_events "{}") None) = Throw TypeError
  /\ fst (verify forged_id_trace None) = Throw ZodError.
Proof. split; vm_compute; reflexivity. Qed.

End Scenarios.

(* ===================================================================== *)
(** * Properties of the checks of the verifier *)
(* ===================================================================== *)

Module VerifierFacts.
Import Contracts Types Files Verifier.

Section Finalization.
Context {CK : Clock}.

Lemma failures_fail_with st code sev check e a msg act :
  st_failures (fail_with st code sev check e a msg act)
  = st_failures st ++ [failure st code sev check e a msg act].
Proof. reflexivity. Qed.

Lemma failures_push_warning st x : st_failures (push_warning st x) = st_failures st.
Proof. reflexivity. Qed.

Lemma checks_push_check st c : st_checks (push_check st c) = st_checks st ++ [c].
Proof. reflexivity. Qed.

Lemma has_step_app fs gs id :
  has_step (fs ++ gs) id = has_step fs id || has_step gs id.
Proof. unfold has_step. apply existsb_app. Qed.

Lemma has_step_In fs id :
  has_step fs id = true <-> exists f, In f fs /\ verification_step f = id.
Proof.
  unfold has_step. rewrite existsb_exists. split.
  - intros (f & Hin & Hf). exists f. split; [done|]. by apply bool_decide_eq_true in Hf.
  - intros (f & Hin & Hf). exists f. split; [done|]. by apply bool_decide_eq_true.
Qed.

(** Counting the events of a type succeeds exactly when every event can be
    asked for its type, and then [findIndex] succeeds for every type. *)
Lemma count_type_findIndex ty events n :
  count_type ty events = Ok n ->
  forall ty' i, exists r, findIndex_type ty' i events = Ok r.
Proof.
  revert n. induction events as [|event rest IH]; intros n H ty' i; simpl in *.
  - by eexists.
  - destruct (Js.getp event "event_type") as [t|]; [|done].
    destruct (count_type ty rest) as [m|] eqn:E; [|done].
    destruct (Js.strict_eq t (JStr ty')); [by eexists|].
    by eapply IH.
Qed.

Lemma count_type_zero_findIndex ty events i :
  count_type ty events = Ok 0 -> findIndex_type ty i events = Ok None.
Proof.
  revert i. induction events as [|event rest IH]; intros i H; simpl in *; [done|].
  destruct (Js.getp event "event_type") as [t|]; [|done].
  destruct (count_type ty rest) as [m|] eqn:E; [|done].
  destruct (Js.strict_eq t (JStr ty)); [done|].
  apply IH. by destruct m.
Qed.

(** C6, as amended.  When the snapshot holds no [final_statement_signed]
    event, CHK_FINALIZATION_INTEGRITY emits a SCHEMA_INVALID failure of
    severity medium and the status of the check is fail. *)
Theorem finalization_requires_a_final_statement
    (allowIncomplete : bool) (events : list jsval) (st : State) :
  count_type "final_statement_signed" events = Ok 0 ->
  exists st',
    CHK_FINALIZATION allowIncomplete events st = Done st'
    /\ (exists f, In f (st_failures st')
                  /\ failure_code f = SCHEMA_INVALID
                  /\ vf_severity f = medium
                  /\ verification_step f = CHK_FINALIZATION_INTEGRITY
                  /\ vf_message f = "Missing final_statement_signed event.")
    /\ (exists c, last (st_checks st') = Some c
                  /\ check_id c = CHK_FINALIZATION_INTEGRITY
                  /\ status c = check_fail).
Proof.
  intros Hcount.
  pose proof (count_type_zero_findIndex _ _ 0 Hcount) as Hfinal.
  destruct (count_type_findIndex _ _ _ Hcount "verification_run_completed" 0) as [c Hc].
  destruct (count_type_findIndex _ _ _ Hcount "verification_run_started" 0) as [s Hs].
  unfold CHK_FINALIZATION, startCheck, finalization_body.
  rewrite Hfinal, Hc, Hs.
  set (f := failure st SCHEMA_INVALID medium CHK_FINALIZATION_INTEGRITY JUndef JUndef
              "Missing final_statement_signed event."
              "Emit final statement before verification.").
  set (st1 := fail_with st _ _ _ _ _ _ _).
  set (st2 := match s with None => fail_with st1 _ _ _ _ _ _ _ | Some _ => st1 end).
  set (st3 := match c with
              | None => if allowIncomplete then push_warning st2 _
                        else fail_with st2 _ _ _ _ _ _ _
              | Some _ => st2
              end).
  assert (H1 : In f (st_failures st1)).
  { subst st1. rewrite failures_fail_with. apply in_or_app. right. by left. }
  assert (H2 : In f (st_failures st2)).
  { subst st2. destruct s; [done|]. rewrite failures_fail_with.
    apply in_or_app. by left. }
  assert (H3 : In f (st_failures st3)).
  { subst st3. destruct c; [done|]. destruct allowIncomplete; [done|].
    rewrite failures_fail_with. apply in_or_app. by left. }
  eexists. split; [reflexivity|]. split.
  - exists f. by repeat split.
  - eexists. rewrite checks_push_check, last_snoc. split; [reflexivity|].
    split; [reflexivity|]. simpl. unfold finalization_status.
    replace (has_step (st_failures st3) CHK_FINALIZATION_INTEGRITY) with true; [done|].
    symmetry. apply has_step_In. by exists f.
Qed.

End Finalization.

(** The empty snapshot is one without a final statement. *)
Lemma finalization_requires_a_final_statement_witness :
  exists st',
    CHK_FINALIZATION (CK := Ref.clock) false [] (initial_state empty_world) = Done st'
    /\ (exists f, In f (st_failures st')
                  /\ failure_code f = SCHEMA_INVALID
                  /\ vf_severity f = medium
                  /\ verification_step f = CHK_FINALIZATION_INTEGRITY
                  /\ vf_message f = "Missing final_statement_signed event.")
    /\ (exists c, last (st_checks st') = Some c
                  /\ check_id c = CHK_FINALIZATION_INTEGRITY
                  /\ status c = check_fail).
Proof.
  apply (finalization_requires_a_final_statement (CK := Ref.clock) false []).
  reflexivity.
Defined.

Definition typed_event (ty : string) : jsval := JObj [("event_type", JStr ty)].

(** C6, the claim as stated fails.  A snapshot with two
    [final_statement_signed] events, followed by the start and the completion
    of a verification run, passes CHK_FINALIZATION_INTEGRITY without a
    failure. *)
Lemma finalization_accepts_two_final_statements :
  let events := [typed_event "final_statement_signed";
                 typed_event "final_statement_signed";
                 typed_event "verification_run_started";
                 typed_event "verification_run_completed"] in
  count_type "final_statement_signed" events = Ok 2
  /\ exists st',
       CHK_FINALIZATION (CK := Ref.clock) false events (initial_state empty_world)
       = Done st'
       /\ st_failures st' = []
       /\ List.map status (st_checks st') = [check_pass].
Proof. split; [reflexivity|]. eexists. split; [reflexivity|]. by split. Qed.

End VerifierFacts.

(* ===================================================================== *)
(** * Lines of text: [split], [join] and white space *)
(* ===================================================================== *)

Module StrFacts.

Definition sep : string := String Str.lf "".

(** A line of a file: it holds no line feed. *)
Definition no_lf (line : string) : bool :=
  Str.forallb (fun c => negb (Ascii.eqb c Str.lf)) line.

Lemma append_cons c (s t : string) : String c s +:+ t = String c (s +:+ t).
Proof. reflexivity. Qed.

Lemma append_nil_l (t : string) : "" +:+ t = t.
Proof. reflexivity. Qed.

Lemma append_nil_r (s : string) : s +:+ "" = s.
Proof. induction s as [|c s IH]; [done|]. by rewrite append_cons, IH. Qed.

Lemma append_assoc (a b c : string) : (a +:+ b) +:+ c = a +:+ (b +:+ c).
Proof. induction a as [|x a IH]; [done|]. by rewrite !append_cons, IH. Qed.

Lemma length_append (a b : string) :
  String.length (a +:+ b) = String.length a + String.length b.
Proof. induction a as [|x a IH]; [done|]. rewrite append_cons. simpl. by rewrite IH. Qed.

Lemma take_append (a b : string) : Str.take (String.length a) (a +:+ b) = a.
Proof.
  induction a as [|x a IH]; [by destruct b|]. rewrite append_cons. simpl. by rewrite IH.
Qed.

Lemma take_all (a : string) n : String.length a <= n -> Str.take n a = a.
Proof.
  revert n. induction a as [|x a IH]; intros n H; simpl in *; [by destruct n|].
  destruct n as [|n]; [lia|]. simpl. rewrite IH; [done|lia].
Qed.

Lemma length_take (a : string) n : String.length (Str.take n a) = Nat.min n (String.length a).
Proof.
  revert n. induction a as [|x a IH]; intros [|n]; simpl; try done. by rewrite IH.
Qed.

Lemma truncate_short (a : string) n : n <= String.length a -> Str.truncate n a = Str.take n a.
Proof.
  intros H. unfold Str.truncate. replace (n - String.length a) with 0 by lia.
  simpl. apply append_nil_r.
Qed.

(** ** Splitting and joining lines *)

Lemma split_no_lf (line : string) : no_lf line = true -> Str.split Str.lf line = [line].
Proof.
  induction line as [|c r IH]; simpl; [done|]. intros H.
  apply andb_true_iff in H as [Hc Hr]. apply negb_true_iff in Hc. rewrite Hc.
  by rewrite (IH Hr).
Qed.

Lemma split_append (line rest : string) :
  no_lf line = true ->
  Str.split Str.lf (line +:+ String Str.lf rest) = line :: Str.split Str.lf rest.
Proof.
  induction line as [|c r IH]; intros H.
  - reflexivity.
  - simpl in H. apply andb_true_iff in H as [Hc Hr]. apply negb_true_iff in Hc.
    rewrite append_cons. simpl. rewrite Hc. by rewrite (IH Hr).
Qed.

Lemma join_cons (line : string) (lines : list string) :
  lines <> [] -> Str.join sep (line :: lines) = line +:+ String Str.lf (Str.join sep lines).
Proof. destruct lines; [done|]. intros _. reflexivity. Qed.

Lemma split_join (lines : list string) :
  lines <> [] -> Forall (fun l => no_lf l = true) lines ->
  Str.split Str.lf (Str.join sep lines) = lines.
Proof.
  induction lines as [|l ls IH]; [done|]. intros _ H.
  inversion H as [|? ? Hl Hls]; subst.
  destruct ls as [|l' ls'].
  - simpl. by apply split_no_lf.
  - rewrite join_cons by done. rewrite split_append by done. f_equal. by apply IH.
Qed.

Lemma split_nonempty (s : string) : Str.split Str.lf s <> [].
Proof.
  induction s as [|c r IH]; simpl; [done|].
  destruct (Ascii.eqb c Str.lf); [done|]. by destruct (Str.split Str.lf r).
Qed.

Lemma join_split (s : string) : Str.join sep (Str.split Str.lf s) = s.
Proof.
  induction s as [|c r IH]; simpl; [done|].
  destruct (Ascii.eqb c Str.lf) eqn:E.
  - apply Ascii.eqb_eq in E. subst c.
    rewrite join_cons by apply split_nonempty. by rewrite append_nil_l, IH.
  - pose proof (split_nonempty r) as Hne.
    destruct (Str.split Str.lf r) as [|p ps] eqn:Es; [done|].
    destruct ps as [|p' ps'].
    + simpl in *. by rewrite IH.
    + rewrite join_cons by done. rewrite join_cons in IH by done.
      rewrite append_cons. by rewrite IH.
Qed.

Lemma join_app (xs ys : list string) :
  xs <> [] -> ys <> [] ->
  Str.join sep (xs ++ ys) = Str.join sep xs +:+ String Str.lf (Str.join sep ys).
Proof.
  induction xs as [|x xs IH]; [done|]. intros _ Hy.
  destruct xs as [|x' xs'].
  - simpl app. by rewrite join_cons.
  - specialize (IH ltac:(done) Hy). simpl app in *.
    rewrite join_cons by done. rewrite IH.
    rewrite (join_cons x) by done.
    by rewrite append_assoc, append_cons.
Qed.

(** ** White space *)

Lemma code_lf : Str.code Str.lf = 10.
Proof. reflexivity. Qed.

(** A line feed ends every white-space sequence: a string with a line feed is
    blank exactly when both sides of it are. *)
Lemma blank_append_lf_aux n : forall a b,
  String.length a <= n ->
  Str.blank (a +:+ String Str.lf b) = Str.blank a && Str.blank b.
Proof.
  induction n as [|n IH]; intros a b Hn.
  - destruct a; [|simpl in Hn; lia]. reflexivity.
  - destruct a as [|c r]; [reflexivity|].
    rewrite append_cons. cbn [Str.blank]. simpl in Hn.
    destruct (Str.ascii_space c); [apply IH; lia|].
    destruct r as [|c2 r2].
    + rewrite append_nil_l, code_lf. rewrite andb_false_r.
      destruct b as [|c3 r3]; [done|].
      rewrite !andb_false_r. reflexivity.
    + rewrite append_cons.
      destruct ((Str.code c =? 194) && (Str.code c2 =? 160)); [apply IH; simpl in Hn; lia|].
      destruct r2 as [|c3 r3].
      * rewrite append_nil_l, code_lf. cbn. rewrite !andb_false_r. reflexivity.
      * rewrite append_cons.
        match goal with |- (if ?c then _ else _) = _ => destruct c end;
          [apply IH; simpl in Hn; lia | reflexivity].
Qed.

Lemma blank_append_lf a b :
  Str.blank (a +:+ String Str.lf b) = Str.blank a && Str.blank b.
Proof. by apply (blank_append_lf_aux (String.length a)). Qed.

Lemma blank_join (lines : list string) :
  Str.blank (Str.join sep lines) = forallb Str.blank lines.
Proof.
  induction lines as [|l ls IH]; [done|].
  destruct ls as [|l' ls']; [simpl; by rewrite andb_true_r|].
  rewrite join_cons by done. rewrite blank_append_lf, IH. reflexivity.
Qed.

End StrFacts.

(* ===================================================================== *)
(** * Properties of the ledger *)
(* ===================================================================== *)

Module LedgerFacts.
Import Types Files Ledger StrFacts.

Lemma dir_of_set_dir (w : World) (t : string) (d : TraceDir) : dir_of (set_dir w t d) t = d.
Proof. unfold dir_of, set_dir. simpl. by rewrite lookup_insert_eq. Qed.

Lemma dir_of_set_dir_ne (w : World) (t t' : string) (d : TraceDir) :
  t <> t' -> dir_of (set_dir w t d) t' = dir_of w t'.
Proof. intros H. unfold dir_of, set_dir. simpl. by rewrite lookup_insert_ne. Qed.

Lemma dir_of_lookup (w : World) (t : string) (d : TraceDir) :
  traces w !! t = Some d -> dir_of w t = d.
Proof. intros H. unfold dir_of. by rewrite H. Qed.

Section WithRuntime.
Context {RT : JsRuntime}.

Definition parses (line : string) : bool :=
  match JSON_parse line with Some _ => true | None => false end.

(** A line that the loop of [readEvents] passes: blank, or a JSON text. *)
Definition line_ok (line : string) : bool := Str.blank line || parses line.

(** A line that stops the loop. *)
Definition malformed (line : string) : bool := negb (Str.blank line) && negb (parses line).

(** The values of the lines that are not blank. *)
Fixpoint parsed_lines (lines : list string) : list jsval :=
  match lines with
  | [] => []
  | line :: rest =>
      if Str.blank line then parsed_lines rest
      else match JSON_parse line with
           | Some v => v :: parsed_lines rest
           | None => parsed_lines rest
           end
  end.

(** The bytes of the lines with one line feed each. *)
Fixpoint byte_total (lines : list string) : nat :=
  match lines with
  | [] => 0
  | line :: rest => String.length line + 1 + byte_total rest
  end.

Lemma scan_good (goods more : list string) (acc : list jsval) (v : nat) :
  Forall (fun l => line_ok l = true) goods ->
  scan (goods ++ more) acc v = scan more (acc ++ parsed_lines goods) (v + byte_total goods).
Proof.
  revert acc v. induction goods as [|g gs IH]; intros acc v H.
  - simpl. by rewrite app_nil_r, Nat.add_0_r.
  - inversion H as [|? ? Hg Hgs]; subst. simpl.
    unfold line_ok, parses in Hg.
    destruct (Str.blank g).
    + rewrite IH by done. by rewrite <- !Nat.add_assoc.
    + simpl in Hg. destruct (JSON_parse g) as [x|]; [|done].
      rewrite IH by done. rewrite <- app_assoc. simpl. by rewrite <- !Nat.add_assoc.
Qed.

Lemma scan_malformed (bad : string) (rest : list string) (acc : list jsval) (v : nat) :
  malformed bad = true -> scan (bad :: rest) acc v = (acc, v, true).
Proof.
  unfold malformed, parses. intros H. simpl.
  destruct (Str.blank bad); [done|]. by destruct (JSON_parse bad).
Qed.

Lemma length_join (lines : list string) :
  lines <> [] -> String.length (Str.join sep lines) + 1 = byte_total lines.
Proof.
  induction lines as [|l ls IH]; [done|]. intros _.
  destruct ls as [|l' ls']; [simpl; lia|].
  rewrite join_cons by done. rewrite length_append. cbn [String.length].
  cbn [byte_total] in *. specialize (IH ltac:(done)). lia.
Qed.

Lemma parsed_lines_blank (lines : list string) :
  forallb Str.blank lines = true -> parsed_lines lines = [].
Proof.
  induction lines as [|l ls IH]; [done|]. simpl. intros H.
  apply andb_true_iff in H as [Hl Hls]. rewrite Hl. by apply IH.
Qed.

Lemma malformed_not_blank bad : malformed bad = true -> Str.blank bad = false.
Proof. unfold malformed. by destruct (Str.blank bad). Qed.

(** The offset of the truncation is the end of the last good line. *)
Lemma take_good_lines (goods : list string) (bad : string) (rest : list string) :
  Str.take (byte_total goods - 1) (Str.join sep (goods ++ bad :: rest)) = Str.join sep goods.
Proof.
  destruct goods as [|g gs].
  - simpl. by destruct (Str.join sep (bad :: rest)).
  - rewrite join_app by done.
    rewrite <- (length_join (g :: gs)) by done.
    replace (String.length (Str.join sep (g :: gs)) + 1 - 1)
      with (String.length (Str.join sep (g :: gs))) by lia.
    apply take_append.
Qed.

Lemma byte_total_bound (goods : list string) (bad : string) (rest : list string) :
  byte_total goods - 1 <= String.length (Str.join sep (goods ++ bad :: rest)).
Proof.
  destruct goods as [|g gs]; [simpl; lia|].
  rewrite join_app by done. rewrite length_append.
  pose proof (length_join (g :: gs) ltac:(done)). lia.
Qed.


Lemma take_good_lines_lf (goods : list string) (bad : string) (rest : list string) :
  goods <> [] ->
  Str.take (byte_total goods) (Str.join sep (goods ++ bad :: rest))
  = Str.join sep goods +:+ sep.
Proof.
  intros Hne. rewrite join_app by done.
  rewrite <- (length_join goods) by done.
  replace (Str.join sep goods +:+ String Str.lf (Str.join sep (bad :: rest)))
    with ((Str.join sep goods +:+ sep) +:+ Str.join sep (bad :: rest))
    by (by rewrite append_assoc).
  replace (String.length (Str.join sep goods) + 1)
    with (String.length (Str.join sep goods +:+ sep))
    by (by rewrite length_append).
  apply take_append.
Qed.

(** [readEvents] on a file without a malformed line. *)
Lemma readEvents_clean (w : World) (traceId : string) (lines : list string)
    (recover : bool) :
  events_jsonl (dir_of w traceId) = Some (Str.join sep lines) ->
  Forall (fun l => no_lf l = true) lines ->
  Forall (fun l => line_ok l = true) lines ->
  readEvents w traceId recover = (parsed_lines lines, w).
Proof.
  intros Hfile Hlf Hok. unfold readEvents. rewrite Hfile.
  destruct (Str.blank (Str.join sep lines)) eqn:Hb.
  - rewrite blank_join in Hb. by rewrite parsed_lines_blank.
  - assert (Hne : lines <> []) by (intros ->; done).
    rewrite split_join by done.
    rewrite <- (app_nil_r lines) at 1. by rewrite scan_good.
Qed.

(** [readEvents] with recovery on a file whose first malformed line is
    [bad]: the file is cut at [byte_total goods - 1]. *)
Lemma readEvents_malformed (w : World) (traceId : string) (goods : list string)
    (bad : string) (rest : list string) :
  events_jsonl (dir_of w traceId) = Some (Str.join sep (goods ++ bad :: rest)) ->
  Forall (fun l => no_lf l = true) (goods ++ bad :: rest) ->
  Forall (fun l => line_ok l = true) goods ->
  malformed bad = true ->
  readEvents w traceId true
  = (parsed_lines goods,
     set_dir w traceId (set_events (dir_of w traceId) (Some (Str.join sep goods)))).
Proof.
  intros Hfile Hlf Hgood Hbad.
  assert (Hblank : Str.blank (Str.join sep (goods ++ bad :: rest)) = false).
  { rewrite blank_join, forallb_app. simpl.
    rewrite (malformed_not_blank _ Hbad). by rewrite andb_false_r. }
  unfold readEvents. rewrite Hfile, Hblank.
  rewrite split_join; [|by destruct goods|done].
  rewrite scan_good by done. rewrite (scan_malformed _ _ _ _ Hbad).
  cbn [app andb Nat.add Nat.max].
  rewrite truncate_short by apply byte_total_bound.
  by rewrite take_good_lines.
Qed.

Lemma readEvents_malformed_keep (w : World) (traceId : string) (goods : list string)
    (bad : string) (rest : list string) :
  events_jsonl (dir_of w traceId) = Some (Str.join sep (goods ++ bad :: rest)) ->
  Forall (fun l => no_lf l = true) (goods ++ bad :: rest) ->
  Forall (fun l => line_ok l = true) goods ->
  malformed bad = true ->
  readEvents w traceId false = (parsed_lines goods, w).
Proof.
  intros Hfile Hlf Hgood Hbad.
  assert (Hblank : Str.blank (Str.join sep (goods ++ bad :: rest)) = false).
  { rewrite blank_join, forallb_app. simpl.
    rewrite (malformed_not_blank _ Hbad). by rewrite andb_false_r. }
  unfold readEvents. rewrite Hfile, Hblank.
  rewrite split_join; [|by destruct goods|done].
  rewrite scan_good by done. by rewrite (scan_malformed _ _ _ _ Hbad).
Qed.

Lemma join_shorter (goods : list string) (bad : string) (rest : list string) :
  malformed bad = true ->
  String.length (Str.join sep goods)
  < String.length (Str.join sep (goods ++ bad :: rest)).
Proof.
  intros Hbad. destruct goods as [|g gs].
  - assert (bad <> "") by (intros ->; done).
    simpl app. destruct rest as [|r rs].
    + simpl. destruct bad; [done|simpl; lia].
    + rewrite join_cons by done. rewrite length_append. simpl. lia.
  - rewrite join_app by done. rewrite length_append. simpl. lia.
Qed.

(** C4.  For an events file made of well-formed lines followed by a malformed
    line and anything after it, [readEvents] with recovery returns the events
    of the well-formed lines, and a second [readEvents] returns the same
    events and leaves the file as the first left it.  The file is not cut at
    the end of the last well-formed, newline-terminated line (offset
    [byte_total goods]) but one byte before it: the line feed of the last
    well-formed line is removed with the malformed tail. *)
Theorem readEvents_recovery_drops_final_line_feed
    (w : World) (traceId : string) (goods : list string) (bad : string)
    (rest : list string) :
  events_jsonl (dir_of w traceId) = Some (Str.join sep (goods ++ bad :: rest)) ->
  Forall (fun l => no_lf l = true) (goods ++ bad :: rest) ->
  Forall (fun l => line_ok l = true) goods ->
  goods <> [] ->
  malformed bad = true ->
  let raw := Str.join sep (goods ++ bad :: rest) in
  let first := readEvents w traceId true in
  fst first = parsed_lines goods
  /\ Str.take (byte_total goods) raw = Str.join sep goods +:+ sep
  /\ events_jsonl (dir_of (snd first) traceId) = Some (Str.join sep goods)
  /\ events_jsonl (dir_of (snd first) traceId) <> Some (Str.take (byte_total goods) raw)
  /\ readEvents (snd first) traceId true = (parsed_lines goods, snd first).
Proof.
  intros Hfile Hlf Hgood Hne Hbad raw first.
  subst first. rewrite (readEvents_malformed _ _ _ _ _ Hfile Hlf Hgood Hbad).
  cbn [fst snd]. rewrite dir_of_set_dir. cbn [events_jsonl set_events].
  split; [done|]. split; [by apply take_good_lines_lf|].
  split; [done|]. split.
  - subst raw. rewrite take_good_lines_lf by done. intros [= Heq].
    apply (f_equal String.length) in Heq. rewrite length_append in Heq.
    simpl in Heq. lia.
  - apply readEvents_clean.
    + by rewrite dir_of_set_dir.
    + apply Forall_app in Hlf. tauto.
    + done.
Qed.


(** ** The general shape of an events file *)

Lemma split_all_no_lf (s : string) :
  Forall (fun l => no_lf l = true) (Str.split Str.lf s).
Proof.
  induction s as [|c r IH]; simpl.
  - by constructor.
  - destruct (Ascii.eqb c Str.lf) eqn:Hc.
    + by constructor.
    + destruct (Str.split Str.lf r) as [|p ps].
      * constructor; [|done]. unfold no_lf. simpl. by rewrite Hc.
      * inversion IH as [|? ? Hp Hps]; subst. constructor; [|done].
        unfold no_lf in *. simpl. by rewrite Hc, Hp.
Qed.

Lemma malformed_line_ok (l : string) : malformed l = negb (line_ok l).
Proof. unfold malformed, line_ok. by rewrite negb_orb. Qed.

Lemma lines_cases (lines : list string) :
  Forall (fun l => line_ok l = true) lines
  \/ exists goods bad rest,
       lines = goods ++ bad :: rest
       /\ Forall (fun l => line_ok l = true) goods
       /\ malformed bad = true.
Proof.
  induction lines as [|l ls IH]; [by left|].
  destruct (line_ok l) eqn:Hl.
  - destruct IH as [IH|(goods & bad & rest & -> & Hg & Hb)].
    + left. by constructor.
    + right. exists (l :: goods), bad, rest. split; [done|]. split; [|done].
      by constructor.
  - right. exists [], l, ls. split; [done|]. split; [done|].
    by rewrite malformed_line_ok, Hl.
Qed.

Lemma file_cases (raw : string) :
  (exists lines,
      raw = Str.join sep lines
      /\ Forall (fun l => no_lf l = true) lines
      /\ Forall (fun l => line_ok l = true) lines)
  \/ (exists goods bad rest,
         raw = Str.join sep (goods ++ bad :: rest)
         /\ Forall (fun l => no_lf l = true) (goods ++ bad :: rest)
         /\ Forall (fun l => line_ok l = true) goods
         /\ malformed bad = true).
Proof.
  pose proof (split_all_no_lf raw) as Hlf.
  pose proof (join_split raw) as Hjoin.
  destruct (lines_cases (Str.split Str.lf raw))
    as [Hok|(goods & bad & rest & Heq & Hg & Hb)].
  - left. by exists (Str.split Str.lf raw).
  - right. exists goods, bad, rest. rewrite <- Heq. done.
Qed.

Definition file_prefix (a b : option string) : bool :=
  match a, b with
  | Some x, Some y => String.prefix x y
  | None, None => true
  | _, _ => false
  end.

Lemma prefix_refl (s : string) : String.prefix s s = true.
Proof.
  induction s as [|c r IH]; [done|]. simpl. by destruct (ascii_dec c c).
Qed.

Lemma prefix_append (a b : string) : String.prefix a (a +:+ b) = true.
Proof.
  induction a as [|c r IH]; [by destruct b|]. rewrite append_cons. cbn [String.prefix].
  destruct (ascii_dec c c); [exact IH|done].
Qed.

Lemma file_prefix_refl (a : option string) : file_prefix a a = true.
Proof. destruct a; [apply prefix_refl|done]. Qed.

Lemma prefix_join (goods : list string) (bad : string) (rest : list string) :
  String.prefix (Str.join sep goods) (Str.join sep (goods ++ bad :: rest)) = true.
Proof.
  destruct goods as [|g gs]; [by destruct (Str.join sep ([] ++ bad :: rest))|].
  rewrite join_app by done. apply prefix_append.
Qed.

(** [readEvents] changes at most the events file of the trace, and only to a
    prefix of what it held; what it returns and what it leaves depend on the
    content of that file only. *)
Lemma readEvents_depends_on_file (w1 w2 : World) (t : string) (r : bool) :
  events_jsonl (dir_of w1 t) = events_jsonl (dir_of w2 t) ->
  fst (readEvents w1 t r) = fst (readEvents w2 t r)
  /\ events_jsonl (dir_of (snd (readEvents w1 t r)) t)
     = events_jsonl (dir_of (snd (readEvents w2 t r)) t).
Proof.
  intros H. unfold readEvents. rewrite H.
  destruct (events_jsonl (dir_of w2 t)) as [raw|] eqn:H2; [|by simpl; rewrite H, H2].
  destruct (Str.blank raw); [by simpl; rewrite H, H2|].
  destruct (scan (Str.split Str.lf raw) [] 0) as [[p v] m].
  destruct (m && r); simpl; [|by rewrite H, H2]. by rewrite !dir_of_set_dir.
Qed.

Lemma readEvents_meta (w : World) (t : string) (r : bool) :
  meta (dir_of (snd (readEvents w t r)) t) = meta (dir_of w t)
  /\ append_lock (dir_of (snd (readEvents w t r)) t) = append_lock (dir_of w t)
  /\ (is_Some (traces w !! t) -> is_Some (traces (snd (readEvents w t r)) !! t)).
Proof.
  unfold readEvents.
  destruct (events_jsonl (dir_of w t)) as [raw|]; [|done].
  destruct (Str.blank raw); [done|].
  destruct (scan (Str.split Str.lf raw) [] 0) as [[p v] m].
  destruct (m && r); simpl; [|done]. rewrite !dir_of_set_dir. simpl.
  split; [done|]. split; [done|]. intros _. rewrite lookup_insert_eq. eauto.
Qed.

Lemma readEvents_prefix (w : World) (t : string) :
  file_prefix (events_jsonl (dir_of (snd (readEvents w t true)) t))
              (events_jsonl (dir_of w t)) = true.
Proof.
  destruct (events_jsonl (dir_of w t)) as [raw|] eqn:Hfile.
  - destruct (file_cases raw)
      as [(lines & -> & Hlf & Hok)|(goods & bad & rest & -> & Hlf & Hg & Hb)].
    + rewrite (readEvents_clean _ _ _ _ Hfile Hlf Hok). simpl. rewrite Hfile.
      apply prefix_refl.
    + rewrite (readEvents_malformed _ _ _ _ _ Hfile Hlf Hg Hb). simpl.
      rewrite dir_of_set_dir. simpl. apply prefix_join.
  - unfold readEvents. rewrite Hfile. simpl. by rewrite Hfile.
Qed.

(** A second read returns what the first returned. *)
Lemma readEvents_again (w : World) (t : string) :
  readEvents (snd (readEvents w t true)) t true
  = (fst (readEvents w t true), snd (readEvents w t true)).
Proof.
  destruct (events_jsonl (dir_of w t)) as [raw|] eqn:Hfile.
  - destruct (file_cases raw)
      as [(lines & -> & Hlf & Hok)|(goods & bad & rest & -> & Hlf & Hg & Hb)].
    + rewrite (readEvents_clean _ _ _ _ Hfile Hlf Hok). simpl.
      by apply readEvents_clean.
    + rewrite (readEvents_malformed _ _ _ _ _ Hfile Hlf Hg Hb). simpl.
      apply readEvents_clean; [by rewrite dir_of_set_dir| |done].
      apply Forall_app in Hlf. tauto.
  - unfold readEvents. rewrite Hfile. simpl. by rewrite Hfile.
Qed.


(** ** [appendEvent] *)

Lemma strict_eq_str (v : jsval) (s : string) :
  Js.strict_eq v (JStr s) = true <-> v = JStr s.
Proof.
  destruct v; simpl; try (split; [done|intros [=]]).
  rewrite String.eqb_eq. split; [by intros ->|by intros [= ->]].
Qed.

Lemma getp_non_nullish (e : jsval) (k : string) :
  Js.is_nullish e = false -> Js.getp e k = Ok (Js.getp_opt e k).
Proof. by destruct e. Qed.

(** An event of the ledger with the given [event_id]. *)
Definition same_id (id : string) (e : jsval) : Prop :=
  Js.getp_opt e "event_id" = JStr id.

Lemma hasDuplicateEventId_spec (events : list jsval) (id : string) :
  Forall (fun e => Js.is_nullish e = false) events ->
  (hasDuplicateEventId events id = Ok true /\ Exists (same_id id) events)
  \/ (hasDuplicateEventId events id = Ok false /\ ~ Exists (same_id id) events).
Proof.
  induction 1 as [|e es He Hes IH].
  - right. split; [done|]. by intros H%Exists_nil.
  - simpl. rewrite (getp_non_nullish _ _ He).
    destruct (Js.strict_eq (Js.getp_opt e "event_id") (JStr id)) eqn:Heq.
    + left. split; [done|]. apply Exists_cons_hd. by apply strict_eq_str.
    + destruct IH as [[-> Hex]|[-> Hno]].
      * left. split; [done|]. by apply Exists_cons_tl.
      * right. split; [done|]. intros [Hhd|Htl]%Exists_cons; [|done].
        apply strict_eq_str in Hhd. congruence.
Qed.

(** The removal of the lock file at the end of [withTraceLock]. *)
Definition unlocked (w : World) (t : string) : World :=
  match traces w !! t with
  | Some d => if append_lock d then set_dir w t (set_lock d false) else w
  | None => w
  end.

Lemma unlocked_files (w : World) (t : string) :
  meta (dir_of (unlocked w t) t) = meta (dir_of w t)
  /\ events_jsonl (dir_of (unlocked w t) t) = events_jsonl (dir_of w t).
Proof.
  unfold unlocked. destruct (traces w !! t) as [d|] eqn:Hd; [|done].
  destruct (append_lock d); [|done].
  rewrite dir_of_set_dir, (dir_of_lookup _ _ _ Hd). done.
Qed.

Lemma withTraceLock_free {T} (w : World) (t : string) (d : TraceDir)
    (operation : World -> result T * World) :
  traces w !! t = Some d -> append_lock d = false ->
  withTraceLock w t operation
  = (fst (operation (set_dir w t (set_lock d true))),
     unlocked (snd (operation (set_dir w t (set_lock d true)))) t).
Proof.
  intros Hd Hl. unfold withTraceLock, unlocked. rewrite Hd, Hl.
  by destruct (operation _).
Qed.

(** The body of [appendEvent] on a trace with metadata, a directory and a
    ledger without a [null] line. *)
Lemma appendEvent_locked_spec (w : World) (t : string) (event : ProtocolEvent)
    (session : TraceSession) :
  meta (dir_of w t) = Some session ->
  ts_trace_id session = t ->
  is_Some (traces w !! t) ->
  Forall (fun e => Js.is_nullish e = false) (fst (readEvents w t true)) ->
  let out := appendEvent_locked t event w in
  (is_ok (fst out) = false <->
     trace_id event <> t
     \/ prev_event_hash event <> head_event_hash session
     \/ Exists (same_id (event_id event)) (fst (readEvents w t true)))
  /\ (is_ok (fst out) = false ->
      snd out = w \/ snd out = snd (readEvents w t true))
  /\ (is_ok (fst out) = true ->
      fst out = Ok event
      /\ meta (dir_of (snd out) t) = Some (appended session event)
      /\ events_jsonl (dir_of (snd out) t)
         = Some (default "" (events_jsonl (dir_of (snd (readEvents w t true)) t))
                 +:+ (JSON_stringify (ProtocolEvent_json event) +:+ sep))).
Proof.
  intros Hmeta Hid Hdir Hnull. unfold appendEvent_locked, TraceStore.loadTrace.
  rewrite Hmeta.
  destruct (String.eqb (trace_id event) t) eqn:Ht; simpl.
  2:{ apply String.eqb_neq in Ht. split; [|split]; [|by left|done].
      split; [by left|done]. }
  apply String.eqb_eq in Ht.
  destruct (String.eqb (prev_event_hash event) (head_event_hash session)) eqn:Hp;
    simpl.
  2:{ apply String.eqb_neq in Hp. split; [|split]; [|by left|done].
      split; [by right; left|done]. }
  apply String.eqb_eq in Hp.
  destruct (readEvents w t true) as [events w1] eqn:Hread. simpl in Hnull.
  pose proof (readEvents_meta w t true) as (Hm1 & _ & Hd1).
  rewrite Hread in Hm1, Hd1. simpl in Hm1, Hd1. specialize (Hd1 Hdir).
  destruct (hasDuplicateEventId_spec events (event_id event) Hnull)
    as [[-> Hex]|[-> Hno]]; simpl.
  - split; [|split]; [|by right|done]. split; [by right; right|done].
  - unfold TraceStore.saveTrace, appendFile. simpl. rewrite Hid.
    rewrite lookup_insert_eq. simpl.
    split; [|split]; [|done|].
    + split; [done|]. intros [H|[H|H]]; done.
    + intros _. split; [done|]. rewrite dir_of_set_dir. simpl. done.
Qed.


Lemma locked_world (w : World) (t : string) (d : TraceDir) :
  traces w !! t = Some d ->
  let wl := set_dir w t (set_lock d true) in
  meta (dir_of wl t) = meta d
  /\ events_jsonl (dir_of wl t) = events_jsonl (dir_of w t)
  /\ is_Some (traces wl !! t).
Proof.
  intros Hd wl. subst wl. rewrite dir_of_set_dir, (dir_of_lookup _ _ _ Hd).
  split; [done|]. split; [done|]. simpl. rewrite lookup_insert_eq. eauto.
Qed.


End WithRuntime.

(** An events file with two well-formed lines and a line cut short. *)
Lemma readEvents_recovery_drops_final_line_feed_witness :
  let goods := ["[1]"; "[2]"] in
  let raw := Str.join sep (goods ++ ["[3"]) in
  let first :=
    readEvents (RT := Ref.runtime) (Sample.with_events raw) Sample.traceId true in
  fst first = parsed_lines (RT := Ref.runtime) goods
  /\ Str.take (byte_total goods) raw = Str.join sep goods +:+ sep
  /\ events_jsonl (dir_of (snd first) Sample.traceId) = Some (Str.join sep goods)
  /\ events_jsonl (dir_of (snd first) Sample.traceId)
     <> Some (Str.take (byte_total goods) raw)
  /\ readEvents (RT := Ref.runtime) (snd first) Sample.traceId true
     = (parsed_lines (RT := Ref.runtime) goods, snd first).
Proof.
  apply (readEvents_recovery_drops_final_line_feed (RT := Ref.runtime)
           (Sample.with_events (Str.join sep (["[1]"; "[2]"] ++ ["[3"])))
           Sample.traceId ["[1]"; "[2]"] "[3" []).
  - vm_compute. reflexivity.
  - repeat (constructor; [vm_compute; reflexivity|]). constructor.
  - repeat (constructor; [vm_compute; reflexivity|]). constructor.
  - discriminate.
  - vm_compute. reflexivity.
Defined.

(** The session of the sample trace after its six appends, and an event built
    on a stale head. *)
Definition good_session : TraceSession :=
  Eval vm_compute in
    default (fst Sample.created) (meta (dir_of Sample.good_trace Sample.traceId)).

Definition stale_event : ProtocolEvent :=
  {| schema_version := Contracts.SCHEMA_VERSION;
     trace_id := Sample.traceId;
     event_id := Sample.ulid "E9";
     event_type := "proposal_created";
     created_at := Sample.at0;
     actor := {| agent_id := "planner-agent"; role := "planner"; key_id := "key_p" |};
     payload_hash := Contracts.GENESIS_PREV_HASH;
     prev_event_hash := Contracts.GENESIS_PREV_HASH;
     payload_type := "sample";
     payload := JObj [];
     claims := [];
     artifacts := [];
     signature := {| algorithm := Contracts.SIGNATURE_ALGORITHM;
                     signature_b64 := "AAAA";
                     signed_bytes_hash := Contracts.GENESIS_PREV_HASH |};
     event_hash := Contracts.GENESIS_PREV_HASH |}.


End LedgerFacts.

(* ===================================================================== *)
(** * What the checks of the verifier leave unchanged *)
(* ===================================================================== *)

Module VerifierFrame.
Import Types Files Contracts Verifier.

Section Invariant.
Context {RT : JsRuntime} {CL : CryptoLib} {CK : Clock}.
Variable P : World -> Prop.
Hypothesis P_lookup :
  forall w now keyId, P w -> P (snd (Crypto.resolveIdentityByKeyId w now keyId)).

(** The files satisfy [P] when a run ends, normally or not. *)
Definition run_holds (r : run) : Prop :=
  match r with Done st => P (world st) | Raised _ w => P w end.

Lemma holds_resolveIdentity (st : State) (keyId : jsval) :
  P (world st) -> P (world (snd (st_resolveIdentity st keyId))).
Proof using P_lookup.
  intros H. unfold st_resolveIdentity.
  pose proof (P_lookup (world st) (nowIso_at (ticks st)) keyId H) as H'.
  by destruct (Crypto.resolveIdentityByKeyId _ _ _).
Qed.

Lemma holds_forEach {A} (body : A -> State -> run) (xs : list A) :
  (forall x st, P (world st) -> run_holds (body x st)) ->
  forall st, P (world st) -> run_holds (forEach body xs st).
Proof.
  intros Hbody. induction xs as [|x xs IH]; intros st H; simpl; [done|].
  specialize (Hbody x st H). destruct (body x st); [by apply IH|done].
Qed.

Lemma holds_startCheck (id : CheckId) (scope : string) (operation : State -> run)
    (status_of : State -> CheckStatus) (st : State) :
  run_holds (operation st) -> run_holds (startCheck id scope operation status_of st).
Proof. unfold startCheck. by destruct (operation st). Qed.

Lemma holds_andThen (r : run) (k : State -> run) :
  run_holds r -> (forall st, P (world st) -> run_holds (k st)) ->
  run_holds (andThen r k).
Proof. intros Hr Hk. destruct r; simpl; [by apply Hk|done]. Qed.

Ltac lookup_step :=
  match goal with
  | H : P (world ?s) |- context [st_resolveIdentity ?s ?k] =>
      let H' := fresh "Hlook" in
      pose proof (holds_resolveIdentity s k H) as H';
      destruct (st_resolveIdentity s k); simpl in H'
  end.

Ltac body_cases :=
  repeat first [ progress simpl | lookup_step | case_match
               | progress (unfold mbind, result_bind in * )
               | progress simplify_eq/= ];
  try done.

Lemma holds_schema_loop (traceId : string) (events : list jsval) :
  forall seen st, P (world st) -> run_holds (schema_loop traceId events seen st).
Proof.
  induction events as [|event rest IH]; intros seen st H; [done|].
  cbn [schema_loop].
  repeat first [ case_match | progress (unfold mbind, result_bind in * )
               | progress simplify_eq/= ];
    try done; by apply IH.
Qed.

Lemma holds_hash_body (event : jsval) (st : State) :
  P (world st) -> run_holds (hash_body event st).
Proof. intros H. unfold hash_body. body_cases. Qed.

Lemma holds_chain_loop (events : list jsval) :
  forall index previous st,
    P (world st) -> run_holds (chain_loop index previous events st).
Proof.
  induction events as [|event rest IH]; intros index previous st H; [done|].
  cbn [chain_loop].
  repeat first [ case_match | progress simplify_eq/= ]; try done; by apply IH.
Qed.

Lemma holds_signature_body (event : jsval) (st : State) :
  P (world st) -> run_holds (signature_body event st).
Proof using P_lookup.
  intros H. unfold signature_body, st_resolvePublicKey. body_cases.
Qed.

Lemma holds_key_status_body (event : jsval) (st : State) :
  P (world st) -> run_holds (key_status_body event st).
Proof using P_lookup. intros H. unfold key_status_body. body_cases. Qed.

Lemma holds_artifact_body (event descriptor : jsval) (st : State) :
  P (world st) -> run_holds (artifact_body event descriptor st).
Proof. intros H. unfold artifact_body. body_cases. Qed.

Lemma holds_existence_body (event : jsval) (st : State) :
  P (world st) -> run_holds (existence_body event st).
Proof.
  intros H. unfold existence_body.
  repeat case_match; try done.
  apply holds_forEach; [|done]. intros. by apply holds_artifact_body.
Qed.

Lemma holds_hash_match_body (artifactHash : jsval) (st : State) :
  P (world st) -> run_holds (hash_match_body artifactHash st).
Proof. intros H. unfold hash_match_body. body_cases. Qed.

Lemma holds_claim_body (policyProfile : PolicyProfile)
    (challenged : list (jsval * jsval)) (event : jsval) (st : State) :
  P (world st) -> run_holds (claim_body policyProfile challenged event st).
Proof. intros H. unfold claim_body. body_cases. Qed.

Lemma holds_role_body (event : jsval) (st : State) :
  P (world st) -> run_holds (role_body event st).
Proof. intros H. unfold role_body. body_cases. Qed.

Lemma holds_finalization_body (allowIncomplete : bool) (events : list jsval)
    (st : State) :
  P (world st) -> run_holds (finalization_body allowIncomplete events st).
Proof. intros H. unfold finalization_body. body_cases. Qed.

(** Every check, and the pipeline, keep [P]. *)
Theorem holds_runChecks (traceId : string) (policyProfile : PolicyProfile)
    (allowIncomplete : bool) (events : list jsval) (st : State) :
  P (world st) ->
  run_holds (runChecks traceId policyProfile allowIncomplete events st).
Proof using P_lookup.
  intros H. unfold runChecks.
  apply holds_andThen.
  { apply holds_startCheck. by apply holds_schema_loop. }
  clear st H. intros st H. apply holds_andThen.
  { apply holds_startCheck. apply holds_forEach; [|done].
    intros. by apply holds_hash_body. }
  clear st H. intros st H. apply holds_andThen.
  { apply holds_startCheck. by apply holds_chain_loop. }
  clear st H. intros st H. apply holds_andThen.
  { apply holds_startCheck. apply holds_forEach; [|done].
    intros. by apply holds_signature_body. }
  clear st H. intros st H. apply holds_andThen.
  { apply holds_startCheck. apply holds_forEach; [|done].
    intros. by apply holds_key_status_body. }
  clear st H. intros st H. apply holds_andThen.
  { apply holds_startCheck. apply holds_forEach; [|done].
    intros. by apply holds_existence_body. }
  clear st H. intros st H. apply holds_andThen.
  { apply holds_startCheck. apply holds_forEach; [|done].
    intros. by apply holds_hash_match_body. }
  clear st H. intros st H. apply holds_andThen.
  { unfold CHK_CLAIMS. case_match; [|done].
    apply holds_startCheck. case_match; [|done].
    apply holds_forEach; [|done]. intros. by apply holds_claim_body. }
  clear st H. intros st H. apply holds_andThen.
  { apply holds_startCheck. apply holds_forEach; [|done].
    intros. by apply holds_role_body. }
  clear st H. intros st H.
  apply holds_startCheck. by apply holds_finalization_body.
Qed.

End Invariant.

Section Frame.
Context {RT : JsRuntime} {CL : CryptoLib} {CK : Clock}.

(** The key files, the artifact store and, in every trace directory, the
    metadata, the events file and the lock are the same in both worlds: they
    differ at most in the registry file and the reports. *)
Definition same_ledgers (w0 w : World) : Prop :=
  key_files w = key_files w0
  /\ blobs w = blobs w0
  /\ sidecars w = sidecars w0
  /\ forall t, meta (dir_of w t) = meta (dir_of w0 t)
               /\ events_jsonl (dir_of w t) = events_jsonl (dir_of w0 t)
               /\ append_lock (dir_of w t) = append_lock (dir_of w0 t).

Lemma same_ledgers_refl (w : World) : same_ledgers w w.
Proof. by repeat split. Qed.

Lemma same_ledgers_lookup (w0 w : World) (now : string) (keyId : jsval) :
  same_ledgers w0 w ->
  same_ledgers w0 (snd (Crypto.resolveIdentityByKeyId w now keyId)).
Proof.
  intros H. unfold Crypto.resolveIdentityByKeyId, Crypto.loadRegistry.
  by destruct (registry w).
Qed.

Lemma same_ledgers_reports (w0 w : World) (t : string) (r : VerificationReport) :
  same_ledgers w0 w -> same_ledgers w0 (snd (write_report_files w t r)).
Proof.
  intros (Hk & Hb & Hs & Ht). unfold write_report_files.
  destruct (Reporting.renderHumanReport r); simpl;
    (split; [done|]; split; [done|]; split; [done|]; intros t';
     destruct (decide (t = t')) as [<-|Hne];
     [ rewrite !LedgerFacts.dir_of_set_dir; simpl; apply Ht
     | rewrite !LedgerFacts.dir_of_set_dir_ne by done; apply Ht ]).
Qed.

(** [verifyTrace] leaves the ledgers as its call of [readEvents] left them,
    when the metadata file exists and the profile is one of the three. *)
Lemma verifyTrace_frame (w : World) (input : VerifyInput) (freshReportId : string)
    (session : TraceSession) (profile : PolicyProfile) :
  meta (dir_of w (in_trace_id input)) = Some session ->
  policyProfileSchema_parse
    (default (ts_policy_profile session) (in_policy_profile input)) = Ok profile ->
  same_ledgers (snd (Ledger.readEvents w (in_trace_id input) true))
               (snd (verifyTrace w input freshReportId)).
Proof.
  intros Hmeta Hprofile. unfold verifyTrace, TraceStore.loadTrace.
  rewrite Hmeta, Hprofile.
  destruct (Ledger.readEvents w (in_trace_id input) true) as [events w1]. simpl.
  pose proof (holds_runChecks (same_ledgers w1) (same_ledgers_lookup w1)
                (in_trace_id input) profile (allow_incomplete_finalization input)
                events (initial_state w1) (same_ledgers_refl w1)) as Hrun.
  destruct (runChecks _ _ _ _ _) as [st|e w2]; simpl in Hrun; [|done].
  destruct (artifact_reference_total events) as [n|]; [|done].
  destruct (negb (verificationReportSchema _)); [done|].
  destruct (default true (write_reports input)); [|done].
  pose proof (same_ledgers_reports w1 (world st) (in_trace_id input)
                (build_report session profile
                   (default freshReportId (in_report_id input)) events n st) Hrun)
    as Hrep.
  by destruct (write_report_files _ _ _) as [[|] w3].
Qed.

End Frame.

End VerifierFrame.

(* ===================================================================== *)
(** * Reads that write *)
(* ===================================================================== *)

Module ReadEffects.
Import Types Files Contracts Ledger StrFacts LedgerFacts Verifier VerifierFrame.

Section WithRuntime.
Context {RT : JsRuntime} {CL : CryptoLib} {CK : Clock}.

Lemma getEvents_world (w : World) (t : string) (query : Api.EventsQuery) :
  snd (Api.getEvents w t query) = snd (readEvents w t true).
Proof.
  unfold Api.getEvents. destruct (readEvents w t true) as [events w'].
  by repeat case_match.
Qed.

Lemma getEvent_world (w : World) (t eventId : string) :
  snd (Api.getEvent w t eventId) = snd (readEvents w t true).
Proof.
  unfold Api.getEvent. destruct (readEvents w t true) as [events w'].
  by repeat case_match.
Qed.


End WithRuntime.


End ReadEffects.

(* ===================================================================== *)
(** * Properties of the artifact store *)
(* ===================================================================== *)

Module ArtifactFacts.
Import Types Files Contracts ArtifactStore.

Section WithCrypto.
Context {CL : CryptoLib}.

(** A sequence of calls of [writeArtifact], each with the time it reads. *)
Fixpoint writeAll (w : World) (writes : list (WriteArtifactInput * string))
  : list ArtifactDescriptor * World :=
  match writes with
  | [] => ([], w)
  | (input, now) :: rest =>
      let '(d, w1) := writeArtifact w input now in
      let '(ds, w2) := writeAll w1 rest in
      (d :: ds, w2)
  end.

Definition pair_of_ref (r : ArtifactReference) : string * string :=
  (ref_trace_id r, ref_producer_event_id r).

Definition pair_of_input (x : WriteArtifactInput * string) : string * string :=
  (in_trace_id (fst x), in_producer_event_id (fst x)).

(** The fields that a later write takes from the sidecar. *)
Definition preserves (d0 d : ArtifactDescriptor) : Prop :=
  ad_created_at d = ad_created_at d0
  /\ byte_size d = byte_size d0
  /\ media_type d = media_type d0
  /\ encoding d = encoding d0.

Lemma linked_spec (input : WriteArtifactInput) (refs : list ArtifactReference) :
  List.existsb (linked input) refs = true
  <-> (in_trace_id input, in_producer_event_id input) ∈ map pair_of_ref refs.
Proof.
  induction refs as [|r rs IH]; simpl.
  - split; [done|]. by intros H%elem_of_nil.
  - rewrite orb_true_iff, IH, elem_of_cons. unfold linked, pair_of_ref at 1.
    rewrite andb_true_iff, !String.eqb_eq. split.
    + intros [[<- <-]|H]; [by left|by right].
    + intros [[= -> ->]|H]; [by left|by right].
Qed.

(** One write on a hash whose sidecar and blob exist. *)
Lemma writeArtifact_again (w : World) (input : WriteArtifactInput) (now : string)
    (s : ArtifactSidecar) :
  sidecars w !! sha256Hex (bytes input) = Some s ->
  is_Some (blobs w !! sha256Hex (bytes input)) ->
  let out := writeArtifact w input now in
  let refs := default [] (references s) in
  blobs (snd out) = blobs w
  /\ preserves (descriptor s) (fst out)
  /\ sidecars (snd out)
     = (if List.existsb (linked input) refs then sidecars w
        else <[sha256Hex (bytes input) :=
                 {| descriptor := descriptor s;
                    references :=
                      Some (refs ++ [{| ref_trace_id := in_trace_id input;
                                        ref_producer_event_id := in_producer_event_id input;
                                        ref_created_at := now |}]) |}]> (sidecars w)).
Proof.
  intros Hs [c Hc]. unfold writeArtifact. rewrite Hc, Hs. simpl.
  split; [by destruct (List.existsb _ _)|]. split; [done|].
  by destruct (List.existsb _ _).
Qed.

Lemma writeAll_again (b : string) (writes : list (WriteArtifactInput * string)) :
  forall (w : World) (s : ArtifactSidecar),
    sidecars w !! sha256Hex b = Some s ->
    is_Some (blobs w !! sha256Hex b) ->
    NoDup (map pair_of_ref (default [] (references s))) ->
    Forall (fun x => bytes (fst x) = b) writes ->
    let out := writeAll w writes in
    blobs (snd out) = blobs w
    /\ Forall (preserves (descriptor s)) (fst out)
    /\ exists s',
         sidecars (snd out) !! sha256Hex b = Some s'
         /\ descriptor s' = descriptor s
         /\ NoDup (map pair_of_ref (default [] (references s')))
         /\ forall p, p ∈ map pair_of_ref (default [] (references s'))
                      <-> p ∈ map pair_of_ref (default [] (references s))
                          \/ p ∈ map pair_of_input writes.
Proof.
  induction writes as [|[input now] rest IH]; intros w s Hs Hb Hnd Hall.
  - simpl. split; [done|]. split; [done|]. exists s.
    split; [done|]. split; [done|]. split; [done|]. intros p.
    rewrite elem_of_nil. tauto.
  - apply Forall_cons in Hall as [Hbytes Hrest]. simpl in Hbytes.
    cbn [writeAll].
    destruct (writeArtifact_again w input now s) as (Hblobs & Hpres & Hside);
      [by rewrite Hbytes..|].
    destruct (writeArtifact w input now) as [d w1]. simpl in Hblobs, Hpres, Hside.
    rewrite Hbytes in Hside.
    destruct (List.existsb (linked input) (default [] (references s))) eqn:Hl.
    + specialize (IH w1 s). rewrite Hside, Hblobs in IH.
      specialize (IH Hs Hb Hnd Hrest).
      destruct (writeAll w1 rest) as [ds w2]. simpl in *.
      destruct IH as (IHb & IHp & s' & Hs' & Hd' & Hnd' & Hiff).
      split; [congruence|]. split; [by constructor|]. exists s'.
      split; [done|]. split; [done|]. split; [done|]. intros p.
      rewrite Hiff, elem_of_cons. apply linked_spec in Hl.
      unfold pair_of_input at 2. simpl. split; [tauto|].
      intros [H|[->|H]]; tauto.
    + set (s1 := {| descriptor := descriptor s;
                    references :=
                      Some (default [] (references s)
                            ++ [{| ref_trace_id := in_trace_id input;
                                   ref_producer_event_id := in_producer_event_id input;
                                   ref_created_at := now |}]) |}) in *.
      assert (Hnew : (in_trace_id input, in_producer_event_id input)
                     ∉ map pair_of_ref (default [] (references s))).
      { intros Hin%linked_spec. congruence. }
      specialize (IH w1 s1). rewrite Hside, Hblobs in IH.
      rewrite lookup_insert_eq in IH. specialize (IH eq_refl Hb).
      assert (Hnd1 : NoDup (map pair_of_ref (default [] (references s1)))).
      { subst s1. simpl. rewrite map_app. simpl.
        apply NoDup_app. split; [done|]. split.
        - intros p Hp Hq. apply list_elem_of_singleton in Hq. by subst p.
        - apply NoDup_singleton. }
      specialize (IH Hnd1 Hrest).
      destruct (writeAll w1 rest) as [ds w2]. simpl in *.
      destruct IH as (IHb & IHp & s' & Hs' & Hd' & Hnd' & Hiff).
      split; [congruence|]. split; [by constructor|]. exists s'.
      split; [done|]. split; [done|]. split; [done|]. intros p.
      rewrite Hiff, elem_of_cons. rewrite map_app, elem_of_app. simpl.
      rewrite list_elem_of_singleton. unfold pair_of_input at 2,
        pair_of_ref at 2. simpl. tauto.
Qed.


Lemma length_remove_dups `{EqDecision A} (l k : list A) :
  NoDup l -> (forall p, p ∈ l <-> p ∈ k) -> length l = length (remove_dups k).
Proof.
  intros Hnd Hiff. apply Permutation_length, NoDup_Permutation; [done| |].
  - apply NoDup_remove_dups.
  - intros p. by rewrite elem_of_remove_dups.
Qed.

(** C9.  The bytes [b] are written one or more times, starting from a store
    without a sidecar for their hash.  Afterwards the store holds one blob
    more than before (or as many, when a blob of that hash was there), under
    the hash of [b]; the references of the sidecar name each pair of trace
    and producer event once, so their number is the number of distinct pairs
    and [N] when the pairs differ; and each descriptor returned after the
    first has the creation time, the size, the media type and the encoding of
    the first. *)
Theorem writeArtifact_deduplicates
    (w : World) (b : string) (first : WriteArtifactInput * string)
    (more : list (WriteArtifactInput * string)) :
  sidecars w !! sha256Hex b = None ->
  Forall (fun x => bytes (fst x) = b) (first :: more) ->
  let out := writeAll w (first :: more) in
  let pairs := map pair_of_input (first :: more) in
  blobs (snd out)
  = match blobs w !! sha256Hex b with
    | None => <[sha256Hex b := b]> (blobs w)
    | Some _ => blobs w
    end
  /\ (exists s refs,
        sidecars (snd out) !! sha256Hex b = Some s
        /\ references s = Some refs
        /\ NoDup (map pair_of_ref refs)
        /\ (forall p, p ∈ map pair_of_ref refs <-> p ∈ pairs)
        /\ length refs = length (remove_dups pairs)
        /\ (NoDup pairs -> length refs = length (first :: more)))
  /\ (exists d0 ds,
        fst out = d0 :: ds
        /\ ad_created_at d0 = snd first
        /\ byte_size d0 = String.length b
        /\ media_type d0 = in_media_type (fst first)
        /\ encoding d0 = in_encoding (fst first)
        /\ Forall (preserves d0) ds).
Proof.
  intros Hnone Hall out pairs. destruct first as [input now].
  apply Forall_cons in Hall as [Hbytes Hrest]. simpl in Hbytes.
  subst out. cbn [writeAll].
  set (h := sha256Hex b) in *.
  set (reference := {| ref_trace_id := in_trace_id input;
                       ref_producer_event_id := in_producer_event_id input;
                       ref_created_at := now |}).
  set (w0 := match blobs w !! h with
             | None => set_blob w h b
             | Some _ => w
             end).
  assert (Hfirst : exists d0,
            writeArtifact w input now
            = (d0, set_sidecar w0 h {| descriptor := d0;
                                       references := Some [reference] |})
            /\ ad_created_at d0 = now /\ byte_size d0 = String.length b
            /\ media_type d0 = in_media_type input
            /\ encoding d0 = in_encoding input).
  { unfold writeArtifact. rewrite Hbytes. fold h. fold w0.
    assert (Hside : sidecars w0 !! h = None).
    { subst w0. by destruct (blobs w !! h). }
    rewrite Hside. eexists. split; [reflexivity|]. done. }
  destruct Hfirst as (d0 & -> & Hc & Hsz & Hmt & Hen).
  set (s0 := {| descriptor := d0; references := Some [reference] |}).
  assert (Hblob : is_Some (blobs (set_sidecar w0 h s0) !! h)).
  { subst w0. simpl. destruct (blobs w !! h) eqn:Hb; simpl.
    - by rewrite Hb.
    - by rewrite lookup_insert_eq. }
  destruct (writeAll_again b more (set_sidecar w0 h s0) s0) as (Hb' & Hp & s' & Hs' & Hd' & Hnd' & Hiff).
  { simpl. by rewrite lookup_insert_eq. }
  { done. }
  { simpl. apply NoDup_singleton. }
  { done. }
  destruct (writeAll (set_sidecar w0 h s0) more) as [ds w2]. cbn [fst snd] in *.
  assert (Hrefs : exists refs, references s' = Some refs
                               /\ default [] (references s') = refs
                               /\ refs <> []).
  { assert (Hin : pair_of_ref reference
                  ∈ map pair_of_ref (default [] (references s'))).
    { apply Hiff. left. simpl. by apply list_elem_of_singleton. }
    destruct (references s') as [refs|] eqn:Hr.
    - exists refs. split; [done|]. split; [done|]. intros ->.
      by apply elem_of_nil in Hin.
    - by apply elem_of_nil in Hin. }
  destruct Hrefs as (refs & Hr & Hdef & _). rewrite Hdef in Hnd', Hiff.
  assert (Hsame : forall p, p ∈ map pair_of_ref refs <-> p ∈ pairs).
  { intros p. rewrite Hiff. subst s0 reference pairs. simpl.
    rewrite list_elem_of_singleton, elem_of_cons.
    unfold pair_of_ref at 1, pair_of_input at 1. simpl. tauto. }
  split; [|split].
  - rewrite Hb'. subst w0. simpl. by destruct (blobs w !! h).
  - exists s', refs. split; [done|]. split; [done|]. split; [done|].
    split; [done|].
    assert (Hlen : length refs = length (remove_dups pairs)).
    { rewrite <- (length_map pair_of_ref). by apply length_remove_dups. }
    split; [done|]. intros Hnd.
    rewrite <- (length_map pair_of_ref), <- (length_map pair_of_input).
    by apply Permutation_length, NoDup_Permutation.
  - exists d0, ds. split; [done|]. split; [done|]. split; [done|].
    split; [done|]. split; [done|]. exact Hp.
Qed.

End WithCrypto.

(** Three writes of the same bytes, the third by the producer of the first. *)
Definition sample_write (producer mediaType now : string)
  : WriteArtifactInput * string :=
  ({| in_trace_id := Sample.traceId; in_producer_event_id := producer;
      bytes := "hello"; in_media_type := mediaType; in_encoding := "utf-8";
      in_redaction_status := None |}, now).

Lemma writeArtifact_deduplicates_witness :
  let first := sample_write "E1" "text/plain" "2026-01-01T00:00:00.000Z" in
  let more := [sample_write "E2" "application/json" "2026-01-02T00:00:00.000Z";
               sample_write "E1" "text/csv" "2026-01-03T00:00:00.000Z"] in
  let w := empty_world in
  let b := "hello" in
  let out := writeAll (CL := Ref.crypto) w (first :: more) in
  let pairs := map pair_of_input (first :: more) in
  blobs (snd out)
  = match blobs w !! sha256Hex (CryptoLib := Ref.crypto) b with
    | None => <[sha256Hex (CryptoLib := Ref.crypto) b := b]> (blobs w)
    | Some _ => blobs w
    end
  /\ (exists s refs,
        sidecars (snd out) !! sha256Hex (CryptoLib := Ref.crypto) b = Some s
        /\ references s = Some refs
        /\ NoDup (map pair_of_ref refs)
        /\ (forall p, p ∈ map pair_of_ref refs <-> p ∈ pairs)
        /\ length refs = length (remove_dups pairs)
        /\ (NoDup pairs -> length refs = length (first :: more)))
  /\ (exists d0 ds,
        fst out = d0 :: ds
        /\ ad_created_at d0 = snd first
        /\ byte_size d0 = String.length b
        /\ media_type d0 = in_media_type (fst first)
        /\ encoding d0 = in_encoding (fst first)
        /\ Forall (preserves d0) ds).
Proof.
  apply (writeArtifact_deduplicates (CL := Ref.crypto) empty_world "hello"
           (sample_write "E1" "text/plain" "2026-01-01T00:00:00.000Z")
           [sample_write "E2" "application/json" "2026-01-02T00:00:00.000Z";
            sample_write "E1" "text/csv" "2026-01-03T00:00:00.000Z"]).
  - reflexivity.
  - repeat constructor.
Defined.

End ArtifactFacts.

(* ===================================================================== *)
(** * The event hash and its check *)
(* ===================================================================== *)

Module HashFacts.
Import Types Files Contracts Verifier.

Section WithRuntime.
Context {RT : JsRuntime} {CL : CryptoLib} {CK : Clock}.

(** The rule of the specification: the SHA-256 of the canonical form of the
    event with only [event_hash] removed. *)
Definition spec_event_hash (event : jsval) : result string :=
  match Js.rest_without "event_hash" event with
  | Throw e => Throw e
  | Ok without =>
      match Canon.canonicalize without with
      | Throw e => Throw e
      | Ok text => Ok (sha256Hex text)
      end
  end.

(** [event.event_hash] differs from the hash of the rule. *)
Definition hash_differs (event : jsval) : bool :=
  match spec_event_hash event with
  | Ok h => negb (Js.strict_eq (JStr h) (Js.getp_opt event "event_hash"))
  | Throw _ => false
  end.

Definition hashable (event : jsval) : Prop :=
  is_ok (spec_event_hash event) = true
  /\ is_ok (Reporting.template (Js.getp_opt event "event_hash")) = true.

(** The failure that the check records for an event. *)
Definition reports (event : jsval) (f : VerificationFailure) : Prop :=
  failure_code f = HASH_MISMATCH
  /\ vf_severity f = critical
  /\ verification_step f = CHK_EVENT_HASH_INTEGRITY
  /\ vf_event_id f = present (Js.getp_opt event "event_id").

Lemma remove_prop_idem (k : string) (props : list (string * jsval)) :
  Js.remove_prop k (Js.remove_prop k props) = Js.remove_prop k props.
Proof.
  unfold Js.remove_prop. induction props as [|p ps IH]; [done|]. simpl.
  destruct (negb (String.eqb (fst p) k)) eqn:Hp; simpl; [|done].
  by rewrite Hp, IH.
Qed.

Lemma computeEventHash_rest (event without : jsval) :
  Js.rest_without "event_hash" event = Ok without ->
  Crypto.computeEventHash without = spec_event_hash event.
Proof.
  intros H. unfold Crypto.computeEventHash, spec_event_hash. rewrite H.
  unfold Js.rest_without in *. destruct (Js.own_props event) as [props|]; [|done].
  injection H as <-. simpl. rewrite remove_prop_idem. done.
Qed.

Lemma rest_without_getp (event without : jsval) (k : string) :
  Js.rest_without "event_hash" event = Ok without ->
  Js.getp event k = Ok (Js.getp_opt event k).
Proof. unfold Js.rest_without. by destruct event. Qed.

(** One iteration of the check. *)
Lemma hash_body_spec (event : jsval) (st : State) :
  hashable event ->
  exists st',
    hash_body event st = Done st'
    /\ st_warnings st' = st_warnings st
    /\ ((hash_differs event = false /\ st_failures st' = st_failures st)
        \/ (hash_differs event = true
            /\ exists f, st_failures st' = st_failures st ++ [f] /\ reports event f)).
Proof.
  intros [Hh Ht]. unfold hash_body, hash_differs.
  destruct (Js.rest_without "event_hash" event) as [without|] eqn:Hrest.
  2:{ unfold spec_event_hash in Hh. by rewrite Hrest in Hh. }
  rewrite (computeEventHash_rest _ _ Hrest).
  destruct (spec_event_hash event) as [h|]; [|done].
  rewrite !(rest_without_getp _ _ _ Hrest).
  destruct (Js.strict_eq (JStr h) (Js.getp_opt event "event_hash")); simpl.
  - exists st. split; [done|]. split; [done|]. by left.
  - destruct (Reporting.template (Js.getp_opt event "event_hash")) as [shown|];
      [|done].
    eexists. split; [reflexivity|]. split; [done|]. right. split; [done|].
    eexists. split; [reflexivity|]. done.
Qed.

Lemma forEach_hash_body (events : list jsval) :
  forall st,
    Forall hashable events ->
    exists st' new,
      forEach hash_body events st = Done st'
      /\ st_warnings st' = st_warnings st
      /\ st_failures st' = st_failures st ++ new
      /\ Forall2 reports (List.filter hash_differs events) new.
Proof.
  induction events as [|event rest IH]; intros st Hall.
  - exists st, []. split; [done|]. split; [done|]. rewrite app_nil_r.
    split; [done|]. constructor.
  - apply Forall_cons in Hall as [Hev Hrest]. cbn [forEach List.filter].
    destruct (hash_body_spec event st Hev) as (st1 & -> & Hw & Hcase).
    destruct (IH st1 Hrest) as (st' & new & -> & Hw' & Hf' & Hrep).
    destruct Hcase as [[-> Hsame]|[-> (f & Hf & Hr)]].
    + exists st', new. rewrite Hw', Hf', Hsame, Hw. done.
    + exists st', (f :: new). rewrite Hw', Hf', Hf, Hw, <- app_assoc.
      split; [done|]. split; [done|]. split; [done|]. by constructor.
Qed.

Lemma remove_prop_absent (k : string) (props : list (string * jsval)) :
  List.forallb (fun p => negb (String.eqb (fst p) k)) props = true ->
  Js.remove_prop k props = props.
Proof.
  unfold Js.remove_prop. induction props as [|p ps IH]; [done|]. simpl.
  intros [Hp Hps]%andb_true_iff. rewrite Hp. by rewrite IH.
Qed.

Lemma rest_without_event (e : ProtocolEvent) :
  Js.rest_without "event_hash" (ProtocolEvent_json e) = Ok (withSignature_json e).
Proof. reflexivity. Qed.

Lemma rest_without_signed (e : ProtocolEvent) :
  Js.rest_without "event_hash" (withSignature_json e) = Ok (withSignature_json e).
Proof. reflexivity. Qed.

(** The event that [buildSignedEvent] returns carries the hash of the rule. *)
Lemma buildSignedEvent_hash (input : EventFactory.BuildEventInput)
    (freshId now : string) (e : ProtocolEvent) :
  EventFactory.buildSignedEvent input freshId now = Ok e ->
  spec_event_hash (ProtocolEvent_json e) = Ok (event_hash e).
Proof.
  unfold EventFactory.buildSignedEvent. intros H.
  destruct (Crypto.hashCanonical _) as [payloadHash|]; [|done]. simpl in H.
  destruct (Crypto.canonicalSignedBytes _) as [signedBytes|]; [|done]. simpl in H.
  destruct (Crypto.signBytes _ _) as [sig|]; [|done]. simpl in H.
  match type of H with
  | context [Crypto.computeEventHash (withSignature_json ?x)] =>
      rewrite (computeEventHash_rest (ProtocolEvent_json x) _
                 (rest_without_event x)) in H;
      destruct (spec_event_hash (ProtocolEvent_json x)) as [h|] eqn:Hh; [|done]
  end.
  simpl in H. injection H as <-. exact Hh.
Qed.


(** C2.  On a snapshot whose events can be hashed, CHK_EVENT_HASH_INTEGRITY
    ends normally and adds one failure for each event whose [event_hash]
    differs from the SHA-256 of the canonical form of the event without
    [event_hash], in the order of the events, and nothing for the others;
    each has the code HASH_MISMATCH and the severity critical and names the
    event.  The hashed object keeps the signature, and the event that
    [buildSignedEvent] returns carries the hash of this rule. *)
Theorem hash_check_reports_exactly_the_mismatches
    (events : list jsval) (st : State) :
  Forall hashable events ->
  (exists st' new,
      CHK_HASH events st = Done st'
      /\ st_failures st' = st_failures st ++ new
      /\ st_warnings st' = st_warnings st
      /\ Forall2 reports (List.filter hash_differs events) new)
  /\ (forall (input : EventFactory.BuildEventInput) (freshId now : string)
             (e : ProtocolEvent),
        EventFactory.buildSignedEvent input freshId now = Ok e ->
        Js.rest_without "event_hash" (ProtocolEvent_json e)
        = Ok (withSignature_json e)
        /\ spec_event_hash (ProtocolEvent_json e) = Ok (event_hash e)
        /\ hash_differs (ProtocolEvent_json e) = false).
Proof.
  intros Hall. split.
  - destruct (forEach_hash_body events st Hall) as (st' & new & Hrun & Hw & Hf & Hrep).
    unfold CHK_HASH, startCheck. rewrite Hrun.
    eexists _, new. split; [reflexivity|]. done.
  - intros input freshId now e Hbuilt.
    pose proof (buildSignedEvent_hash _ _ _ _ Hbuilt) as Hh.
    split; [done|]. split; [done|]. unfold hash_differs. rewrite Hh.
    change (Js.getp_opt (ProtocolEvent_json e) "event_hash") with (JStr (event_hash e)).
    simpl. by rewrite String.eqb_refl.
Qed.

End WithRuntime.

(** The events of the sample trace whose [proposal_created] payload was
    replaced. *)
Definition tampered_events : list jsval :=
  Eval vm_compute in
    fst (Ledger.readEvents (RT := Ref.runtime) Sample.tampered_trace
           Sample.traceId true).

Lemma hash_check_reports_exactly_the_mismatches_witness :
  let st := initial_state Sample.tampered_trace in
  (exists st' new,
      CHK_HASH (RT := Ref.runtime) (CL := Ref.crypto) (CK := Ref.clock)
        tampered_events st = Done st'
      /\ st_failures st' = st_failures st ++ new
      /\ st_warnings st' = st_warnings st
      /\ Forall2 reports
           (List.filter (hash_differs (RT := Ref.runtime) (CL := Ref.crypto))
              tampered_events) new)
  /\ (forall (input : EventFactory.BuildEventInput) (freshId now : string)
             (e : ProtocolEvent),
        EventFactory.buildSignedEvent (RT := Ref.runtime) (CL := Ref.crypto)
          input freshId now = Ok e ->
        Js.rest_without "event_hash" (ProtocolEvent_json e)
        = Ok (withSignature_json e)
        /\ spec_event_hash (RT := Ref.runtime) (CL := Ref.crypto)
             (ProtocolEvent_json e) = Ok (event_hash e)
        /\ hash_differs (RT := Ref.runtime) (CL := Ref.crypto)
             (ProtocolEvent_json e) = false).
Proof.
  apply (hash_check_reports_exactly_the_mismatches (RT := Ref.runtime)
           (CL := Ref.crypto) (CK := Ref.clock) tampered_events
           (initial_state Sample.tampered_trace)).
  unfold tampered_events.
  repeat (constructor; [split; vm_compute; reflexivity|]). constructor.
Defined.

(** In that snapshot exactly one event, the second, differs. *)
Lemma tampered_events_mismatch :
  List.map (hash_differs (RT := Ref.runtime) (CL := Ref.crypto)) tampered_events
  = [false; true; false; false; false; false].
Proof. vm_compute. reflexivity. Qed.

End HashFacts.
